(** * quest-limit-chat: the chat page, its session blob and its transcripts

    A shallow embedding of the [Chat] component, of [src/pages/Login.tsx]
    and of [src/lib/auth.ts].  React state is an explicit record, [localStorage]
    and the cookie jar are finite maps from keys to strings, the [setTimeout]
    callback of [handleSendMessage] is a record of the values its closure
    captured, and the clock and [Math.random] are inputs of the handlers.

    JavaScript strings are sequences of UTF-16 code units.  Here a string is
    a Stdlib [string]: a sequence of code units below 256, which is the
    Latin-1 range.  The platform functions the handlers call
    ([String.prototype.trim], [slice], [toLowerCase], [Date.prototype.toJSON],
    the [Date] constructor on a string, [JSON.stringify], [JSON.parse]) follow
    ECMA-262 on that range. *)

From Stdlib Require Import ZArith Lia List String Ascii Bool.
From stdpp Require Import base gmap strings list.

Set Warnings "-register-all".

Open Scope string_scope.
Open Scope list_scope.
Open Scope Z_scope.

(** ** Code units and strings *)

Module JsString.

Definition code (c : ascii) : Z := Z.of_N (N_of_ascii c).

Definition ofCode (n : Z) : ascii := ascii_of_N (Z.to_N n).

(** WhiteSpace and LineTerminator code points below 256: TAB, LF, VT, FF,
    CR, SP and NBSP. *)
Definition isWhiteSpace (c : ascii) : bool :=
  let n := code c in
  ((9 <=? n) && (n <=? 13)) || (n =? 32) || (n =? 160).

Fixpoint trimStart (s : string) : string :=
  match s with
  | EmptyString => EmptyString
  | String c r => if isWhiteSpace c then trimStart r else s
  end.

Definition trimEnd (s : string) : string :=
  String.rev (trimStart (String.rev s)).

Definition trim (s : string) : string := trimEnd (trimStart s).

(** [s.slice(b, e)] for integers [0 <= b <= e]. *)
Definition slice (b e : nat) (s : string) : string :=
  substring b (e - b) s.

(** ToBoolean on a string: the empty string is the only falsy one. *)
Definition truthy (s : string) : bool :=
  match s with EmptyString => false | _ => true end.

(** Upper-case letters below 256 are A-Z, and the letters from A-grave to
    THORN without the multiplication sign; each is 32 below its lower-case
    letter.  No other code unit below 256 is changed by [toLowerCase]. *)
Definition isUpper (c : ascii) : bool :=
  let n := code c in
  ((65 <=? n) && (n <=? 90))
  || ((192 <=? n) && (n <=? 222) && negb (n =? 215)).

Definition lowerChar (c : ascii) : ascii :=
  if isUpper c then ofCode (code c + 32) else c.

Fixpoint toLowerCase (s : string) : string :=
  match s with
  | EmptyString => EmptyString
  | String c r => String (lowerChar c) (toLowerCase r)
  end.

(** *** Decimal digits *)

Definition isDigit (c : ascii) : bool :=
  let n := code c in (48 <=? n) && (n <=? 57).

Definition digitChar (d : Z) : ascii := ofCode (48 + d).

Definition digitVal (c : ascii) : Z := code c - 48.

(** The [w] low decimal digits of [n], most significant first. *)
Fixpoint pad (w : nat) (n : Z) : string :=
  match w with
  | O => EmptyString
  | S w' => String (digitChar ((n / 10 ^ Z.of_nat w') mod 10)) (pad w' n)
  end.

(** Reads exactly [w] decimal digits. *)
Fixpoint readDigits (w : nat) (acc : Z) (s : string) : option (Z * string) :=
  match w with
  | O => Some (acc, s)
  | S w' =>
      match s with
      | String c r =>
          if isDigit c then readDigits w' (10 * acc + digitVal c) r else None
      | EmptyString => None
      end
  end.

(** Number of decimal digits of [n >= 0] (at least one). *)
Fixpoint countDigits (fuel : nat) (n : Z) : nat :=
  match fuel with
  | O => 1%nat
  | S f => if n <? 10 then 1%nat else S (countDigits f (n / 10))
  end.

Definition numDigits (n : Z) : nat := countDigits (Z.to_nat (Z.log2 n)) n.

(** Number::toString for an integer of magnitude up to 2^53, where it
    writes all the decimal digits.  A larger Number is written with the
    fewest digits that read back to it, and from 10^21 on with an exponent:
    that is not described here. *)
Definition numberToString (n : Z) : string :=
  if n <? 0 then String "-" (pad (numDigits (- n)) (- n))
  else pad (numDigits n) n.

(** Reads the longest prefix of decimal digits. *)
Fixpoint readNat (acc : Z) (s : string) : Z * string :=
  match s with
  | String c r => if isDigit c then readNat (10 * acc + digitVal c) r else (acc, s)
  | EmptyString => (acc, s)
  end.

End JsString.

(** ** Numbers *)

(** The Numbers of the page are integers: counts and readings of the clock.
    They are held as the integer a Number is equal to. *)
Module JsNumber.

(** 2^53: up to it in magnitude every integer is a Number. *)
Definition limit : Z := 9007199254740992.

(** The Number nearest to the natural number [a]: above 2^53 a Number has
    53 significant bits, and a tie goes to the even significand. *)
Definition nearest (a : Z) : Z :=
  if a <=? limit then a
  else
    let e := Z.log2 a - 52 in
    let q := a / 2 ^ e in
    let r := a mod 2 ^ e in
    let half := 2 ^ (e - 1) in
    let q' :=
      if r <? half then q
      else if half <? r then q + 1
      else if Z.even q then q else q + 1 in
    q' * 2 ^ e.

Definition round (z : Z) : Z :=
  if z <? 0 then - nearest (- z) else nearest z.

(** [x + y] for Numbers that are integers; the sum stays below 2^1024. *)
Definition add (x y : Z) : Z := round (x + y).

End JsNumber.

(** ** Time values and the date-time string format *)

Module JsDate.
Import JsString.

Definition msPerDay : Z := 86400000.

(** The largest time value of a Date, 8.64e15. *)
Definition maxTime : Z := 8640000000000000.

Definition validTime (t : Z) : Prop := - maxTime <= t <= maxTime.

Definition Day (t : Z) : Z := t / msPerDay.

Definition TimeWithinDay (t : Z) : Z := t mod msPerDay.

Definition DayFromYear (y : Z) : Z :=
  365 * (y - 1970) + (y - 1969) / 4 - (y - 1901) / 100 + (y - 1601) / 400.

Definition InLeapYear (y : Z) : Z :=
  if (y mod 4 =? 0) && (negb (y mod 100 =? 0) || (y mod 400 =? 0))
  then 1 else 0.

Definition DaysInYear (y : Z) : Z := 365 + InLeapYear y.

(** The largest [y] with [DayFromYear y <= d]: an estimate from the mean
    length of a year, corrected by at most one. *)
Definition YearFromDay (d : Z) : Z :=
  let y0 := 1970 + (400 * d) / 146097 in
  if d <? DayFromYear y0 then y0 - 1
  else if DayFromYear (y0 + 1) <=? d then y0 + 1
  else y0.

(** Day of the year on which month [m] (0 for January) starts. *)
Definition monthStart (leap m : Z) : Z :=
  match m with
  | 0 => 0
  | 1 => 31
  | 2 => 59 + leap
  | 3 => 90 + leap
  | 4 => 120 + leap
  | 5 => 151 + leap
  | 6 => 181 + leap
  | 7 => 212 + leap
  | 8 => 243 + leap
  | 9 => 273 + leap
  | 10 => 304 + leap
  | 11 => 334 + leap
  | _ => 365 + leap
  end.

Definition MonthFromDay (leap diy : Z) : Z :=
  if diy <? 31 then 0
  else if diy <? 59 + leap then 1
  else if diy <? 90 + leap then 2
  else if diy <? 120 + leap then 3
  else if diy <? 151 + leap then 4
  else if diy <? 181 + leap then 5
  else if diy <? 212 + leap then 6
  else if diy <? 243 + leap then 7
  else if diy <? 273 + leap then 8
  else if diy <? 304 + leap then 9
  else if diy <? 334 + leap then 10
  else 11.

Definition YearFromTime (t : Z) : Z := YearFromDay (Day t).

Definition DayWithinYear (t : Z) : Z := Day t - DayFromYear (YearFromTime t).

Definition MonthFromTime (t : Z) : Z :=
  MonthFromDay (InLeapYear (YearFromTime t)) (DayWithinYear t).

Definition DateFromTime (t : Z) : Z :=
  DayWithinYear t
  - monthStart (InLeapYear (YearFromTime t)) (MonthFromTime t) + 1.

Definition HourFromTime (t : Z) : Z := TimeWithinDay t / 3600000.
Definition MinFromTime (t : Z) : Z := (TimeWithinDay t / 60000) mod 60.
Definition SecFromTime (t : Z) : Z := (TimeWithinDay t / 1000) mod 60.
Definition msFromTime (t : Z) : Z := TimeWithinDay t mod 1000.

(** Years 0 to 9999 are written with four digits, the others with a sign
    and six digits. *)
Definition yearString (y : Z) : string :=
  if (0 <=? y) && (y <=? 9999) then pad 4 y
  else if y <? 0 then String "-" (pad 6 (- y))
  else String "+" (pad 6 y).

(** [Date.prototype.toISOString] of a valid time value:
    YYYY-MM-DDTHH:mm:ss.sssZ. *)
Definition toISOString (t : Z) : string :=
  yearString (YearFromTime t) +:+ "-" +:+ pad 2 (MonthFromTime t + 1)
  +:+ "-" +:+ pad 2 (DateFromTime t)
  +:+ "T" +:+ pad 2 (HourFromTime t)
  +:+ ":" +:+ pad 2 (MinFromTime t)
  +:+ ":" +:+ pad 2 (SecFromTime t)
  +:+ "." +:+ pad 3 (msFromTime t) +:+ "Z".

Definition MakeDay (y m dt : Z) : Z :=
  DayFromYear y + monthStart (InLeapYear y) m + dt - 1.

Definition MakeTime (h mi s ms : Z) : Z :=
  h * 3600000 + mi * 60000 + s * 1000 + ms.

Definition MakeDate (day time : Z) : Z := day * msPerDay + time.

Definition TimeClip (t : Z) : option Z :=
  if (- maxTime <=? t) && (t <=? maxTime) then Some t else None.

Definition expect (c : ascii) (s : string) : option string :=
  match s with
  | String c' r => if (c =? c')%char then Some r else None
  | EmptyString => None
  end.

Definition readYear (s : string) : option (Z * string) :=
  match s with
  | String "+" r => readDigits 6 0 r
  | String "-" r =>
      match readDigits 6 0 r with
      | Some (y, r') => if y =? 0 then None else Some (- y, r')
      | None => None
      end
  | _ => readDigits 4 0 s
  end.

Definition daysInMonth (y m : Z) : Z :=
  monthStart (InLeapYear y) (m + 1) - monthStart (InLeapYear y) m.

(** The time value of a string in the complete date-time form with the
    UTC designator, which is the form [toISOString] writes.  [None] for
    every other string: the Date built from it is either invalid or left
    to the implementation. *)
Definition parse (s : string) : option Z :=
  '(y, s) ← readYear s;
  s ← expect "-" s;
  '(mo, s) ← readDigits 2 0 s;
  s ← expect "-" s;
  '(d, s) ← readDigits 2 0 s;
  s ← expect "T" s;
  '(h, s) ← readDigits 2 0 s;
  s ← expect ":" s;
  '(mi, s) ← readDigits 2 0 s;
  s ← expect ":" s;
  '(sec, s) ← readDigits 2 0 s;
  s ← expect "." s;
  '(ms, s) ← readDigits 3 0 s;
  s ← expect "Z" s;
  if negb (truthy s)
     && (1 <=? mo) && (mo <=? 12)
     && (1 <=? d) && (d <=? daysInMonth y (mo - 1))
     && (h <=? 23) && (mi <=? 59) && (sec <=? 59)
  then TimeClip (MakeDate (MakeDay y (mo - 1) d) (MakeTime h mi sec ms))
  else None.

End JsDate.

(** ** What running a piece of code can do *)

Inductive exn : Type := SyntaxError | TypeError.

(** [Unmodelled] marks the runs this development does not describe: a blob
    with an escape of a code unit above 255 or with a number that is not a
    safe integer written in digits, and a parsed value that does not have
    exactly the members of its TypeScript interface, in the order the pages
    write them. *)
Inductive outcome (A : Type) : Type :=
| Returns (a : A)
| Throws (e : exn)
| Unmodelled.

Arguments Returns {A} a.
Arguments Throws {A} e.
Arguments Unmodelled {A}.

Definition obind {A B} (m : outcome A) (k : A -> outcome B) : outcome B :=
  match m with
  | Returns a => k a
  | Throws e => Throws e
  | Unmodelled => Unmodelled
  end.

#[global] Instance outcome_ret : MRet outcome := fun _ a => Returns a.
#[global] Instance outcome_bind : MBind outcome := fun _ _ k m => obind m k.

(** ** JSON values, [JSON.stringify] and [JSON.parse] *)

Module JSON.
Import JsString.

Inductive json : Type :=
| JNull
| JBool (b : bool)
| JNumber (n : Z)
| JString (s : string)
| JArray (l : list json)
| JObject (l : list (string * json)).

Definition dquote : ascii := "034"%char.

(** The largest safe integer, 2^53 - 1. *)
Definition maxSafeInteger : Z := 9007199254740991.

(** *** Writing *)

Definition hexChar (d : Z) : ascii :=
  if d <? 10 then ofCode (48 + d) else ofCode (87 + d).

(** QuoteJSONString, one code unit. *)
Definition quoteChar (c : ascii) : string :=
  let n := code c in
  if n =? 8 then "\b"
  else if n =? 9 then "\t"
  else if n =? 10 then "\n"
  else if n =? 12 then "\f"
  else if n =? 13 then "\r"
  else if n =? 34 then String "\" (String dquote "")
  else if n =? 92 then "\\"
  else if n <? 32
       then "\u00" +:+ String (hexChar (n / 16)) (String (hexChar (n mod 16)) "")
  else String c "".

Fixpoint quoteChars (s : string) : string :=
  match s with
  | EmptyString => EmptyString
  | String c r => quoteChar c +:+ quoteChars r
  end.

Definition quote (s : string) : string :=
  String dquote (quoteChars s +:+ String dquote "").

Section Separated.
Context {A : Type} (f : A -> string) (close : string).

(** The items after the first one, each behind a comma, then [close]. *)
Fixpoint joinTail (l : list A) : string :=
  match l with
  | [] => close
  | x :: l' => "," +:+ f x +:+ joinTail l'
  end.

Definition joinAll (l : list A) : string :=
  match l with
  | [] => close
  | x :: l' => f x +:+ joinTail l'
  end.
End Separated.

Fixpoint stringify (v : json) : string :=
  match v with
  | JNull => "null"
  | JBool true => "true"
  | JBool false => "false"
  | JNumber n => numberToString n
  | JString s => quote s
  | JArray l => "[" +:+ joinAll stringify "]" l
  | JObject l =>
      "{" +:+ joinAll (fun kv => quote (fst kv) +:+ ":" +:+ stringify (snd kv)) "}" l
  end.

(** *** Reading *)

Inductive result (A : Type) : Type :=
| Ok (a : A) (rest : string)
| Syntax
| Beyond.

Arguments Ok {A} a rest.
Arguments Syntax {A}.
Arguments Beyond {A}.

Definition rmap {A B} (f : A -> B) (r : result A) : result B :=
  match r with
  | Ok a rest => Ok (f a) rest
  | Syntax => Syntax
  | Beyond => Beyond
  end.

Definition isWs (c : ascii) : bool :=
  let n := code c in (n =? 32) || (n =? 9) || (n =? 10) || (n =? 13).

Fixpoint skipWs (s : string) : string :=
  match s with
  | String c r => if isWs c then skipWs r else s
  | EmptyString => EmptyString
  end.

Definition hexVal (c : ascii) : option Z :=
  let n := code c in
  if (48 <=? n) && (n <=? 57) then Some (n - 48)
  else if (97 <=? n) && (n <=? 102) then Some (n - 87)
  else if (65 <=? n) && (n <=? 70) then Some (n - 55)
  else None.

Definition hex4 (a b c d : ascii) : option Z :=
  x ← hexVal a; y ← hexVal b; z ← hexVal c; w ← hexVal d;
  Some (((x * 16 + y) * 16 + z) * 16 + w).

(** The characters of a string literal, read after its opening quote. *)
Fixpoint parseChars (s : string) : result string :=
  match s with
  | EmptyString => Syntax
  | String c r =>
      if (c =? dquote)%char then Ok EmptyString r
      else if (c =? "\")%char then
        match r with
        | EmptyString => Syntax
        | String e r1 =>
            if (e =? "u")%char then
              match r1 with
              | String h1 (String h2 (String h3 (String h4 r2))) =>
                  match hex4 h1 h2 h3 h4 with
                  | Some n =>
                      if n <? 256 then rmap (String (ofCode n)) (parseChars r2)
                      else Beyond
                  | None => Syntax
                  end
              | _ => Syntax
              end
            else
              let unescaped :=
                if (e =? dquote)%char then Some dquote
                else if (e =? "\")%char then Some "\"%char
                else if (e =? "/")%char then Some "/"%char
                else if (e =? "b")%char then Some "008"%char
                else if (e =? "f")%char then Some "012"%char
                else if (e =? "n")%char then Some "010"%char
                else if (e =? "r")%char then Some "013"%char
                else if (e =? "t")%char then Some "009"%char
                else None in
              match unescaped with
              | Some u => rmap (String u) (parseChars r1)
              | None => Syntax
              end
        end
      else if code c <? 32 then Syntax
      else rmap (String c) (parseChars r)
  end.

Definition startsFraction (s : string) : bool :=
  match s with
  | String c _ => (c =? ".")%char || (c =? "e")%char || (c =? "E")%char
  | EmptyString => false
  end.

(** A number, read at its first character (a minus sign or a digit).  Only
    safe integers written without fraction and exponent are given a value. *)
Definition parseNumber (s : string) : result json :=
  let '(neg, s1) :=
    match s with
    | String c r => if (c =? "-")%char then (true, r) else (false, s)
    | EmptyString => (false, s)
    end in
  match s1 with
  | String c r =>
      if isDigit c then
        let '(n, rest) := if (c =? "0")%char then (0, r) else readNat 0 s1 in
        if startsFraction rest then Beyond
        else if neg && (n =? 0) then Beyond
        else if maxSafeInteger <? n then Beyond
        else Ok (JNumber (if neg then - n else n)) rest
      else Syntax
  | EmptyString => Syntax
  end.

Fixpoint dropPrefix (p s : string) : option string :=
  match p, s with
  | EmptyString, _ => Some s
  | String a p', String b s' => if (a =? b)%char then dropPrefix p' s' else None
  | String _ _, EmptyString => None
  end.

Definition parseLiteral (lit : string) (v : json) (s : string) : result json :=
  match dropPrefix lit s with
  | Some rest => Ok v rest
  | None => Syntax
  end.

Section Loops.
Variable parseElement : string -> result json.

(** The elements of a non-empty array up to its closing bracket. *)
Fixpoint parseElements (n : nat) (s : string) : result (list json) :=
  match n with
  | O => Beyond
  | S n' =>
      match parseElement s with
      | Ok v r =>
          match skipWs r with
          | String c r' =>
              if (c =? ",")%char then rmap (cons v) (parseElements n' r')
              else if (c =? "]")%char then Ok [v] r'
              else Syntax
          | EmptyString => Syntax
          end
      | Syntax => Syntax
      | Beyond => Beyond
      end
  end.

(** The members of a non-empty object up to its closing brace. *)
Fixpoint parseMembers (n : nat) (s : string) : result (list (string * json)) :=
  match n with
  | O => Beyond
  | S n' =>
      match skipWs s with
      | String q r =>
          if (q =? dquote)%char then
            match parseChars r with
            | Ok k r1 =>
                match skipWs r1 with
                | String c r2 =>
                    if (c =? ":")%char then
                      match parseElement r2 with
                      | Ok v r3 =>
                          match skipWs r3 with
                          | String d r4 =>
                              if (d =? ",")%char
                              then rmap (cons (k, v)) (parseMembers n' r4)
                              else if (d =? "}")%char then Ok [(k, v)] r4
                              else Syntax
                          | EmptyString => Syntax
                          end
                      | Syntax => Syntax
                      | Beyond => Beyond
                      end
                    else Syntax
                | EmptyString => Syntax
                end
            | Syntax => Syntax
            | Beyond => Beyond
            end
          else Syntax
      | EmptyString => Syntax
      end
  end.
End Loops.

Definition startsWith (c : ascii) (s : string) : option string :=
  match s with
  | String c' r => if (c =? c')%char then Some r else None
  | EmptyString => None
  end.

(** One JSON value, with leading white space.  The fuel bounds the nesting
    depth and the number of items of an array or object; the length of the
    text is always enough, and running out of it is reported as [Beyond]. *)
Fixpoint parseValue (fuel : nat) (s : string) : result json :=
  match fuel with
  | O => Beyond
  | S f =>
      match skipWs s with
      | EmptyString => Syntax
      | String c r as s' =>
          if (c =? "{")%char then
            match startsWith "}" (skipWs r) with
            | Some r' => Ok (JObject []) r'
            | None => rmap JObject (parseMembers (parseValue f) f r)
            end
          else if (c =? "[")%char then
            match startsWith "]" (skipWs r) with
            | Some r' => Ok (JArray []) r'
            | None => rmap JArray (parseElements (parseValue f) f r)
            end
          else if (c =? dquote)%char then rmap JString (parseChars r)
          else if (c =? "-")%char || isDigit c then parseNumber s'
          else if (c =? "t")%char then parseLiteral "true" (JBool true) s'
          else if (c =? "f")%char then parseLiteral "false" (JBool false) s'
          else if (c =? "n")%char then parseLiteral "null" JNull s'
          else Syntax
      end
  end.

(** [JSON.parse]: one value, then nothing but white space. *)
Definition parse (s : string) : outcome json :=
  match parseValue (S (String.length s)) s with
  | Ok v rest => if truthy (skipWs rest) then Throws SyntaxError else Returns v
  | Syntax => Throws SyntaxError
  | Beyond => Unmodelled
  end.

(** *** Measures used to state what [parse] reads back *)

(** All numbers of the value are safe integers. *)
Fixpoint safe (v : json) : bool :=
  match v with
  | JNumber n => (- maxSafeInteger <=? n) && (n <=? maxSafeInteger)
  | JArray l => forallb safe l
  | JObject l => forallb (fun kv => safe (snd kv)) l
  | _ => true
  end.

(** The fuel [parseValue] needs for the text of the value: more than its
    nesting depth and than the number of items of each array and object. *)
Fixpoint need (v : json) : nat :=
  match v with
  | JArray l => S (fold_right (fun x acc => Nat.max (need x) (S acc)) O l)
  | JObject l =>
      S (fold_right (fun kv acc => Nat.max (need (snd kv)) (S acc)) O l)
  | _ => 1%nat
  end.

(** A text that can follow a number: it does not go on with a digit, a
    fraction or an exponent. *)
Definition stops (rest : string) : bool :=
  match rest with
  | EmptyString => true
  | String c _ => negb (isDigit c) && negb (startsFraction rest)
  end.

(** The characters a written value can start with. *)
Definition startChar (c : ascii) : bool :=
  (c =? "{")%char || (c =? "[")%char || (c =? dquote)%char
  || (c =? "-")%char || isDigit c
  || (c =? "t")%char || (c =? "f")%char || (c =? "n")%char.

Definition needs (l : list json) : nat :=
  fold_right (fun x acc => Nat.max (need x) (S acc)) O l.

Definition needsMembers (l : list (string * json)) : nat :=
  fold_right (fun kv acc => Nat.max (need (snd kv)) (S acc)) O l.

(** One member of a written object. *)
Definition member (kv : string * json) : string :=
  quote (fst kv) +:+ ":" +:+ stringify (snd kv).

(** [parseValue] with fuel [f] reads the text of [v] back, whatever
    follows it. *)
Definition reads (f : nat) (v : json) : Prop :=
  forall rest, stops rest = true ->
               parseValue f (stringify v +:+ rest) = Ok v rest.

(** Property access [o.k] on a parsed object: the last member named [k]. *)
Fixpoint getField (k : string) (l : list (string * json)) : option json :=
  match l with
  | [] => None
  | (k', v) :: l' =>
      match getField k l' with
      | Some w => Some w
      | None => if (k =? k')%string then Some v else None
      end
  end.

End JSON.

(** ** The data of the chat page *)

Module Message.
Record t : Type := make {
  id : string;
  content : string;
  isBot : bool;
  timestamp : Z
}.
End Message.

Module ChatHistory.
Record t : Type := make {
  id : string;
  title : string;
  messages : list Message.t;
  createdAt : Z
}.
End ChatHistory.

Record UserData : Type := mkUserData {
  username : string;
  role : string;
  questionsToday : Z
}.

(** ** The persisted blobs *)

Module Blob.
Import JsString JSON.

Fixpoint traverse {A B} (f : A -> outcome B) (l : list A) : outcome (list B) :=
  match l with
  | [] => Returns []
  | x :: l' => y ← f x; ys ← traverse f l'; Returns (y :: ys)
  end.

(** *** What [JSON.stringify] is applied to *)

(** A Date is written by [toJSON], which is [toISOString]. *)
Definition ofDate (t : Z) : json := JString (JsDate.toISOString t).

Definition ofUser (u : UserData) : json :=
  JObject [("username", JString (username u));
           ("role", JString (role u));
           ("questionsToday", JNumber (questionsToday u))].

Definition ofMessage (m : Message.t) : json :=
  JObject [("id", JString (Message.id m));
           ("content", JString (Message.content m));
           ("isBot", JBool (Message.isBot m));
           ("timestamp", ofDate (Message.timestamp m))].

Definition ofChat (c : ChatHistory.t) : json :=
  JObject [("id", JString (ChatHistory.id c));
           ("title", JString (ChatHistory.title c));
           ("messages", JArray (map ofMessage (ChatHistory.messages c)));
           ("createdAt", ofDate (ChatHistory.createdAt c))].

Definition ofHistory (h : list ChatHistory.t) : json := JArray (map ofChat h).

(** The Dates of a message, of a transcript and of a list of transcripts
    are valid Dates. *)
Definition validMessage (m : Message.t) : Prop :=
  JsDate.validTime (Message.timestamp m).

Definition validChat (c : ChatHistory.t) : Prop :=
  JsDate.validTime (ChatHistory.createdAt c)
  /\ Forall validMessage (ChatHistory.messages c).

Definition validHistory (h : list ChatHistory.t) : Prop := Forall validChat h.

(** The count of the session is a safe integer. *)
Definition validUser (u : UserData) : Prop :=
  - maxSafeInteger <= questionsToday u <= maxSafeInteger.

(** *** What [JSON.parse] returned, read at its TypeScript interface *)

Definition asString (o : option json) : outcome string :=
  match o with Some (JString s) => Returns s | _ => Unmodelled end.

Definition asBool (o : option json) : outcome bool :=
  match o with Some (JBool b) => Returns b | _ => Unmodelled end.

Definition asNumber (o : option json) : outcome Z :=
  match o with Some (JNumber n) => Returns n | _ => Unmodelled end.

(** [new Date(x)] for a string [x] in the date-time format. *)
Definition newDate (o : option json) : outcome Z :=
  match o with
  | Some (JString s) =>
      match JsDate.parse s with Some t => Returns t | None => Unmodelled end
  | _ => Unmodelled
  end.

(** The names of the members of a parsed object, in the order they have. *)
Definition hasKeys (ks : list string) (fs : list (string * json)) : bool :=
  bool_decide (map fst fs = ks).

(** [parsedUser] of the load effect.  Reading [username] of [null] throws.
    The spread [{...user, questionsToday: ...}] of [handleSendMessage] keeps
    every member of the parsed object and their order, which the record
    [UserData] does not hold: only the object with the three members
    [username], [role] and [questionsToday] in this order, as [handleLogin]
    writes it, is described. *)
Definition toUser (j : json) : outcome UserData :=
  match j with
  | JObject fs =>
      n ← asString (getField "username" fs);
      r ← asString (getField "role" fs);
      q ← asNumber (getField "questionsToday" fs);
      if hasKeys ["username"; "role"; "questionsToday"] fs
      then Returns (mkUserData n r q)
      else Unmodelled
  | JNull => Throws TypeError
  | _ => Unmodelled
  end.

(** [{...msg, timestamp: new Date(msg.timestamp)}]; the spread keeps every
    member of [msg] and their order, so only the object with the four
    members of a [Message] in the order the page writes them is described. *)
Definition toMessage (msg : json) : outcome Message.t :=
  match msg with
  | JObject fs =>
      i ← asString (getField "id" fs);
      c ← asString (getField "content" fs);
      b ← asBool (getField "isBot" fs);
      t ← newDate (getField "timestamp" fs);
      if hasKeys ["id"; "content"; "isBot"; "timestamp"] fs
      then Returns (Message.make i c b t)
      else Unmodelled
  | JNull => Throws TypeError
  | _ => Unmodelled
  end.

(** [{...chat, createdAt: new Date(chat.createdAt),
      messages: chat.messages.map(...)}]; [chat.messages.map] throws when
    [chat.messages] is not an array.  As for a message, only the object
    with the four members of a [ChatHistory] in the order the page writes
    them is described. *)
Definition toChat (chat : json) : outcome ChatHistory.t :=
  match chat with
  | JObject fs =>
      match getField "messages" fs with
      | Some (JArray ms) =>
          i ← asString (getField "id" fs);
          ti ← asString (getField "title" fs);
          d ← newDate (getField "createdAt" fs);
          l ← traverse toMessage ms;
          if hasKeys ["id"; "title"; "messages"; "createdAt"] fs
          then Returns (ChatHistory.make i ti l d)
          else Unmodelled
      | _ => Throws TypeError
      end
  | _ => Throws TypeError
  end.

(** [parsedHistory.map(...)]; it throws when [parsedHistory] is not an
    array. *)
Definition toHistory (parsedHistory : json) : outcome (list ChatHistory.t) :=
  match parsedHistory with
  | JArray cs => traverse toChat cs
  | _ => Throws TypeError
  end.

End Blob.

(** ** The cookie of [authService] *)

(** js-cookie is not among the sources.  The cookie jar is taken as a
    finite map from the names of the cookies to their values: [Cookies.set]
    puts the value under the name, [Cookies.get] looks the name up and
    [Cookies.remove] takes it away.  The expiry after 7 days and the limits
    of a cookie's size are not described. *)

Module authService.
Import JsString.

Definition TOKEN_KEY : string := "auth_token".

Definition setToken (token : string) (cookies : gmap string string)
  : gmap string string := <[TOKEN_KEY := token]> cookies.

Definition getToken (cookies : gmap string string) : option string :=
  cookies !! TOKEN_KEY.

Definition removeToken (cookies : gmap string string) : gmap string string :=
  delete TOKEN_KEY cookies.

(** [!!Cookies.get(TOKEN_KEY)] *)
Definition isAuthenticated (cookies : gmap string string) : bool :=
  match getToken cookies with
  | Some v => truthy v
  | None => false
  end.

End authService.

(** ** The browser around the pages *)

Record Browser : Type := mkBrowser {
  localStorage : gmap string string;
  cookies : gmap string string;
  location : string;
  toasts : list string
}.

Definition setItem (k v : string) (b : Browser) : Browser :=
  mkBrowser (<[k := v]> (localStorage b)) (cookies b) (location b) (toasts b).

Definition removeItem (k : string) (b : Browser) : Browser :=
  mkBrowser (delete k (localStorage b)) (cookies b) (location b) (toasts b).

Definition navigate (to : string) (b : Browser) : Browser :=
  mkBrowser (localStorage b) (cookies b) to (toasts b).

Definition toast (title : string) (b : Browser) : Browser :=
  mkBrowser (localStorage b) (cookies b) (location b) (toasts b ++ [title]).

(** ** The login page *)

Module Login.
Import JsString JSON.

(** The body of the timer of [handleLogin]. *)
Definition handleLogin (username password : string) (b : Browser) : Browser :=
  if truthy username && truthy password then
    let userData := mkUserData username (toLowerCase username) 0 in
    navigate "/chat"
      (toast "Login successful!"
         (setItem "user" (stringify (Blob.ofUser userData)) b))
  else toast "Login failed" b.

(** The spellings of "admin" in upper-case and lower-case letters: the
    usernames that are equal to "admin" when the case of the letters is
    ignored. *)
Definition oneOf (c lower upper : ascii) : bool :=
  (c =? lower)%char || (c =? upper)%char.

Definition adminSpelling (s : string) : bool :=
  match s with
  | String c1 (String c2 (String c3 (String c4 (String c5 EmptyString)))) =>
      oneOf c1 "a" "A" && oneOf c2 "d" "D" && oneOf c3 "m" "M"
      && oneOf c4 "i" "I" && oneOf c5 "n" "N"
  | _ => false
  end.

End Login.

(** ** The chat page *)

Module Chat.
Import JsString JSON.

(** The state variables of the component. *)
Record State : Type := mkState {
  user : option UserData;
  currentMessage : string;
  chatHistory : list ChatHistory.t;
  activeChat : option string;
  currentMessages : list Message.t;
  isLoading : bool;
  sidebarOpen : bool
}.

Definition initialState : State :=
  mkState None "" [] None [] false true.

Definition setUser (u : option UserData) (s : State) : State :=
  mkState u (currentMessage s) (chatHistory s) (activeChat s)
          (currentMessages s) (isLoading s) (sidebarOpen s).

Definition setCurrentMessage (m : string) (s : State) : State :=
  mkState (user s) m (chatHistory s) (activeChat s)
          (currentMessages s) (isLoading s) (sidebarOpen s).

Definition setChatHistory (h : list ChatHistory.t) (s : State) : State :=
  mkState (user s) (currentMessage s) h (activeChat s)
          (currentMessages s) (isLoading s) (sidebarOpen s).

Definition setActiveChat (a : option string) (s : State) : State :=
  mkState (user s) (currentMessage s) (chatHistory s) a
          (currentMessages s) (isLoading s) (sidebarOpen s).

Definition setCurrentMessages (l : list Message.t) (s : State) : State :=
  mkState (user s) (currentMessage s) (chatHistory s) (activeChat s)
          l (isLoading s) (sidebarOpen s).

Definition setIsLoading (b : bool) (s : State) : State :=
  mkState (user s) (currentMessage s) (chatHistory s) (activeChat s)
          (currentMessages s) b (sidebarOpen s).

Definition setSidebarOpen (b : bool) (s : State) : State :=
  mkState (user s) (currentMessage s) (chatHistory s) (activeChat s)
          (currentMessages s) (isLoading s) b.

(** What the callback given to [setTimeout] in [handleSendMessage] closes
    over: the variables of the render in which the message was sent. *)
Record Pending : Type := mkPending {
  p_user : UserData;
  p_userMessage : Message.t;
  p_updatedMessages : list Message.t;
  p_activeChat : option string;
  p_chatHistory : list ChatHistory.t
}.

(** The mounted page: its state, the browser, and the timers this mount
    has set and that have not fired yet, oldest first. *)
Record World : Type := mkWorld {
  state : State;
  browser : Browser;
  timers : list Pending
}.

Definition onState (f : State -> State) (w : World) : World :=
  mkWorld (f (state w)) (browser w) (timers w).

Definition onBrowser (f : Browser -> Browser) (w : World) : World :=
  mkWorld (state w) (f (browser w)) (timers w).

Definition setTimeout (p : Pending) (w : World) : World :=
  mkWorld (state w) (browser w) (timers w ++ [p]).

Definition historyKey (u : UserData) : string := "chatHistory_" +:+ username u.

(** *** The load effect *)

Definition getItem (k : string) (b : Browser) : option string :=
  localStorage b !! k.

(** [if (x)] on the result of [getItem]: [null] and the empty string are
    the falsy ones. *)
Definition present (x : option string) : bool :=
  match x with
  | Some v => truthy v
  | None => false
  end.

(** The effect run when the page is mounted. *)
Definition loadEffect (b : Browser) : outcome World :=
  let userData := getItem "user" b in
  if negb (present userData)
  then Returns (mkWorld initialState (navigate "/" b) [])
  else
    parsed ← JSON.parse (default "" userData);
    parsedUser ← Blob.toUser parsed;
    let s := setUser (Some parsedUser) initialState in
    let savedHistory := getItem (historyKey parsedUser) b in
    if present savedHistory then
      parsedHistory ← JSON.parse (default "" savedHistory);
      historyWithDates ← Blob.toHistory parsedHistory;
      Returns (mkWorld (setChatHistory historyWithDates s) b [])
    else Returns (mkWorld s b []).

(** *** The quota *)

Definition canAskQuestion (user : option UserData) : bool :=
  match user with
  | None => false
  | Some u => if (role u =? "admin")%string then true else questionsToday u <? 10
  end.

Definition getQuestionLimit (user : option UserData) : string :=
  match user with
  | None => ""
  | Some u =>
      if (role u =? "admin")%string then "Unlimited"
      else numberToString (questionsToday u) +:+ "/10 today"
  end.

(** *** Sending a message *)

(** [r] is [Math.random().toString(36).substr(2, 9)]. *)
Definition generateChatId (now : Z) (r : string) : string :=
  "chat-" +:+ numberToString now +:+ "-" +:+ r.

(** [i] is [Math.floor(Math.random() * responses.length)], below 5. *)
Definition generateBotResponse (i : nat) (userMessage : string) : string :=
  nth i
    ["I understand your question about: " +:+ slice 0 30 userMessage
       +:+ "... Let me help you with that.";
     "That's an interesting point! Here's what I think about "
       +:+ slice 0 20 userMessage +:+ "...";
     "Based on your question, I can provide some insights on this topic.";
     "Thank you for asking! This is a great question that requires careful consideration.";
     "I can help you with that. Let me break down the information for you."]
    "".

Definition chatTitle (content : string) : string :=
  slice 0 30 content
  +:+ (if (30 <? String.length content)%nat then "..." else "").

(** The readings of the clock in [handleSendMessage]. *)
Record SendClock : Type := mkSendClock {
  sendNow : Z;    (* Date.now() of the message id *)
  sendDate : Z    (* new Date() of the timestamp *)
}.

(** The readings of the clock and of [Math.random] in the timer callback. *)
Record ReplyEnv : Type := mkReplyEnv {
  replyNow : Z;       (* Date.now() of the bot message id *)
  replyPick : nat;    (* index of the canned response *)
  replyDate : Z;      (* new Date() of the bot message *)
  chatNow : Z;        (* Date.now() of generateChatId *)
  chatRandom : string;(* random suffix of generateChatId *)
  chatDate : Z        (* new Date() of createdAt *)
}.

(** The callback of [setTimeout], run 1500 ms after the send. *)
Definition botReply (p : Pending) (env : ReplyEnv) (w : World) : World :=
  let botMessage :=
    Message.make (numberToString (JsNumber.add (replyNow env) 1))
      (generateBotResponse (replyPick env) (Message.content (p_userMessage p)))
      true (replyDate env) in
  let updatedMessages := p_updatedMessages p ++ [botMessage] in
  let w := onState (setCurrentMessages updatedMessages) w in
  let chatTitle := chatTitle (Message.content (p_userMessage p)) in
  let w :=
    if match p_activeChat p with Some a => truthy a | None => false end then
      let updatedHistory :=
        map (fun chat =>
               if bool_decide (Some (ChatHistory.id chat) = p_activeChat p)
               then ChatHistory.make (ChatHistory.id chat) chatTitle
                      updatedMessages (ChatHistory.createdAt chat)
               else chat)
            (p_chatHistory p) in
      onBrowser
        (setItem (historyKey (p_user p))
                 (stringify (Blob.ofHistory updatedHistory)))
        (onState (setChatHistory updatedHistory) w)
    else
      let newChat :=
        ChatHistory.make (generateChatId (chatNow env) (chatRandom env))
          chatTitle updatedMessages (chatDate env) in
      let updatedHistory := newChat :: p_chatHistory p in
      onBrowser
        (setItem (historyKey (p_user p))
                 (stringify (Blob.ofHistory updatedHistory)))
        (onState (setActiveChat (Some (ChatHistory.id newChat)))
           (onState (setChatHistory updatedHistory) w)) in
  onState (setIsLoading false) w.

Definition handleSendMessage (clk : SendClock) (w : World) : World :=
  let s := state w in
  if negb (truthy (trim (currentMessage s)))
     || negb (bool_decide (is_Some (user s)))
     || negb (canAskQuestion (user s))
  then w
  else if negb (canAskQuestion (user s))
  then onBrowser (toast "Question limit reached") w
  else
    match user s with
    | None => w
    | Some user =>
        let w := onState (setIsLoading true) w in
        let userMessage :=
          Message.make (numberToString (sendNow clk)) (currentMessage s)
                       false (sendDate clk) in
        let updatedMessages := currentMessages s ++ [userMessage] in
        let w := onState (setCurrentMessages updatedMessages) w in
        let w := onState (setCurrentMessage "") w in
        let updatedUser :=
          mkUserData (username user) (role user)
                     (JsNumber.add (questionsToday user) 1) in
        let w := onState (setUser (Some updatedUser)) w in
        let w :=
          onBrowser (setItem "user" (stringify (Blob.ofUser updatedUser))) w in
        setTimeout
          (mkPending user userMessage updatedMessages
                     (activeChat s) (chatHistory s))
          w
    end.

Definition startNewChat (w : World) : World :=
  onState (setCurrentMessages []) (onState (setActiveChat None) w).

Definition loadChat (chatId : string) (w : World) : World :=
  match find (fun c => bool_decide (ChatHistory.id c = chatId))
             (chatHistory (state w)) with
  | Some chat =>
      onState (setCurrentMessages (ChatHistory.messages chat))
        (onState (setActiveChat (Some chatId)) w)
  | None => w
  end.

Definition handleLogout (w : World) : World :=
  onBrowser (navigate "/") (onBrowser (removeItem "user") w).

(** *** Running the page *)

(** Fires the oldest timer, if there is one. *)
Definition fireTimer (env : ReplyEnv) (w : World) : World :=
  match timers w with
  | [] => w
  | p :: rest => botReply p env (mkWorld (state w) (browser w) rest)
  end.

(** One turn of the conversation: the text is typed, sent, and the reply
    arrives. *)
Definition turn (body : string) (clk : SendClock) (env : ReplyEnv) (w : World)
  : World :=
  fireTimer env (handleSendMessage clk (onState (setCurrentMessage body) w)).

Fixpoint turns (l : list (string * SendClock * ReplyEnv)) (w : World) : World :=
  match l with
  | [] => w
  | (body, clk, env) :: l' => turns l' (turn body clk env w)
  end.

Definition bodyOf (x : string * SendClock * ReplyEnv) : string := fst (fst x).

(** *** Names for what a send and its reply build *)

(** The [userMessage] of a send. *)
Definition sentMessage (clk : SendClock) (w : World) : Message.t :=
  Message.make (numberToString (sendNow clk)) (currentMessage (state w))
               false (sendDate clk).

(** The [updatedUser] of a send. *)
Definition bumped (u : UserData) : UserData :=
  mkUserData (username u) (role u) (JsNumber.add (questionsToday u) 1).

(** The [botMessage] of a reply to [body]. *)
Definition replyMessage (env : ReplyEnv) (body : string) : Message.t :=
  Message.make (numberToString (JsNumber.add (replyNow env) 1))
               (generateBotResponse (replyPick env) body) true (replyDate env).

(** [if (activeChat)] *)
Definition isActive (a : option string) : bool :=
  match a with Some a => truthy a | None => false end.

(** The [updatedMessages] of the timer callback. *)
Definition repliedMessages (p : Pending) (env : ReplyEnv) : list Message.t :=
  p_updatedMessages p
    ++ [replyMessage env (Message.content (p_userMessage p))].

(** The [newChat] of the timer callback. *)
Definition newChat (p : Pending) (env : ReplyEnv) : ChatHistory.t :=
  ChatHistory.make (generateChatId (chatNow env) (chatRandom env))
    (chatTitle (Message.content (p_userMessage p)))
    (repliedMessages p env) (chatDate env).

(** What the timer callback maps over the transcripts when a transcript
    is active. *)
Definition rewritten (p : Pending) (env : ReplyEnv) (chat : ChatHistory.t)
  : ChatHistory.t :=
  if bool_decide (Some (ChatHistory.id chat) = p_activeChat p)
  then ChatHistory.make (ChatHistory.id chat)
         (chatTitle (Message.content (p_userMessage p)))
         (repliedMessages p env) (ChatHistory.createdAt chat)
  else chat.

(** The [Pending] of an accepted send. *)
Definition pendingOf (clk : SendClock) (w : World) (u : UserData) : Pending :=
  mkPending u (sentMessage clk w)
    (currentMessages (state w) ++ [sentMessage clk w])
    (activeChat (state w)) (chatHistory (state w)).

(** What holds of the timers of the mounted page: none while the page is
    idle, and while it is loading one, which has captured the list of
    transcripts the page still shows. *)
Definition timerInv (w : World) : Prop :=
  match timers w with
  | [] => isLoading (state w) = false
  | [p] =>
      isLoading (state w) = true
      /\ p_chatHistory p = chatHistory (state w)
      /\ Message.isBot (p_userMessage p) = false
      /\ exists pre, p_updatedMessages p = pre ++ [p_userMessage p]
  | _ => False
  end.

(** A list of messages made of turns: a user message, then a bot message. *)
Fixpoint paired (l : list Message.t) : bool :=
  match l with
  | [] => true
  | u :: l1 =>
      match l1 with
      | b :: l2 => negb (Message.isBot u) && Message.isBot b && paired l2
      | [] => false
      end
  end.

Definition pairedHistory (h : list ChatHistory.t) : Prop :=
  Forall (fun c => paired (ChatHistory.messages c) = true) h.

Definition pairedPending (p : Pending) : Prop :=
  pairedHistory (p_chatHistory p)
  /\ Message.isBot (p_userMessage p) = false
  /\ exists pre, paired pre = true
                 /\ p_updatedMessages p = pre ++ [p_userMessage p].

(** All the transcripts are made of turns, and so is the buffer of the idle
    page. *)
Definition pairedWorld (w : World) : Prop :=
  pairedHistory (chatHistory (state w))
  /\ (isLoading (state w) = false -> paired (currentMessages (state w)) = true)
  /\ Forall pairedPending (timers w).

(** The bodies of the user messages of a buffer, in order. *)
Definition userContents (l : list Message.t) : list string :=
  map Message.content (List.filter (fun m => negb (Message.isBot m)) l).

(** [new Date()] is a valid Date. *)
Definition validClock (clk : SendClock) : Prop := JsDate.validTime (sendDate clk).

Definition validEnv (env : ReplyEnv) : Prop :=
  JsDate.validTime (replyDate env) /\ JsDate.validTime (chatDate env).

(** All the Dates the page holds are valid. *)
Definition validPending (p : Pending) : Prop :=
  Blob.validMessage (p_userMessage p)
  /\ Forall Blob.validMessage (p_updatedMessages p)
  /\ Blob.validHistory (p_chatHistory p).

Definition validWorld (w : World) : Prop :=
  Blob.validHistory (chatHistory (state w))
  /\ Forall Blob.validMessage (currentMessages (state w))
  /\ Forall validPending (timers w).

(** The events of the mounted page.  The input and the send button are
    disabled while [isLoading] holds, and the input also when the quota is
    used up; the sidebar is never disabled. *)
Inductive step : World -> World -> Prop :=
| step_type m w :
    canAskQuestion (user (state w)) = true ->
    isLoading (state w) = false ->
    step w (onState (setCurrentMessage m) w)
| step_send clk w :
    isLoading (state w) = false ->
    validClock clk ->
    step w (handleSendMessage clk w)
| step_reply env w p rest :
    timers w = p :: rest ->
    (replyPick env < 5)%nat ->
    validEnv env ->
    step w (fireTimer env w)
| step_new w :
    step w (startNewChat w)
| step_load chatId w :
    In chatId (map ChatHistory.id (chatHistory (state w))) ->
    step w (loadChat chatId w)
| step_sidebar b w :
    step w (onState (setSidebarOpen b) w).

(** The worlds the page can be in after it was mounted on [b], as far as
    its own events go: the timers of [World] are those of this mount.  A
    reply of an earlier mount that is still to come ([setTimeout] is never
    cleared) is not among them; [Site.visits] adds those. *)
Inductive reachable (b : Browser) : World -> Prop :=
| reach_mount w :
    loadEffect b = Returns w ->
    is_Some (user (state w)) ->
    reachable b w
| reach_step w w' :
    reachable b w -> step w w' -> reachable b w'.

End Chat.

(** ** Sample runs *)

Module Samples.
Import JsString JSON Chat.

Definition emptyBrowser : Browser := mkBrowser ∅ ∅ "/" [].

(** The page as mounted right after a login under [name]. *)
Definition afterLogin (name : string) : World :=
  match loadEffect (Login.handleLogin name "secret" emptyBrowser) with
  | Returns w => w
  | _ => mkWorld initialState emptyBrowser []
  end.

Definition clock (n : Z) : SendClock :=
  mkSendClock (1700000000000 + 2000 * n) (1700000000000 + 2000 * n).

Definition reply (n : Z) : ReplyEnv :=
  mkReplyEnv (1700000001500 + 2000 * n) 2 (1700000001500 + 2000 * n)
             (1700000001500 + 2000 * n) "k3j9x0q1z" (1700000001500 + 2000 * n).

Definition say (n : Z) (body : string) : string * SendClock * ReplyEnv :=
  (body, clock n, reply n).

Definition elevenTurns : list (string * SendClock * ReplyEnv) :=
  [say 1 "one"; say 2 "two"; say 3 "three"; say 4 "four"; say 5 "five";
   say 6 "six"; say 7 "seven"; say 8 "eight"; say 9 "nine"; say 10 "ten";
   say 11 "eleven"].

Definition fifteenTurns : list (string * SendClock * ReplyEnv) :=
  elevenTurns ++ [say 12 "twelve"; say 13 "thirteen"; say 14 "fourteen";
                  say 15 "fifteen"].

(** Two transcripts, newest first; the bodies have a quote, a backslash,
    a line feed and a control character in them. *)
Definition sampleHistory : list ChatHistory.t :=
  [ChatHistory.make "chat-1700000003500-k3j9x0q1z" "second"
     [Message.make "1700000002000" "second" false 1700000002000;
      Message.make "1700000003501"
        "Thank you for asking! This is a great question that requires careful consideration."
        true 1700000003500]
     1700000003500;
   ChatHistory.make "chat-1700000001500-a1b2c3d4e"
     ("say " +:+ String dquote ("hi" +:+ String dquote " \ and"))
     [Message.make "1700000000000"
        ("say " +:+ String dquote ("hi" +:+ String dquote
           (" \ and" +:+ String "010" ("more" +:+ String "001" ""))))
        false 1700000000000;
      Message.make "1700000001501"
        "I can help you with that. Let me break down the information for you."
        true (-1)]
     1700000001500].

Definition thirty : string := "abcdefghijklmnopqrstuvwxyz0123".

Definition thirtyOne : string := "abcdefghijklmnopqrstuvwxyz01234".

End Samples.

(** ** The routes of the application *)

Module App.
Import JsString Chat.

(** What a route element does when it is rendered. *)
Inductive element (A : Type) : Type :=
| Renders (a : A)
| Navigate (to : string).

Arguments Renders {A} a.
Arguments Navigate {A} to.

Definition ProtectedRoute {A : Type} (children : A)
           (cookies : gmap string string) : element A :=
  if negb (authService.isAuthenticated cookies) then Navigate "/login"
  else Renders children.

Inductive page : Type := LoginPage | SignupPage | ChatPage.

(** The routes of [App], for the paths the pages navigate to.  The element
    of the route "/" is built when [App] is rendered, which happens once:
    [rootAuth] is what [authService.isAuthenticated()] answered then.
    [ProtectedRoute] is a component and reads the cookie each time it is
    rendered.  [None] stands for every other path. *)
Definition routes (rootAuth : bool) (cookies : gmap string string)
           (path : string) : option (element page) :=
  if (path =? "/")%string
  then Some (Navigate (if rootAuth then "/chat" else "/login"))
  else if (path =? "/login")%string then Some (Renders LoginPage)
  else if (path =? "/signup")%string then Some (Renders SignupPage)
  else if (path =? "/chat")%string then Some (ProtectedRoute ChatPage cookies)
  else None.

(** Where the navigation comes to rest. *)
Inductive view : Type :=
| LoginView
| SignupView
| ChatView (w : World)
| Crashed (e : exn)
| Undescribed.

(** Follows the navigations from the location of [b]: a [Navigate] element
    navigates, the chat page runs its load effect when it is mounted and
    navigates itself when there is no session.  [None] when [fuel]
    navigations were not enough to come to rest. *)
Fixpoint settle (fuel : nat) (rootAuth : bool) (b : Browser) : option view :=
  match fuel with
  | O => None
  | S f =>
      match routes rootAuth (cookies b) (location b) with
      | Some (Navigate to) => settle f rootAuth (navigate to b)
      | Some (Renders LoginPage) => Some LoginView
      | Some (Renders SignupPage) => Some SignupView
      | Some (Renders ChatPage) =>
          match loadEffect b with
          | Returns w =>
              match user (state w) with
              | Some _ => Some (ChatView w)
              | None => settle f rootAuth (browser w)
              end
          | Throws e => Some (Crashed e)
          | Unmodelled => Some Undescribed
          end
      | None => Some Undescribed
      end
  end.

End App.

(** ** The signup page *)

Module Signup.
Import JsString JSON.

(** What [fetch] came back with: it rejected, or it resolved to a response
    with its [ok] flag and the text of its body. *)
Inductive fetched : Type :=
| Rejected
| Response (ok : bool) (body : string).

(** [authService.setToken] on the cookie jar of the browser. *)
Definition setToken (token : string) (b : Browser) : Browser :=
  mkBrowser (localStorage b) (authService.setToken token (cookies b))
            (location b) (toasts b).

(** ToBoolean of a parsed value, and of a member that may be missing. *)
Definition truthyJson (v : json) : bool :=
  match v with
  | JNull => false
  | JBool b => b
  | JNumber n => negb (n =? 0)
  | JString s => truthy s
  | JArray _ | JObject _ => true
  end.

Definition truthyMember (o : option json) : bool :=
  match o with Some v => truthyJson v | None => false end.

(** The value [Cookies.set] gives the cookie for a token.  js-cookie is
    not among the sources: a string is stored as it is, and a number and a
    boolean through [String(value)]; how an array or an object is written
    differs between the versions of js-cookie and is not described. *)
Definition tokenText (v : json) : option string :=
  match v with
  | JString s => Some s
  | JNumber n => Some (numberToString n)
  | JBool true => Some "true"
  | JBool false => Some "false"
  | JNull | JArray _ | JObject _ => None
  end.

(** [handleSignup] with the selected [role].  The email and the password
    only go into the request.  Every exception of the [try] block ends in
    the "Error" toast: a rejected [fetch], a body that is not JSON, and the
    property access on [null].  Any truthy [data.token] is given to
    [setToken]. *)
Definition handleSignup (role : string) (r : fetched) (b : Browser)
  : outcome Browser :=
  if negb (truthy role) then Returns (toast "Role required" b)
  else
    match r with
    | Rejected => Returns (toast "Error" b)
    | Response ok body =>
        match JSON.parse body with
        | Throws _ => Returns (toast "Error" b)
        | Unmodelled => Unmodelled
        | Returns JNull => Returns (toast "Error" b)
        | Returns (JObject fs) =>
            if ok && truthyMember (getField "token" fs) then
              match getField "token" fs ≫= tokenText with
              | Some token =>
                  Returns (navigate "/chat"
                             (toast "Signup successful!" (setToken token b)))
              | None => Unmodelled
              end
            else Returns (toast "Signup failed" b)
        | Returns _ => Returns (toast "Signup failed" b)
        end
    end.

End Signup.

(** ** What the chat page renders *)

Module ChatView.
Import JsString JSON Chat.

(** [disabled] of the input. *)
Definition inputDisabled (s : State) : bool :=
  negb (canAskQuestion (user s)) || isLoading s.

(** [disabled] of the send button. *)
Definition sendDisabled (s : State) : bool :=
  negb (truthy (trim (currentMessage s)))
  || negb (canAskQuestion (user s))
  || isLoading s.

Definition placeholder (s : State) : string :=
  if canAskQuestion (user s) then "Message ChatBot AI..."
  else "Daily question limit reached".

(** Whether the notice of the daily limit is rendered. *)
Definition limitNotice (s : State) : bool :=
  match user s with
  | Some u => negb (canAskQuestion (user s)) && negb (role u =? "admin")%string
  | None => false
  end.

(** The title in the header. *)
Definition headerTitle (s : State) : string :=
  if isActive (activeChat s) then
    match find (fun c => bool_decide (Some (ChatHistory.id c) = activeChat s))
               (chatHistory s) with
    | Some c =>
        if truthy (ChatHistory.title c) then ChatHistory.title c else "Chat"
    | None => "Chat"
    end
  else "New Chat".

Definition handleKeyPress (key : string) (shiftKey : bool) (clk : SendClock)
           (w : World) : World :=
  if (key =? "Enter")%string && negb shiftKey then handleSendMessage clk w
  else w.

End ChatView.

(** ** The page and its storage *)

Module Sync.
Import JsString JSON Chat.

(** The "user" item reads as the session [u]. *)
Definition readsUser (b : Browser) (u : UserData) : Prop :=
  exists blob,
    getItem "user" b = Some blob
    /\ truthy blob = true
    /\ (JSON.parse blob ≫= Blob.toUser) = Returns u.

(** The transcript item of [u] reads as the list [h]: it is missing or
    empty and [h] is empty, or it parses to [h]. *)
Definition readsHistory (b : Browser) (u : UserData) (h : list ChatHistory.t)
  : Prop :=
  (present (getItem (historyKey u) b) = false /\ h = [])
  \/ exists saved,
       getItem (historyKey u) b = Some saved
       /\ truthy saved = true
       /\ (JSON.parse saved ≫= Blob.toHistory) = Returns h.

(** The storage agrees with the state of the page. *)
Definition synced (w : World) : Prop :=
  exists u,
    user (state w) = Some u
    /\ (Blob.validUser u -> readsUser (browser w) u)
    /\ readsHistory (browser w) u (chatHistory (state w))
    /\ Forall (fun p => username (p_user p) = username u) (timers w).

(** What a reload of the page shows: the session and the transcripts, no
    active transcript and an empty buffer. *)
Definition reloaded (w : World) : World :=
  mkWorld (setChatHistory (chatHistory (state w))
             (setUser (user (state w)) initialState))
          (browser w) [].

End Sync.

(** ** The page and the replies of earlier mounts *)

Module Site.
Import JsString JSON Chat.

(** The list of transcripts the timer callback of [p] builds. *)
Definition updatedHistory (p : Pending) (env : ReplyEnv) : list ChatHistory.t :=
  if isActive (p_activeChat p) then map (rewritten p env) (p_chatHistory p)
  else newChat p env :: p_chatHistory p.

(** The timer callback of [handleSendMessage] run after its page was
    unmounted: [handleLogout] and the load effect clear no timer.  The
    state setters of the unmounted page change nothing; the call of
    [localStorage.setItem] is run as ever. *)
Definition strayReply (p : Pending) (env : ReplyEnv) (b : Browser) : Browser :=
  setItem (historyKey (p_user p))
          (stringify (Blob.ofHistory (updatedHistory p env))) b.

(** The mounted page, and the replies of earlier mounts that are still to
    come, oldest first. *)
Record t : Type := make {
  page : World;
  strays : list Pending
}.

(** What the page mounted on [b] and the replies [strays0] pending at that
    moment can come to: an event of the page, or the oldest of the pending
    replies of earlier mounts comes in. *)
Inductive visits (b : Browser) (strays0 : list Pending) : t -> Prop :=
| visit_mount w :
    loadEffect b = Returns w ->
    is_Some (user (state w)) ->
    visits b strays0 (make w strays0)
| visit_page s w' :
    visits b strays0 s ->
    step (page s) w' ->
    visits b strays0 (make w' (strays s))
| visit_stray s p rest env :
    visits b strays0 s ->
    strays s = p :: rest ->
    (replyPick env < 5)%nat ->
    validEnv env ->
    visits b strays0 (make (onBrowser (strayReply p env) (page s)) rest).

End Site.

(** ** More sample runs *)

Module Cases.
Import JsString JSON Chat.

(** The chat path without any cookie, and with the token cookie alone. *)
Definition visitor : Browser := mkBrowser ∅ ∅ "/chat" [].

Definition tokenOnly : Browser :=
  mkBrowser ∅ {[ "auth_token" := "t0k3n" ]} "/chat" [].

(** A browser with the token cookie in which "viewer" has logged in, and
    the chat page mounted on it. *)
Definition memberBrowser : Browser :=
  Login.handleLogin "viewer" "secret"
    (Signup.setToken "t0k3n" Samples.emptyBrowser).

Definition memberPage : World :=
  match loadEffect memberBrowser with
  | Returns w => w
  | _ => mkWorld initialState memberBrowser []
  end.

(** The page of "viewer" after the text "hello" was typed, after it was
    sent, and after the reply came. *)
Definition loginBrowser : Browser :=
  Login.handleLogin "viewer" "secret" Samples.emptyBrowser.

Definition typed : World :=
  onState (setCurrentMessage "hello") (Samples.afterLogin "viewer").

Definition sent : World := handleSendMessage (Samples.clock 1) typed.

Definition replied : World := fireTimer (Samples.reply 1) sent.

(** Two conversations, each in its transcript; a question asked in the
    first and the second selected before the reply came; and one more
    question after that reply. *)
Definition chatA : string := "chat-1700000003500-k3j9x0q1z".

Definition chatB : string := "chat-1700000005500-k3j9x0q1z".

Definition twoChats : World :=
  turn "b1" (Samples.clock 2) (Samples.reply 2)
    (startNewChat
       (turn "a1" (Samples.clock 1) (Samples.reply 1)
             (Samples.afterLogin "viewer"))).

Definition askedInA : World :=
  handleSendMessage (Samples.clock 3)
    (onState (setCurrentMessage "a2") (loadChat chatA twoChats)).

Definition switched : World :=
  fireTimer (Samples.reply 3) (loadChat chatB askedInA).

Definition overwritten : World :=
  turn "x" (Samples.clock 4) (Samples.reply 4) switched.

(** The id of each transcript with the bodies of its user messages. *)
Definition summary (w : World) : list (string * list string) :=
  map (fun c => (ChatHistory.id c, userContents (ChatHistory.messages c)))
      (chatHistory (state w)).

(** The reply of [sent], still to come when the page is left. *)
Definition pendingReply : Pending :=
  pendingOf (Samples.clock 1) typed (mkUserData "viewer" "viewer" 0).

(** "viewer" leaves the page [sent] and logs in again; the reply of the page
    left comes in after the new page was mounted. *)
Definition remounted : World :=
  match loadEffect (Login.handleLogin "viewer" "again"
                      (browser (handleLogout sent))) with
  | Returns w => w
  | _ => sent
  end.

Definition remountedSite : Site.t := Site.make remounted [pendingReply].

(** The body of a response that carries a token, and of one whose token
    is a number. *)
Definition tokenBody : string :=
  stringify (JObject [("token", JString "t0k3n")]).


End Cases.

(** * Properties *)

(** ** Strings *)

Module StringFacts.
Import JsString.

Lemma append_cons (x : ascii) (a b : string) :
  String x a +:+ b = String x (a +:+ b).
Proof. reflexivity. Qed.

Lemma append_nil_l (a : string) : "" +:+ a = a.
Proof. reflexivity. Qed.

Lemma append_assoc (a b c : string) : (a +:+ b) +:+ c = a +:+ (b +:+ c).
Proof.
  induction a as [|x a IH]; [reflexivity|].
  rewrite !append_cons. now rewrite IH.
Qed.

Lemma append_nil_r (a : string) : a +:+ "" = a.
Proof.
  induction a as [|x a IH]; [reflexivity|].
  rewrite append_cons. now rewrite IH.
Qed.

Lemma length_append (a b : string) :
  String.length (a +:+ b) = (String.length a + String.length b)%nat.
Proof.
  induction a as [|x a IH]; [reflexivity|].
  rewrite append_cons. simpl. now rewrite IH.
Qed.

Lemma substring_whole (n : nat) (s : string) :
  (String.length s <= n)%nat -> substring 0 n s = s.
Proof.
  revert n. induction s as [|c s IH]; intros [|n] H; simpl in *;
    try reflexivity; try lia.
  f_equal. apply IH. lia.
Qed.

Lemma substring_prefix (n : nat) (s : string) :
  (n <= String.length s)%nat ->
  exists r, s = substring 0 n s +:+ r
            /\ String.length (substring 0 n s) = n.
Proof.
  revert n. induction s as [|c s IH]; intros [|n] H; simpl in *; try lia.
  - exists "". auto.
  - exists (String c s). auto.
  - destruct (IH n) as (r & Hr & Hl); [lia|].
    exists r. rewrite append_cons. split; [now rewrite <- Hr | now rewrite Hl].
Qed.

End StringFacts.

Module NumberFacts.
Import JsNumber.

(** Up to 2^53 in magnitude the addition is that of the integers. *)
Lemma add_exact (x y : Z) :
  - limit <= x + y <= limit -> add x y = x + y.
Proof.
  unfold add, round, nearest, limit. intros H.
  destruct (Z.ltb_spec (x + y) 0).
  - destruct (Z.leb_spec (- (x + y)) 9007199254740992); lia.
  - destruct (Z.leb_spec (x + y) 9007199254740992); lia.
Qed.

(** At 2^53 adding one changes nothing. *)
Lemma add_one_limit : add limit 1 = limit.
Proof. vm_compute. reflexivity. Qed.

(** Adding one from a Number of magnitude up to 2^53. *)
Lemma add_one_cases (x : Z) :
  - limit <= x <= limit ->
  (x < limit /\ add x 1 = x + 1) \/ (x = limit /\ add x 1 = x).
Proof.
  intros H. destruct (Z.eq_dec x limit) as [-> | Hne].
  - right. split; [reflexivity | apply add_one_limit].
  - left. split; [lia|]. apply add_exact. lia.
Qed.

End NumberFacts.

(** ** Sending and the quota *)

Module ChatFacts.
Import JsString JSON Chat.

Lemma historyKey_not_user (u : UserData) : historyKey u <> "user".
Proof. unfold historyKey. simpl. discriminate. Qed.

Lemma truthy_true (s : string) : truthy s = true <-> s <> "".
Proof. destruct s; simpl; split; congruence. Qed.

Lemma is_admin_eqb (r : string) : (r =? "admin")%string = true <-> r = "admin".
Proof. apply String.eqb_eq. Qed.

Lemma canAsk_admin (u : UserData) :
  role u = "admin" -> canAskQuestion (Some u) = true.
Proof. intros H. unfold canAskQuestion. rewrite H. reflexivity. Qed.

Lemma canAsk_other (u : UserData) :
  role u <> "admin" ->
  canAskQuestion (Some u) = (questionsToday u <? 10).
Proof.
  intros H. unfold canAskQuestion.
  destruct (String.eqb_spec (role u) "admin"); [contradiction | reflexivity].
Qed.

(** An accepted send, field by field. *)
Lemma send_accepted (clk : SendClock) (w : World) (u : UserData) :
  user (state w) = Some u ->
  canAskQuestion (Some u) = true ->
  trim (currentMessage (state w)) <> "" ->
  handleSendMessage clk w =
    mkWorld
      (mkState (Some (bumped u)) "" (chatHistory (state w))
               (activeChat (state w))
               (currentMessages (state w) ++ [sentMessage clk w])
               true (sidebarOpen (state w)))
      (setItem "user" (stringify (Blob.ofUser (bumped u))) (browser w))
      (timers w ++
         [mkPending u (sentMessage clk w)
                    (currentMessages (state w) ++ [sentMessage clk w])
                    (activeChat (state w)) (chatHistory (state w))]).
Proof.
  intros Hu Hc Ht. unfold handleSendMessage.
  apply truthy_true in Ht. rewrite Ht, Hu, Hc.
  rewrite bool_decide_true by eauto. reflexivity.
Qed.

(** A send without quota left changes nothing. *)
Lemma send_rejected (clk : SendClock) (w : World) :
  canAskQuestion (user (state w)) = false -> handleSendMessage clk w = w.
Proof.
  intros Hc. unfold handleSendMessage. rewrite Hc.
  rewrite !orb_true_r. reflexivity.
Qed.

Lemma send_blank (clk : SendClock) (w : World) :
  trim (currentMessage (state w)) = "" -> handleSendMessage clk w = w.
Proof. intros Hc. unfold handleSendMessage. rewrite Hc. reflexivity. Qed.

Lemma send_no_user (clk : SendClock) (w : World) :
  user (state w) = None -> handleSendMessage clk w = w.
Proof.
  intros Hc. unfold handleSendMessage. rewrite Hc. simpl.
  rewrite orb_true_r. reflexivity.
Qed.

(** A send is either a no-op or adds one timer. *)
Lemma send_cases (clk : SendClock) (w : World) :
  handleSendMessage clk w = w
  \/ exists u, user (state w) = Some u
       /\ canAskQuestion (Some u) = true
       /\ trim (currentMessage (state w)) <> "".
Proof.
  destruct (user (state w)) as [u|] eqn:Hu.
  - destruct (canAskQuestion (Some u)) eqn:Hc.
    + destruct (string_dec (trim (currentMessage (state w))) "") as [Ht|Ht].
      * left. now apply send_blank.
      * right. exists u. auto.
    + left. apply send_rejected. now rewrite Hu.
  - left. now apply send_no_user.
Qed.

Lemma accepted_changes (clk : SendClock) (w : World) (u : UserData) :
  user (state w) = Some u ->
  canAskQuestion (Some u) = true ->
  trim (currentMessage (state w)) <> "" ->
  handleSendMessage clk w <> w.
Proof.
  intros Hu Hc Ht Heq.
  rewrite (send_accepted clk w u Hu Hc Ht) in Heq.
  apply (f_equal (fun x => length (timers x))) in Heq. simpl in Heq.
  rewrite length_app in Heq. simpl in Heq. lia.
Qed.

(** *** Whole turns *)

Lemma turn_accepted body clk env (w : World) (u : UserData) :
  user (state w) = Some u ->
  canAskQuestion (Some u) = true ->
  trim body <> "" ->
  timers w = [] ->
  let w' := turn body clk env w in
  user (state w') = Some (bumped u)
  /\ timers w' = []
  /\ isLoading (state w') = false
  /\ currentMessages (state w') =
       currentMessages (state w)
         ++ [Message.make (numberToString (sendNow clk)) body false (sendDate clk);
             replyMessage env body].
Proof.
  intros Hu Hc Ht Hti. unfold turn.
  rewrite (send_accepted clk _ u); simpl; auto.
  rewrite Hti. unfold fireTimer. simpl. unfold botReply. simpl.
  destruct (match activeChat (state w) with Some a => truthy a | None => false end);
    simpl; rewrite <- app_assoc; auto.
Qed.

Lemma turn_rejected body clk env (w : World) :
  canAskQuestion (user (state w)) = false ->
  timers w = [] ->
  turn body clk env w = onState (setCurrentMessage body) w.
Proof.
  intros Hc Hti. unfold turn. rewrite send_rejected by (simpl; auto).
  unfold fireTimer. simpl. now rewrite Hti.
Qed.

Lemma userContents_app (l1 l2 : list Message.t) :
  userContents (l1 ++ l2) = userContents l1 ++ userContents l2.
Proof. unfold userContents. now rewrite List.filter_app, map_app. Qed.

(** With [k] questions left, the first [k] bodies of a run of turns are
    accepted and the others are not. *)
Lemma turns_quota (l : list (string * SendClock * ReplyEnv)) :
  forall (w : World) (u : UserData),
    user (state w) = Some u ->
    role u <> "admin" ->
    - JsNumber.limit <= questionsToday u ->
    timers w = [] ->
    Forall (fun x => trim (bodyOf x) <> "") l ->
    let k := Z.to_nat (10 - questionsToday u) in
    let w' := turns l w in
    userContents (currentMessages (state w')) =
      userContents (currentMessages (state w)) ++ take k (map bodyOf l)
    /\ user (state w') =
         Some (mkUserData (username u) (role u)
                 (questionsToday u + Z.of_nat (Nat.min (length l) k)))
    /\ timers w' = [].
Proof.
  induction l as [|[[body clk] env] l IH]; intros w u Hu Hr Hlo Hti Hall; simpl.
  - rewrite take_nil, app_nil_r, Z.add_0_r. destruct u; auto.
  - inversion Hall as [|? ? Hb Hall']; subst. unfold bodyOf in Hb. simpl in Hb.
    destruct (Z.ltb_spec (questionsToday u) 10) as [Hlt|Hge].
    + destruct (turn_accepted body clk env w u Hu) as (Hu' & Hti' & _ & Hcm); auto.
      { rewrite canAsk_other by auto. now apply Z.ltb_lt. }
      assert (Hq : questionsToday (bumped u) = questionsToday u + 1).
      { apply NumberFacts.add_exact. unfold JsNumber.limit in *. lia. }
      destruct (IH _ _ Hu' Hr) as (H1 & H2 & H3); [rewrite Hq; lia | auto | auto |].
      rewrite H1, H2, Hcm, Hq. simpl.
      replace (Z.to_nat (10 - questionsToday u))
        with (S (Z.to_nat (10 - (questionsToday u + 1)))) by lia.
      simpl. rewrite userContents_app, <- app_assoc. simpl.
      repeat split; auto. do 2 f_equal. lia.
    + assert (Hc : canAskQuestion (user (state w)) = false).
      { rewrite Hu, canAsk_other by auto. now apply Z.ltb_ge. }
      rewrite turn_rejected by auto.
      destruct (IH (onState (setCurrentMessage body) w) u) as (H1 & H2 & H3); auto.
      rewrite H1, H2. simpl.
      replace (Z.to_nat (10 - questionsToday u)) with 0%nat by lia.
      rewrite !take_0. repeat split; auto. do 2 f_equal. lia.
Qed.

(** An admin is never out of quota: every body of a run of turns is
    accepted. *)
Lemma turns_admin (l : list (string * SendClock * ReplyEnv)) :
  forall (w : World) (u : UserData),
    user (state w) = Some u ->
    role u = "admin" ->
    timers w = [] ->
    Forall (fun x => trim (bodyOf x) <> "") l ->
    let w' := turns l w in
    userContents (currentMessages (state w')) =
      userContents (currentMessages (state w)) ++ map bodyOf l
    /\ length (currentMessages (state w')) =
         (length (currentMessages (state w)) + 2 * length l)%nat
    /\ (role <$> user (state w')) = Some (role u)
    /\ timers w' = [].
Proof.
  induction l as [|[[body clk] env] l IH]; intros w u Hu Hr Hti Hall; simpl.
  - rewrite app_nil_r, Hu. auto with lia.
  - inversion Hall as [|? ? Hb Hall']; subst. unfold bodyOf in Hb. simpl in Hb.
    destruct (turn_accepted body clk env w u Hu) as (Hu' & Hti' & _ & Hcm); auto.
    { now apply canAsk_admin. }
    destruct (IH _ _ Hu' Hr Hti' Hall') as (H1 & H2 & H3 & H4).
    rewrite H1, H2, H3, Hcm. simpl.
    rewrite userContents_app, <- app_assoc, length_app. simpl.
    repeat split; auto. lia.
Qed.

End ChatFacts.


(** ** Reading back what was written *)

Module JsonFacts.
Import JsString JSON StringFacts.

(** *** Digits *)

Lemma digit_cases (x : Z) :
  0 <= x < 10 ->
  x = 0 \/ x = 1 \/ x = 2 \/ x = 3 \/ x = 4 \/ x = 5 \/ x = 6 \/ x = 7
  \/ x = 8 \/ x = 9.
Proof. lia. Qed.

Lemma digitChar_isDigit (x : Z) : 0 <= x < 10 -> isDigit (digitChar x) = true.
Proof.
  intros H. destruct (digit_cases x H) as [->|[->|[->|[->|[->|[->|[->|[->|[->| ->]]]]]]]]];
    reflexivity.
Qed.

Lemma digitVal_digitChar (x : Z) : 0 <= x < 10 -> digitVal (digitChar x) = x.
Proof.
  intros H. destruct (digit_cases x H) as [->|[->|[->|[->|[->|[->|[->|[->|[->| ->]]]]]]]]];
    reflexivity.
Qed.

Lemma pow10_pos (w : nat) : 0 < 10 ^ Z.of_nat w.
Proof. apply Z.pow_pos_nonneg; lia. Qed.

Lemma pow10_succ (w : nat) : 10 ^ Z.of_nat (S w) = 10 ^ Z.of_nat w * 10.
Proof. rewrite Nat2Z.inj_succ, Z.pow_succ_r by lia. lia. Qed.

(** Splitting off the leading one of [S w] digits. *)
Lemma mod_pow10_succ (n : Z) (w : nat) :
  n mod 10 ^ Z.of_nat (S w) =
    (n / 10 ^ Z.of_nat w) mod 10 * 10 ^ Z.of_nat w + n mod 10 ^ Z.of_nat w.
Proof.
  rewrite pow10_succ. pose proof (pow10_pos w).
  rewrite Z.rem_mul_r by lia. lia.
Qed.

Lemma readDigits_pad (w : nat) :
  forall (acc n : Z) (rest : string),
    readDigits w acc (pad w n +:+ rest) =
      Some (acc * 10 ^ Z.of_nat w + n mod 10 ^ Z.of_nat w, rest).
Proof.
  induction w as [|w IH]; intros acc n rest.
  - simpl. rewrite Z.mod_1_r. f_equal. f_equal. lia.
  - change (pad (S w) n)
      with (String (digitChar ((n / 10 ^ Z.of_nat w) mod 10)) (pad w n)).
    rewrite append_cons.
    assert (Hd : 0 <= (n / 10 ^ Z.of_nat w) mod 10 < 10)
      by (apply Z.mod_pos_bound; lia).
    change (readDigits (S w) acc (String ?c ?r))
      with (if isDigit c then readDigits w (10 * acc + digitVal c) r else None).
    rewrite digitChar_isDigit, digitVal_digitChar, IH by assumption.
    rewrite mod_pow10_succ, pow10_succ. f_equal. f_equal. lia.
Qed.

Lemma readNat_pad (w : nat) :
  forall (acc n : Z) (rest : string),
    stops rest = true ->
    readNat acc (pad w n +:+ rest) =
      (acc * 10 ^ Z.of_nat w + n mod 10 ^ Z.of_nat w, rest).
Proof.
  induction w as [|w IH]; intros acc n rest Hr.
  - simpl pad. change (Z.of_nat 0) with 0.
    rewrite append_nil_l, Z.pow_0_r, Z.mod_1_r, Z.mul_1_r, Z.add_0_r.
    destruct rest as [|c r]; [reflexivity|].
    simpl in Hr. apply andb_true_iff in Hr as [Hd _].
    simpl. apply negb_true_iff in Hd. now rewrite Hd.
  - change (pad (S w) n)
      with (String (digitChar ((n / 10 ^ Z.of_nat w) mod 10)) (pad w n)).
    rewrite append_cons.
    assert (Hd : 0 <= (n / 10 ^ Z.of_nat w) mod 10 < 10)
      by (apply Z.mod_pos_bound; lia).
    change (readNat acc (String ?c ?r))
      with (if isDigit c then readNat (10 * acc + digitVal c) r
            else (acc, String c r)).
    rewrite digitChar_isDigit, digitVal_digitChar, IH by assumption.
    rewrite mod_pow10_succ, pow10_succ. f_equal. lia.
Qed.

(** [numDigits] counts the digits: no more, and no leading zero. *)
Lemma countDigits_spec (fuel : nat) :
  forall n : Z,
    0 <= n < 2 ^ Z.of_nat (S fuel) ->
    n < 10 ^ Z.of_nat (countDigits fuel n)
    /\ (10 <= n -> 10 ^ Z.of_nat (countDigits fuel n) <= 10 * n)
    /\ (1 <= countDigits fuel n)%nat.
Proof.
  induction fuel as [|f IH]; intros n Hn.
  - simpl in *. lia.
  - simpl countDigits. destruct (Z.ltb_spec n 10) as [Hlt|Hge].
    + simpl. lia.
    + assert (Hq : 0 <= n / 10 < 2 ^ Z.of_nat (S f)).
      { rewrite (Nat2Z.inj_succ (S f)), Z.pow_succ_r in Hn by lia.
        split; [apply Z.div_pos; lia|].
        apply Z.div_lt_upper_bound; lia. }
      destruct (IH _ Hq) as (H1 & H2 & H3).
      rewrite pow10_succ. split; [|split; [|lia]].
      * remember (10 ^ Z.of_nat (countDigits f (n / 10))) as P. clear - H1. Z.div_mod_to_equations. lia.
      * intros _. destruct (Z.ltb_spec (n / 10) 10) as [Hs|Hb].
        -- assert (Hk : countDigits f (n / 10) = 1%nat).
           { destruct f; simpl; [reflexivity|].
             destruct (Z.ltb_spec (n / 10) 10); [reflexivity | lia]. }
           rewrite Hk. simpl. clear - Hge. lia.
        -- specialize (H2 Hb).
           remember (10 ^ Z.of_nat (countDigits f (n / 10))) as P.
           clear - H2. Z.div_mod_to_equations. lia.
Qed.

Lemma numDigits_spec (n : Z) :
  0 <= n ->
  n < 10 ^ Z.of_nat (numDigits n)
  /\ (10 <= n -> 10 ^ Z.of_nat (numDigits n) <= 10 * n)
  /\ (1 <= numDigits n)%nat.
Proof.
  intros Hn. unfold numDigits. apply countDigits_spec.
  split; [assumption|].
  destruct (Z.eq_dec n 0) as [->|Hz]; [simpl; lia|].
  rewrite Nat2Z.inj_succ, Z2Nat.id by apply Z.log2_nonneg.
  apply Z.log2_spec. lia.
Qed.


(** *** String literals *)

Lemma parseChars_quoteChar (c : ascii) (t : string) :
  parseChars (quoteChar c +:+ t) = rmap (String c) (parseChars t).
Proof. destruct c as [[] [] [] [] [] [] [] []]; reflexivity. Qed.

Lemma parseChars_quoteChars (s rest : string) :
  parseChars (quoteChars s +:+ String dquote rest) = Ok s rest.
Proof.
  induction s as [|c s IH]; [reflexivity|].
  simpl quoteChars. rewrite append_assoc, parseChars_quoteChar, IH.
  reflexivity.
Qed.

Lemma quote_append (s rest : string) :
  quote s +:+ rest = String dquote (quoteChars s +:+ String dquote rest).
Proof.
  unfold quote. rewrite append_cons, append_assoc. reflexivity.
Qed.

(** *** Numbers *)

Lemma startChar_facts (c : ascii) :
  startChar c = true ->
  isWs c = false /\ (c =? "]")%char = false /\ (c =? "}")%char = false
  /\ (c =? ",")%char = false.
Proof.
  destruct c as [[] [] [] [] [] [] [] []]; intros H;
    try discriminate H; repeat split.
Qed.

Lemma parseValue_number (f : nat) (c : ascii) (r : string) :
  (c =? "-")%char || isDigit c = true ->
  parseValue (S f) (String c r) = parseNumber (String c r).
Proof.
  destruct c as [[] [] [] [] [] [] [] []]; intros H;
    try discriminate H; reflexivity.
Qed.

Lemma pad_head (w : nat) (n : Z) :
  pad (S w) n = String (digitChar ((n / 10 ^ Z.of_nat w) mod 10)) (pad w n).
Proof. reflexivity. Qed.

Lemma digitChar_zero (x : Z) :
  0 <= x < 10 -> ((digitChar x =? "0")%char = true <-> x = 0).
Proof.
  intros H. destruct (digit_cases x H) as [->|[->|[->|[->|[->|[->|[->|[->|[->| ->]]]]]]]]];
    simpl; split; intros E; try discriminate E; try reflexivity; lia.
Qed.

Lemma digitChar_not_minus (x : Z) :
  0 <= x < 10 -> (digitChar x =? "-")%char = false.
Proof.
  intros H. destruct (digit_cases x H) as [->|[->|[->|[->|[->|[->|[->|[->|[->| ->]]]]]]]]];
    reflexivity.
Qed.

(** The digits of a natural number, read at the start of a number. *)
Lemma parseNumber_digits (neg : bool) (n : Z) (rest : string) :
  0 <= n <= maxSafeInteger ->
  stops rest = true ->
  (neg = true -> 0 < n) ->
  parseNumber ((if neg then String "-" "" else "") +:+ pad (numDigits n) n +:+ rest) =
    Ok (JNumber (if neg then - n else n)) rest.
Proof.
  intros Hn Hr Hneg.
  destruct (numDigits_spec n) as (Hlt & Hlead & Hpos); [lia|].
  destruct (numDigits n) as [|w] eqn:Hw; [lia|].
  assert (Hmod : n mod 10 ^ Z.of_nat (S w) = n) by (apply Z.mod_small; lia).
  assert (Hd : 0 <= (n / 10 ^ Z.of_nat w) mod 10 < 10)
    by (apply Z.mod_pos_bound; lia).
  assert (Hread : readNat 0 (pad (S w) n +:+ rest) = (n, rest)).
  { rewrite readNat_pad by assumption. rewrite Hmod. f_equal. }
  assert (Hs : startsFraction rest = false).
  { destruct rest as [|c r]; [reflexivity|].
    simpl in Hr. apply andb_true_iff in Hr as [_ Hr].
    now apply negb_true_iff in Hr. }
  assert (Hmax : (maxSafeInteger <? n) = false) by (apply Z.ltb_ge; lia).
  assert (Hbody :
    forall b : bool,
      (b = true -> 0 < n) ->
      (let '(m, rest') :=
         if (digitChar ((n / 10 ^ Z.of_nat w) mod 10) =? "0")%char
         then (0, pad w n +:+ rest)
         else readNat 0 (pad (S w) n +:+ rest) in
       if startsFraction rest' then Beyond
       else if b && (m =? 0) then Beyond
       else if maxSafeInteger <? m then Beyond
       else Ok (JNumber (if b then - m else m)) rest')
      = Ok (JNumber (if b then - n else n)) rest).
  { intros b Hb.
    destruct (digitChar ((n / 10 ^ Z.of_nat w) mod 10) =? "0")%char eqn:Hz.
    - apply digitChar_zero in Hz; [|assumption].
      assert (Hn0 : n = 0).
      { destruct (Z_lt_le_dec n 10) as [Hs10|Hb10].
        - destruct w as [|w'].
          + change (Z.of_nat 0) with 0 in Hz. rewrite Z.pow_0_r, Z.div_1_r in Hz.
            rewrite Z.mod_small in Hz by lia. assumption.
          + specialize (numDigits_spec n (proj1 Hn)). rewrite Hw.
            unfold numDigits in Hw.
            destruct (Z.to_nat (Z.log2 n)); simpl in Hw;
              [discriminate|].
            destruct (Z.ltb_spec n 10); [discriminate | lia].
        - specialize (Hlead Hb10). rewrite pow10_succ in Hlead, Hlt.
          pose proof (pow10_pos w) as Hp.
          assert (Hq : 1 <= n / 10 ^ Z.of_nat w < 10).
          { split.
            - apply Z.div_le_lower_bound; lia.
            - apply Z.div_lt_upper_bound; lia. }
          rewrite Z.mod_small in Hz by lia. lia. }
      subst n. destruct w as [|w'].
      + simpl pad. rewrite append_nil_l, Hs.
        destruct b; [specialize (Hb eq_refl); lia|]. reflexivity.
      + exfalso. unfold numDigits in Hw. simpl in Hw. discriminate.
    - rewrite Hread, Hs, Hmax.
      destruct b; [|reflexivity].
      specialize (Hb eq_refl).
      destruct (Z.eqb_spec n 0); [lia | reflexivity]. }
  rewrite pad_head in *.
  destruct neg.
  - rewrite append_cons, append_nil_l.
    change (parseNumber (String "-" ?t))
      with (match t with
            | String c r =>
                if isDigit c then
                  let '(m, rest') :=
                    if (c =? "0")%char then (0, r) else readNat 0 t in
                  if startsFraction rest' then Beyond
                  else if true && (m =? 0) then Beyond
                  else if maxSafeInteger <? m then Beyond
                  else Ok (JNumber (- m)) rest'
                else Syntax
            | EmptyString => Syntax
            end).
    rewrite append_cons. rewrite digitChar_isDigit by assumption.
    rewrite <- append_cons. apply (Hbody true Hneg).
  - cbv match. rewrite append_nil_l, append_cons.
    unfold parseNumber. rewrite digitChar_not_minus by assumption.
    rewrite digitChar_isDigit by assumption.
    rewrite <- append_cons. apply (Hbody false). discriminate.
Qed.

Lemma parseNumber_numberToString (n : Z) (rest : string) :
  - maxSafeInteger <= n <= maxSafeInteger ->
  stops rest = true ->
  parseNumber (numberToString n +:+ rest) = Ok (JNumber n) rest.
Proof.
  intros Hn Hr. unfold numberToString.
  destruct (Z.ltb_spec n 0) as [Hlt|Hge].
  - pose proof (parseNumber_digits true (- n) rest) as H.
    rewrite Z.opp_involutive in H. rewrite <- H; try assumption.
    + reflexivity.
    + unfold maxSafeInteger in *. lia.
    + lia.
  - rewrite <- (parseNumber_digits false n rest); try assumption.
    + reflexivity.
    + unfold maxSafeInteger in *. lia.
    + discriminate.
Qed.

Lemma numberToString_head (n : Z) (rest : string) :
  exists c r, numberToString n +:+ rest = String c r
              /\ ((c =? "-")%char || isDigit c = true).
Proof.
  unfold numberToString. destruct (Z.ltb_spec n 0).
  - eexists _, _. rewrite append_cons. split; reflexivity.
  - destruct (numDigits_spec n) as (_ & _ & Hpos); [lia|].
    destruct (numDigits n) as [|w]; [lia|].
    rewrite pad_head, append_cons. eexists _, _. split; [reflexivity|].
    rewrite digitChar_isDigit; [apply orb_true_r|].
    apply Z.mod_pos_bound; lia.
Qed.


(** *** Values *)

(** Every written value starts with a character that is neither white
    space nor a closing bracket. *)
Lemma stringify_head (v : json) (rest : string) :
  exists c r, stringify v +:+ rest = String c r /\ startChar c = true.
Proof.
  destruct v as [|[]|n|s|l|l]; simpl stringify;
    try (eexists _, _; rewrite append_cons; split; reflexivity).
  - destruct (numberToString_head n rest) as (c & r & Hc & Hs).
    exists c, r. split; [assumption|].
    unfold startChar.
    apply orb_true_iff in Hs as [Hs|Hs]; rewrite Hs;
      rewrite ?orb_true_r; reflexivity.
  - rewrite quote_append. eexists _, _. split; reflexivity.
Qed.

Lemma skipWs_start (c : ascii) (r : string) :
  isWs c = false -> skipWs (String c r) = String c r.
Proof. intros H. simpl. now rewrite H. Qed.

Lemma stops_comma (r : string) : stops (String "," r) = true.
Proof. reflexivity. Qed.

Lemma stops_bracket (r : string) : stops (String "]" r) = true.
Proof. reflexivity. Qed.

Lemma stops_brace (r : string) : stops (String "}" r) = true.
Proof. reflexivity. Qed.

Section Loops.
Variable pv : string -> result json.

Lemma parseElements_last (n : nat) (s r : string) (v : json) :
  pv s = Ok v (String "]" r) ->
  parseElements pv (S n) s = Ok [v] r.
Proof. intros H. simpl. rewrite H. reflexivity. Qed.

Lemma parseElements_more (n : nat) (s r : string) (v : json) :
  pv s = Ok v (String "," r) ->
  parseElements pv (S n) s = rmap (cons v) (parseElements pv n r).
Proof. intros H. simpl. rewrite H. reflexivity. Qed.

Lemma parseMembers_last (n : nat) (k s r : string) (v : json) :
  pv s = Ok v (String "}" r) ->
  parseMembers pv (S n) (quote k +:+ String ":" s) = Ok [(k, v)] r.
Proof.
  intros H. rewrite quote_append.
  change (parseMembers pv (S n) (String dquote ?t))
    with (match parseChars t with
          | Ok k r1 =>
              match skipWs r1 with
              | String c r2 =>
                  if (c =? ":")%char then
                    match pv r2 with
                    | Ok v r3 =>
                        match skipWs r3 with
                        | String d r4 =>
                            if (d =? ",")%char
                            then rmap (cons (k, v)) (parseMembers pv n r4)
                            else if (d =? "}")%char then Ok [(k, v)] r4
                            else Syntax
                        | EmptyString => Syntax
                        end
                    | Syntax => Syntax
                    | Beyond => Beyond
                    end
                  else Syntax
              | EmptyString => Syntax
              end
          | Syntax => Syntax
          | Beyond => Beyond
          end).
  rewrite parseChars_quoteChars.
  change (skipWs (String ":" s)) with (String ":" s).
  change (":" =? ":")%char with true. cbv match.
  rewrite H. reflexivity.
Qed.

Lemma parseMembers_more (n : nat) (k s r : string) (v : json) :
  pv s = Ok v (String "," r) ->
  parseMembers pv (S n) (quote k +:+ String ":" s) =
    rmap (cons (k, v)) (parseMembers pv n r).
Proof.
  intros H. rewrite quote_append.
  change (parseMembers pv (S n) (String dquote ?t))
    with (match parseChars t with
          | Ok k r1 =>
              match skipWs r1 with
              | String c r2 =>
                  if (c =? ":")%char then
                    match pv r2 with
                    | Ok v r3 =>
                        match skipWs r3 with
                        | String d r4 =>
                            if (d =? ",")%char
                            then rmap (cons (k, v)) (parseMembers pv n r4)
                            else if (d =? "}")%char then Ok [(k, v)] r4
                            else Syntax
                        | EmptyString => Syntax
                        end
                    | Syntax => Syntax
                    | Beyond => Beyond
                    end
                  else Syntax
              | EmptyString => Syntax
              end
          | Syntax => Syntax
          | Beyond => Beyond
          end).
  rewrite parseChars_quoteChars.
  change (skipWs (String ":" s)) with (String ":" s).
  change (":" =? ":")%char with true. cbv match.
  rewrite H. reflexivity.
Qed.
End Loops.

Lemma need_pos (v : json) : (1 <= need v)%nat.
Proof. destruct v; simpl; lia. Qed.

Lemma elements_read (f : nat) (l : list json) :
  forall (x : json) (n : nat) (rest : string),
    (length l < n)%nat ->
    Forall (reads f) (x :: l) ->
    parseElements (parseValue f) n
      (stringify x +:+ joinTail stringify "]" l +:+ rest) = Ok (x :: l) rest.
Proof.
  induction l as [|y l IH]; intros x n rest Hn Hall;
    inversion Hall as [|? ? Hx Hl]; subst;
    (destruct n as [|n]; [simpl in Hn; lia|]).
  - simpl joinTail. rewrite append_cons, append_nil_l.
    apply parseElements_last. apply Hx. reflexivity.
  - simpl joinTail. rewrite !append_assoc, append_cons, append_nil_l.
    rewrite (parseElements_more _ n _ _ x) by (apply Hx; reflexivity).
    rewrite IH; [reflexivity | simpl in Hn; lia | assumption].
Qed.

Lemma members_read (f : nat) (l : list (string * json)) :
  forall (x : string * json) (n : nat) (rest : string),
    (length l < n)%nat ->
    Forall (fun kv => reads f (snd kv)) (x :: l) ->
    parseMembers (parseValue f) n
      (member x +:+ joinTail member "}" l +:+ rest) = Ok (x :: l) rest.
Proof.
  induction l as [|y l IH]; intros [k v] n rest Hn Hall;
    inversion Hall as [|? ? Hx Hl]; subst; simpl in Hx;
    (destruct n as [|n]; [simpl in Hn; lia|]);
    unfold member at 1; simpl fst; simpl snd;
    rewrite !append_assoc, append_cons, append_nil_l.
  - simpl joinTail. rewrite append_cons, append_nil_l.
    apply parseMembers_last. apply Hx. reflexivity.
  - simpl joinTail. rewrite !append_assoc, append_cons, append_nil_l.
    rewrite (parseMembers_more _ n _ _ _ v) by (apply Hx; reflexivity).
    rewrite IH; [reflexivity | simpl in Hn; lia | assumption].
Qed.

Lemma needs_bound (k : nat) (l : list json) :
  (needs l <= k)%nat ->
  (length l <= k)%nat /\ Forall (fun y => (need y <= k)%nat) l.
Proof.
  revert k. induction l as [|y l IH]; intros k H; simpl in *.
  - split; [lia | constructor].
  - destruct k as [|k]; [lia|].
    destruct (IH k) as (Hlen & Hall); [lia|].
    split; [lia|]. constructor; [lia|].
    eapply Forall_impl; [exact Hall|]. simpl. intros; lia.
Qed.

Lemma needsMembers_bound (k : nat) (l : list (string * json)) :
  (needsMembers l <= k)%nat ->
  (length l <= k)%nat /\ Forall (fun y => (need (snd y) <= k)%nat) l.
Proof.
  revert k. induction l as [|y l IH]; intros k H; simpl in *.
  - split; [lia | constructor].
  - destruct k as [|k]; [lia|].
    destruct (IH k) as (Hlen & Hall); [lia|].
    split; [lia|]. constructor; [lia|].
    eapply Forall_impl; [exact Hall|]. simpl. intros; lia.
Qed.

(** [parseValue] reads a written value back, with any fuel that covers
    [need]. *)
Lemma parseValue_stringify (m : nat) :
  forall v : json,
    (need v <= m)%nat ->
    safe v = true ->
    forall fuel, (need v <= fuel)%nat -> reads fuel v.
Proof.
  induction m as [|m IH]; intros v Hm Hs fuel Hf rest Hr.
  { pose proof (need_pos v). lia. }
  destruct fuel as [|f]; [pose proof (need_pos v); lia|].
  destruct v as [|[]|n|s|l|l].
  - reflexivity.
  - reflexivity.
  - reflexivity.
  - simpl in Hs. apply andb_true_iff in Hs as [H1 H2].
    apply Z.leb_le in H1, H2.
    destruct (numberToString_head n rest) as (c & r & Hc & Hd).
    simpl stringify. rewrite Hc, parseValue_number by assumption.
    rewrite <- Hc. now apply parseNumber_numberToString.
  - simpl stringify. rewrite quote_append.
    change (parseValue (S f) (String dquote ?t))
      with (rmap JString (parseChars t)).
    now rewrite parseChars_quoteChars.
  - destruct l as [|x l]; [reflexivity|].
    simpl in Hm, Hf, Hs. apply andb_true_iff in Hs as [Hsx Hsl].
    change (stringify (JArray (x :: l)))
      with ("[" +:+ stringify x +:+ joinTail stringify "]" l).
    rewrite !append_assoc, append_cons, append_nil_l.
    destruct (stringify_head x (joinTail stringify "]" l +:+ rest))
      as (c & r & Hc & Hstart).
    destruct (startChar_facts c Hstart) as (Hws & Hb1 & _ & _).
    assert (Hstep :
      parseValue (S f) (String "[" (String c r)) =
        rmap JArray (parseElements (parseValue f) f (String c r))).
    { change (parseValue (S f) (String "[" ?t))
        with (match startsWith "]" (skipWs t) with
              | Some r' => Ok (JArray []) r'
              | None => rmap JArray (parseElements (parseValue f) f t)
              end).
      rewrite skipWs_start by assumption. unfold startsWith.
      rewrite Ascii.eqb_sym, Hb1. reflexivity. }
    rewrite Hc, Hstep, <- Hc.
    fold (needs l) in Hm, Hf.
    destruct (needs_bound m l) as (_ & Hallm); [lia|].
    destruct (needs_bound f l) as (_ & Hallf); [lia|].
    destruct (needs_bound (needs l) l) as (Hlen & _); [lia|].
    rewrite elements_read; [reflexivity | lia |].
    constructor.
    + apply IH; [lia | assumption | lia].
    + pose proof (proj1 (forallb_forall _ _) Hsl) as Hsafe.
      rewrite Forall_forall in Hallm, Hallf. apply Forall_forall.
      intros y Hy.
      apply IH; [now apply Hallm | | now apply Hallf].
      apply Hsafe. now apply list_elem_of_In.
  - destruct l as [|[k x] l]; [reflexivity|].
    simpl in Hm, Hf, Hs. apply andb_true_iff in Hs as [Hsx Hsl].
    change (stringify (JObject ((k, x) :: l)))
      with ("{" +:+ member (k, x) +:+ joinTail member "}" l).
    rewrite !append_assoc, append_cons, append_nil_l.
    assert (Hstep :
      forall t,
        parseValue (S f) (String "{" (member (k, x) +:+ t)) =
          rmap JObject (parseMembers (parseValue f) f (member (k, x) +:+ t))).
    { intros t. unfold member. simpl fst. rewrite !append_assoc, quote_append.
      reflexivity. }
    rewrite Hstep.
    fold (needsMembers l) in Hm, Hf.
    destruct (needsMembers_bound m l) as (_ & Hallm); [lia|].
    destruct (needsMembers_bound f l) as (_ & Hallf); [lia|].
    destruct (needsMembers_bound (needsMembers l) l) as (Hlen & _); [lia|].
    rewrite members_read; [reflexivity | lia |].
    constructor.
    + simpl. apply IH; [lia | assumption | lia].
    + pose proof (proj1 (forallb_forall _ _) Hsl) as Hsafe.
      rewrite Forall_forall in Hallm, Hallf. apply Forall_forall.
      intros y Hy.
      apply IH; [now apply Hallm | | now apply Hallf].
      apply Hsafe. now apply list_elem_of_In.
Qed.


(** *** The fuel of [parse] is enough *)

Lemma length_joinTail {A : Type} (f : A -> string) (g : A -> nat)
      (close : string) (l : list A) :
  (1 <= String.length close)%nat ->
  Forall (fun y => (g y <= String.length (f y))%nat) l ->
  (S (fold_right (fun x acc => Nat.max (g x) (S acc)) O l)
   <= String.length (joinTail f close l))%nat.
Proof.
  intros Hc Hall. induction Hall as [|y l Hy Hl IH]; simpl.
  - lia.
  - rewrite append_nil_l, length_append. lia.
Qed.

Lemma length_joinAll {A : Type} (f : A -> string) (g : A -> nat)
      (close : string) (l : list A) :
  (1 <= String.length close)%nat ->
  Forall (fun y => (g y <= String.length (f y))%nat) l ->
  (fold_right (fun x acc => Nat.max (g x) (S acc)) O l
   <= String.length (joinAll f close l))%nat.
Proof.
  intros Hc Hall. destruct Hall as [|y l Hy Hl]; simpl.
  - lia.
  - rewrite length_append.
    pose proof (length_joinTail f g close l Hc Hl). lia.
Qed.

Lemma need_le_length (m : nat) :
  forall v : json,
    (need v <= m)%nat -> (need v <= String.length (stringify v))%nat.
Proof.
  induction m as [|m IH]; intros v Hm.
  { pose proof (need_pos v). lia. }
  destruct v as [|[]|n|s|l|l]; try (simpl; lia).
  - destruct (numberToString_head n "") as (c & r & Hc & _).
    rewrite append_nil_r in Hc. simpl. rewrite Hc. simpl. lia.
  - simpl in Hm. fold (needs l) in Hm.
    destruct (needs_bound m l) as (_ & Hall); [lia|].
    change (stringify (JArray l)) with ("[" +:+ joinAll stringify "]" l).
    rewrite append_cons, append_nil_l. simpl.
    apply le_n_S. apply length_joinAll; [simpl; lia|].
    eapply Forall_impl; [exact Hall|]. intros y Hy. now apply IH.
  - simpl in Hm. fold (needsMembers l) in Hm.
    destruct (needsMembers_bound m l) as (_ & Hall); [lia|].
    change (stringify (JObject l)) with ("{" +:+ joinAll member "}" l).
    rewrite append_cons, append_nil_l. simpl.
    apply le_n_S.
    apply (length_joinAll member (fun kv => need (snd kv))); [simpl; lia|].
    eapply Forall_impl; [exact Hall|]. intros [k y] Hy. simpl in *.
    unfold member. simpl. rewrite !length_append.
    specialize (IH y Hy). lia.
Qed.

(** [JSON.parse] reads back what [JSON.stringify] wrote. *)
Lemma parse_stringify (v : json) :
  safe v = true -> parse (stringify v) = Returns v.
Proof.
  intros Hs. unfold parse.
  pose proof (need_le_length (need v) v (le_n _)) as Hlen.
  pose proof (parseValue_stringify (need v) v (le_n _) Hs
                (S (String.length (stringify v)))) as H.
  specialize (H ltac:(lia) "" eq_refl).
  rewrite append_nil_r in H. rewrite H. reflexivity.
Qed.

End JsonFacts.

(** ** What the parser gives *)

(** Every number of a parsed value is a safe integer. *)
Module SafeFacts.
Import JsString JSON.

Lemma readNat_nonneg (s : string) :
  forall acc, 0 <= acc -> 0 <= fst (readNat acc s).
Proof.
  induction s as [|c s IH]; intros acc Hacc; simpl; [exact Hacc|].
  destruct (isDigit c) eqn:Hd; [|exact Hacc].
  apply IH. unfold isDigit, digitVal in *.
  apply andb_true_iff in Hd. destruct Hd as [Hd _].
  apply Z.leb_le in Hd. lia.
Qed.

Lemma digits_safe (neg : bool) (s1 : string) (v : json) (rest : string) :
  match s1 with
  | String c r =>
      if isDigit c then
        let '(n, rest) := if (c =? "0")%char then (0, r) else readNat 0 s1 in
        if startsFraction rest then Beyond
        else if neg && (n =? 0) then Beyond
        else if maxSafeInteger <? n then Beyond
        else Ok (JNumber (if neg then - n else n)) rest
      else Syntax
  | EmptyString => Syntax
  end = Ok v rest ->
  safe v = true.
Proof.
  destruct s1 as [|c r]; [discriminate|].
  destruct (isDigit c); [|discriminate].
  assert (Hn : 0 <= fst (if (c =? "0")%char then (0, r)
                         else readNat 0 (String c r))).
  { destruct (c =? "0")%char; [simpl; lia | now apply readNat_nonneg]. }
  destruct (if (c =? "0")%char then (0, r) else readNat 0 (String c r))
    as [n rest'].
  simpl in Hn.
  destruct (startsFraction rest'); [discriminate|].
  destruct (neg && (n =? 0)); [discriminate|].
  destruct (Z.ltb_spec maxSafeInteger n); [discriminate|].
  intros [= <- _]. simpl.
  apply andb_true_iff. unfold maxSafeInteger in *.
  destruct neg; split; apply Z.leb_le; lia.
Qed.

Lemma parseNumber_safe (s : string) (v : json) (rest : string) :
  parseNumber s = Ok v rest -> safe v = true.
Proof.
  unfold parseNumber. destruct s as [|c r].
  - discriminate.
  - destruct (c =? "-")%char.
    + exact (digits_safe true r v rest).
    + exact (digits_safe false (String c r) v rest).
Qed.

Lemma rmap_Ok {A B : Type} (f : A -> B) (x : result A) (b : B) (rest : string) :
  rmap f x = Ok b rest -> exists a, x = Ok a rest /\ b = f a.
Proof.
  destruct x as [a r| |]; try discriminate.
  intros [= <- <-]. now exists a.
Qed.

Section Loops.
Variable pv : string -> result json.
Hypothesis pv_safe : forall s v r, pv s = Ok v r -> safe v = true.

Lemma parseElements_safe (n : nat) :
  forall s l r, parseElements pv n s = Ok l r -> forallb safe l = true.
Proof.
  induction n as [|n IH]; intros s l r; simpl; [discriminate|].
  destruct (pv s) as [v r1| |] eqn:Hv; try discriminate.
  destruct (skipWs r1) as [|c r']; [discriminate|].
  destruct (c =? ",")%char.
  - intros H. apply rmap_Ok in H. destruct H as (l' & Hl & ->).
    simpl. rewrite (pv_safe _ _ _ Hv). now apply (IH r' l' r).
  - destruct (c =? "]")%char; [|discriminate].
    intros [= <- _]. simpl. now rewrite (pv_safe _ _ _ Hv).
Qed.

Lemma parseMembers_safe (n : nat) :
  forall s l r,
    parseMembers pv n s = Ok l r ->
    forallb (fun kv => safe (snd kv)) l = true.
Proof.
  induction n as [|n IH]; intros s l r; simpl; [discriminate|].
  destruct (skipWs s) as [|q r0]; [discriminate|].
  destruct (q =? dquote)%char; [|discriminate].
  destruct (parseChars r0) as [k r1| |]; try discriminate.
  destruct (skipWs r1) as [|c r2]; [discriminate|].
  destruct (c =? ":")%char; [|discriminate].
  destruct (pv r2) as [v r3| |] eqn:Hv; try discriminate.
  destruct (skipWs r3) as [|d r4]; [discriminate|].
  destruct (d =? ",")%char.
  - intros H. apply rmap_Ok in H. destruct H as (l' & Hl & ->).
    simpl. rewrite (pv_safe _ _ _ Hv). now apply (IH r4 l' r).
  - destruct (d =? "}")%char; [|discriminate].
    intros [= <- _]. simpl. now rewrite (pv_safe _ _ _ Hv).
Qed.

End Loops.

Lemma parseLiteral_Ok (lit : string) (v v' : json) (s rest : string) :
  parseLiteral lit v s = Ok v' rest -> v' = v.
Proof.
  unfold parseLiteral. destruct (dropPrefix lit s); [|discriminate].
  now intros [= <- _].
Qed.

Lemma parseValue_safe (f : nat) :
  forall s v r, parseValue f s = Ok v r -> safe v = true.
Proof.
  induction f as [|f IH]; intros s v r; simpl; [discriminate|].
  destruct (skipWs s) as [|c r0]; [discriminate|].
  destruct (c =? "{")%char.
  { destruct (startsWith "}" (skipWs r0)).
    - now intros [= <- _].
    - intros H. apply rmap_Ok in H. destruct H as (l & Hl & ->).
      simpl. now apply (parseMembers_safe (parseValue f) IH f r0 l r). }
  destruct (c =? "[")%char.
  { destruct (startsWith "]" (skipWs r0)).
    - now intros [= <- _].
    - intros H. apply rmap_Ok in H. destruct H as (l & Hl & ->).
      simpl. now apply (parseElements_safe (parseValue f) IH f r0 l r). }
  destruct (c =? dquote)%char.
  { intros H. apply rmap_Ok in H. now destruct H as (x & _ & ->). }
  destruct ((c =? "-")%char || isDigit c).
  { apply parseNumber_safe. }
  destruct (c =? "t")%char.
  { intros H. now rewrite (parseLiteral_Ok _ _ _ _ _ H). }
  destruct (c =? "f")%char.
  { intros H. now rewrite (parseLiteral_Ok _ _ _ _ _ H). }
  destruct (c =? "n")%char; [|discriminate].
  intros H. now rewrite (parseLiteral_Ok _ _ _ _ _ H).
Qed.

Lemma parse_safe (s : string) (j : json) :
  JSON.parse s = Returns j -> safe j = true.
Proof.
  unfold JSON.parse.
  destruct (parseValue _ s) as [v rest| |] eqn:Hv; try discriminate.
  destruct (truthy (skipWs rest)); [discriminate|].
  intros [= <-]. now apply (parseValue_safe _ _ _ _ Hv).
Qed.

Lemma getField_safe (k : string) (fs : list (string * json)) (v : json) :
  forallb (fun kv => safe (snd kv)) fs = true ->
  getField k fs = Some v -> safe v = true.
Proof.
  induction fs as [|[k' v'] fs IH]; simpl; [discriminate|].
  intros H. apply andb_true_iff in H. destruct H as [Hv Hfs].
  destruct (getField k fs) as [w|] eqn:Hg.
  - intros [= <-]. now apply IH.
  - destruct (k =? k')%string; [|discriminate]. now intros [= <-].
Qed.

End SafeFacts.

(** ** The date-time format *)

Module DateFacts.
Import JsString JsDate StringFacts JsonFacts.

Ltac zdiv := Z.div_mod_to_equations; lia.

Lemma InLeapYear_cases (y : Z) : InLeapYear y = 0 \/ InLeapYear y = 1.
Proof. unfold InLeapYear. destruct (_ && _); auto. Qed.

(** A year has [DaysInYear] days. *)
Lemma DayFromYear_succ (y : Z) :
  DayFromYear (y + 1) = DayFromYear y + DaysInYear y.
Proof.
  unfold DaysInYear, InLeapYear, DayFromYear.
  destruct (Z.eqb_spec (y mod 4) 0); destruct (Z.eqb_spec (y mod 100) 0);
    destruct (Z.eqb_spec (y mod 400) 0); simpl; zdiv.
Qed.

(** The days of the years are close to a line of slope 146097/400. *)
Lemma DayFromYear_line (y : Z) :
  146097 * (y - 1970) - 506 <= 400 * DayFromYear y
  <= 146097 * (y - 1970) + 589.
Proof. unfold DayFromYear. zdiv. Qed.

Lemma YearFromDay_spec (d : Z) :
  DayFromYear (YearFromDay d) <= d < DayFromYear (YearFromDay d + 1).
Proof.
  unfold YearFromDay.
  set (y0 := 1970 + 400 * d / 146097).
  assert (Hy0 : 146097 * (y0 - 1970) <= 400 * d < 146097 * (y0 - 1970) + 146097)
    by (unfold y0; zdiv).
  pose proof (DayFromYear_line (y0 - 1)).
  pose proof (DayFromYear_line y0).
  pose proof (DayFromYear_line (y0 + 1)).
  pose proof (DayFromYear_line (y0 + 2)).
  clearbody y0.
  destruct (Z.ltb_spec d (DayFromYear y0)).
  - replace (y0 - 1 + 1) with y0 by lia. lia.
  - destruct (Z.leb_spec (DayFromYear (y0 + 1)) d).
    + replace (y0 + 1 + 1) with (y0 + 2) by lia. lia.
    + lia.
Qed.


Lemma DayWithinYear_bounds (t : Z) :
  0 <= DayWithinYear t < 365 + InLeapYear (YearFromTime t).
Proof.
  unfold DayWithinYear, YearFromTime.
  pose proof (YearFromDay_spec (Day t)) as H.
  rewrite DayFromYear_succ in H. unfold DaysInYear in H. lia.
Qed.

(** The month and the day of the month give the day of the year back. *)
Lemma month_date (leap diy : Z) :
  (leap = 0 \/ leap = 1) ->
  0 <= diy < 365 + leap ->
  let m := MonthFromDay leap diy in
  0 <= m <= 11
  /\ 1 <= diy - monthStart leap m + 1
          <= monthStart leap (m + 1) - monthStart leap m
  /\ diy - monthStart leap m + 1 <= 31.
Proof.
  intros Hl Hd. unfold MonthFromDay.
  repeat (match goal with
          | |- context [?a <? ?b] => destruct (Z.ltb_spec a b)
          end);
    simpl; destruct Hl; subst leap; simpl; lia.
Qed.

Lemma time_fields (t : Z) :
  0 <= HourFromTime t <= 23
  /\ 0 <= MinFromTime t <= 59
  /\ 0 <= SecFromTime t <= 59
  /\ 0 <= msFromTime t <= 999
  /\ MakeTime (HourFromTime t) (MinFromTime t) (SecFromTime t) (msFromTime t)
     = TimeWithinDay t.
Proof.
  unfold HourFromTime, MinFromTime, SecFromTime, msFromTime, MakeTime.
  assert (H : 0 <= TimeWithinDay t < 86400000)
    by (unfold TimeWithinDay, msPerDay; apply Z.mod_pos_bound; lia).
  remember (TimeWithinDay t) as w. clear Heqw. zdiv.
Qed.

Lemma year_range (t : Z) :
  validTime t -> -271821 <= YearFromTime t <= 275760.
Proof.
  unfold validTime, maxTime, YearFromTime. intros Ht.
  assert (Hd : -100000000 <= Day t <= 100000000)
    by (unfold Day, msPerDay; zdiv).
  pose proof (YearFromDay_spec (Day t)) as Hy.
  pose proof (DayFromYear_line (YearFromDay (Day t))).
  pose proof (DayFromYear_line (YearFromDay (Day t) + 1)).
  lia.
Qed.

(** *** Reading the fields back *)

Lemma readDigits_small (w : nat) (x : Z) (rest : string) :
  0 <= x < 10 ^ Z.of_nat w ->
  readDigits w 0 (pad w x +:+ rest) = Some (x, rest).
Proof.
  intros H. rewrite readDigits_pad, Z.mod_small by assumption.
  reflexivity.
Qed.

Lemma expect_cons (c : ascii) (r : string) : expect c (String c r) = Some r.
Proof. unfold expect. now rewrite Ascii.eqb_refl. Qed.

Lemma digitChar_not_sign (x : Z) (r : string) :
  0 <= x < 10 ->
  readYear (String (digitChar x) r) = readDigits 4 0 (String (digitChar x) r).
Proof.
  intros H. destruct (digit_cases x H) as [->|[->|[->|[->|[->|[->|[->|[->|[->| ->]]]]]]]]];
    reflexivity.
Qed.

Lemma readYear_yearString (y : Z) (rest : string) :
  -999999 <= y <= 999999 ->
  readYear (yearString y +:+ rest) = Some (y, rest).
Proof.
  intros Hy. unfold yearString.
  destruct (Z.leb_spec 0 y) as [H0|H0]; simpl andb.
  - destruct (Z.leb_spec y 9999) as [H1|H1].
    + rewrite <- (readDigits_small 4 y rest) by (simpl; lia).
      rewrite pad_head, append_cons. apply digitChar_not_sign.
      apply Z.mod_pos_bound. lia.
    + destruct (Z.ltb_spec y 0); [lia|].
      rewrite append_cons.
      change (readYear (String "+" ?r)) with (readDigits 6 0 r).
      apply readDigits_small. simpl. lia.
  - destruct (Z.ltb_spec y 0); [|lia].
    rewrite append_cons.
    change (readYear (String "-" ?r))
      with (match readDigits 6 0 r with
            | Some (y, r') => if y =? 0 then None else Some (- y, r')
            | None => None
            end).
    rewrite readDigits_small by (simpl; lia).
    destruct (Z.eqb_spec (- y) 0); [lia|].
    now rewrite Z.opp_involutive.
Qed.

Lemma TimeClip_valid (t : Z) : validTime t -> TimeClip t = Some t.
Proof.
  unfold validTime, TimeClip. intros [H1 H2].
  apply Z.leb_le in H1, H2. now rewrite H1, H2.
Qed.

Lemma leb_true (a b : Z) : a <= b -> (a <=? b) = true.
Proof. apply Z.leb_le. Qed.

(** The Date constructor reads back what [toISOString] wrote. *)
Lemma parse_toISOString (t : Z) :
  validTime t -> parse (toISOString t) = Some t.
Proof.
  intros Hv.
  pose proof (year_range t Hv) as Hy.
  pose proof (DayWithinYear_bounds t) as Hdiy.
  pose proof (InLeapYear_cases (YearFromTime t)) as Hleap.
  pose proof (month_date _ _ Hleap Hdiy) as (Hm & Hdt & Hdt31).
  pose proof (time_fields t) as (Hh & Hmi & Hs & Hms & Htime).
  assert (Hday : MakeDay (YearFromTime t) (MonthFromTime t) (DateFromTime t) = Day t).
  { unfold MakeDay, DateFromTime, MonthFromTime, DayWithinYear. lia. }
  fold (MonthFromTime t) in Hm, Hdt, Hdt31. fold (DateFromTime t) in Hdt, Hdt31.
  unfold toISOString, parse.
  rewrite readYear_yearString by lia.
  cbv [mbind option_bind]. cbv beta match.
  rewrite !append_cons, !append_nil_l.
  rewrite expect_cons, readDigits_small by (simpl; lia).
  rewrite expect_cons, readDigits_small by (simpl; lia).
  rewrite expect_cons, readDigits_small by (simpl; lia).
  rewrite expect_cons, readDigits_small by (simpl; lia).
  rewrite expect_cons, readDigits_small by (simpl; lia).
  rewrite expect_cons, readDigits_small by (simpl; lia).
  rewrite expect_cons.
  replace (MonthFromTime t + 1 - 1) with (MonthFromTime t) by lia.
  unfold daysInMonth.
  rewrite Hday, Htime.
  simpl truthy. simpl negb.
  rewrite !leb_true by lia. simpl andb.
  unfold MakeDate, Day, TimeWithinDay.
  replace (t / msPerDay * msPerDay + t mod msPerDay) with t
    by (unfold msPerDay; zdiv).
  now apply TimeClip_valid.
Qed.

End DateFacts.

(** ** The blobs *)

Module BlobFacts.
Import JsString JSON Blob StringFacts JsonFacts DateFacts.

Ltac fields :=
  repeat match goal with
         | |- context [getField ?k ?l] =>
             let r := eval cbv [getField String.eqb Ascii.eqb Bool.eqb] in
                        (getField k l) in
             change (getField k l) with r
         end.

Ltac binds :=
  cbv [mbind mret outcome_bind outcome_ret obind asString asBool asNumber];
  cbv beta match.

Lemma traverse_map {A B : Type} (f : B -> outcome A) (g : A -> B) (l : list A) :
  Forall (fun x => f (g x) = Returns x) l ->
  traverse f (map g l) = Returns l.
Proof.
  induction 1 as [|x l Hx Hl IH]; [reflexivity|].
  simpl. rewrite Hx. binds. rewrite IH. reflexivity.
Qed.

Lemma forallb_map_true {A B : Type} (p : B -> bool) (g : A -> B) (l : list A) :
  (forall x, p (g x) = true) -> forallb p (map g l) = true.
Proof.
  intros H. induction l as [|x l IH]; [reflexivity|].
  simpl. now rewrite H, IH.
Qed.

Lemma newDate_ofDate (t : Z) :
  JsDate.validTime t -> newDate (Some (ofDate t)) = Returns t.
Proof.
  intros H. unfold newDate, ofDate. now rewrite parse_toISOString.
Qed.

Lemma toMessage_ofMessage (m : Message.t) :
  validMessage m -> toMessage (ofMessage m) = Returns m.
Proof.
  destruct m as [i c b t]. unfold validMessage. simpl. intros Hv.
  unfold toMessage, ofMessage. simpl Message.id. simpl Message.content.
  simpl Message.isBot. simpl Message.timestamp.
  fields. binds. unfold newDate, ofDate.
  rewrite parse_toISOString by assumption. reflexivity.
Qed.

Lemma toChat_ofChat (c : ChatHistory.t) :
  validChat c -> toChat (ofChat c) = Returns c.
Proof.
  destruct c as [i ti ms d]. unfold validChat. simpl. intros [Hd Hms].
  unfold toChat, ofChat. simpl ChatHistory.id. simpl ChatHistory.title.
  simpl ChatHistory.messages. simpl ChatHistory.createdAt.
  fields. binds. unfold newDate, ofDate.
  rewrite parse_toISOString by assumption.
  rewrite traverse_map; [reflexivity|].
  eapply Forall_impl; [exact Hms|]. apply toMessage_ofMessage.
Qed.

Lemma toHistory_ofHistory (h : list ChatHistory.t) :
  validHistory h -> toHistory (ofHistory h) = Returns h.
Proof.
  intros Hv. unfold toHistory, ofHistory. apply traverse_map.
  eapply Forall_impl; [exact Hv|]. apply toChat_ofChat.
Qed.

Lemma toUser_ofUser (u : UserData) : toUser (ofUser u) = Returns u.
Proof. destruct u as [n r q]. reflexivity. Qed.

Lemma safe_ofMessage (m : Message.t) : safe (ofMessage m) = true.
Proof. reflexivity. Qed.

Lemma safe_ofChat (c : ChatHistory.t) : safe (ofChat c) = true.
Proof.
  unfold ofChat. simpl.
  rewrite forallb_map_true by apply safe_ofMessage. reflexivity.
Qed.

Lemma safe_ofHistory (h : list ChatHistory.t) : safe (ofHistory h) = true.
Proof. apply forallb_map_true, safe_ofChat. Qed.

Lemma safe_ofUser (u : UserData) : validUser u -> safe (ofUser u) = true.
Proof.
  unfold validUser. intros [H1 H2]. simpl.
  apply Z.leb_le in H1, H2. now rewrite H1, H2.
Qed.

Lemma truthy_stringify (v : json) : truthy (stringify v) = true.
Proof.
  destruct (stringify_head v "") as (c & r & H & _).
  rewrite append_nil_r in H. now rewrite H.
Qed.

(** The two blobs of the page, read back. *)
Lemma history_blob (h : list ChatHistory.t) :
  validHistory h ->
  JSON.parse (stringify (ofHistory h)) ≫= toHistory = Returns h.
Proof.
  intros Hv. rewrite parse_stringify by apply safe_ofHistory.
  binds. now apply toHistory_ofHistory.
Qed.

Lemma user_blob (u : UserData) :
  validUser u ->
  JSON.parse (stringify (ofUser u)) ≫= toUser = Returns u.
Proof.
  intros Hv. rewrite parse_stringify by now apply safe_ofUser.
  binds. apply toUser_ofUser.
Qed.

End BlobFacts.

(** ** Persisting and loading *)

Module Persistence.
Import JsString JSON Blob Chat StringFacts ChatFacts JsonFacts BlobFacts.

Lemma present_stringify (v : json) : present (Some (stringify v)) = true.
Proof. apply truthy_stringify. Qed.

Lemma load_no_user (b : Browser) :
  present (getItem "user" b) = false ->
  loadEffect b = Returns (mkWorld initialState (navigate "/" b) []).
Proof. intros H. unfold loadEffect. now rewrite H. Qed.

Lemma load_user (b : Browser) (blob : string) :
  getItem "user" b = Some blob ->
  truthy blob = true ->
  loadEffect b =
    parsed ← JSON.parse blob;
    parsedUser ← toUser parsed;
    let s := setUser (Some parsedUser) initialState in
    let savedHistory := getItem (historyKey parsedUser) b in
    if present savedHistory then
      parsedHistory ← JSON.parse (default "" savedHistory);
      historyWithDates ← toHistory parsedHistory;
      Returns (mkWorld (setChatHistory historyWithDates s) b [])
    else Returns (mkWorld s b []).
Proof.
  intros Hg Ht. unfold loadEffect. rewrite Hg. simpl present. rewrite Ht.
  reflexivity.
Qed.

Lemma load_saved (b : Browser) (blob : string) (u : UserData) (saved : string) :
  getItem "user" b = Some blob ->
  truthy blob = true ->
  (JSON.parse blob ≫= toUser) = Returns u ->
  getItem (historyKey u) b = Some saved ->
  truthy saved = true ->
  loadEffect b =
    parsedHistory ← JSON.parse saved;
    historyWithDates ← toHistory parsedHistory;
    Returns (mkWorld (setChatHistory historyWithDates
                        (setUser (Some u) initialState)) b []).
Proof.
  intros Hg Ht Hp Hs Hts. rewrite (load_user b blob Hg Ht).
  revert Hp. binds. destruct (JSON.parse blob) as [j| |]; try discriminate.
  destruct (toUser j) as [u'| |]; try discriminate.
  intros [= ->]. cbv zeta. rewrite Hs. simpl present. rewrite Hts.
  reflexivity.
Qed.

Lemma getItem_setItem (k v : string) (b : Browser) :
  getItem k (setItem k v b) = Some v.
Proof. unfold getItem, setItem. apply lookup_insert_eq. Qed.

Lemma getItem_setItem_ne (k k' v : string) (b : Browser) :
  k <> k' -> getItem k' (setItem k v b) = getItem k' b.
Proof. intros H. unfold getItem, setItem. now apply lookup_insert_ne. Qed.

(** C4, as the code has it.  A missing or empty item is taken as absent:
    without a session item the load effect sets no user and navigates to
    "/", and without a transcript item the list of transcripts stays
    empty.  A blob that is not valid JSON is not: [JSON.parse] throws a
    SyntaxError, which the load effect does not catch. *)
Theorem load_fails_on_malformed (b : Browser) :
  (present (getItem "user" b) = false ->
   loadEffect b = Returns (mkWorld initialState (navigate "/" b) []))
  /\ (forall blob,
        getItem "user" b = Some blob ->
        truthy blob = true ->
        JSON.parse blob = Throws SyntaxError ->
        loadEffect b = Throws SyntaxError)
  /\ (forall blob u,
        getItem "user" b = Some blob ->
        truthy blob = true ->
        (JSON.parse blob ≫= toUser) = Returns u ->
        (present (getItem (historyKey u) b) = false ->
         loadEffect b = Returns (mkWorld (setUser (Some u) initialState) b []))
        /\ (forall saved,
              getItem (historyKey u) b = Some saved ->
              truthy saved = true ->
              JSON.parse saved = Throws SyntaxError ->
              loadEffect b = Throws SyntaxError)).
Proof.
  split; [apply load_no_user|]. split.
  - intros blob Hg Ht Hp. rewrite (load_user b blob Hg Ht), Hp. reflexivity.
  - intros blob u Hg Ht Hp. rewrite (load_user b blob Hg Ht).
    revert Hp. binds. destruct (JSON.parse blob) as [j| |]; try discriminate.
    destruct (toUser j) as [u'| |]; try discriminate.
    intros [= ->]. cbv zeta. split.
    + intros Hn. now rewrite Hn.
    + intros saved Hs Hts Hps. rewrite Hs. simpl present. rewrite Hts.
      simpl default. rewrite Hps. reflexivity.
Qed.

Lemma load_fails_on_malformed_witness :
  loadEffect (mkBrowser ∅ ∅ "/chat" []) =
    Returns (mkWorld initialState (mkBrowser ∅ ∅ "/" []) [])
  /\ loadEffect (mkBrowser {[ "user" := "{oops" ]} ∅ "/chat" []) =
       Throws SyntaxError.
Proof.
  split.
  - apply (proj1 (load_fails_on_malformed (mkBrowser ∅ ∅ "/chat" []))).
    reflexivity.
  - apply (proj1 (proj2 (load_fails_on_malformed
                           (mkBrowser {[ "user" := "{oops" ]} ∅ "/chat" [])))
             "{oops"); reflexivity.
Defined.

(** Against C4 as it is written: with a session blob that is not JSON the load
    effect throws, and so it does with a transcript blob that is not JSON
    under a well-formed session. *)
Lemma malformed_blob_throws :
  loadEffect (mkBrowser {[ "user" := "{oops" ]} ∅ "/chat" []) =
    Throws SyntaxError
  /\ loadEffect
       (mkBrowser
          (<[ "chatHistory_viewer" := "[{" ]>
             {[ "user" := stringify (ofUser (mkUserData "viewer" "viewer" 3)) ]})
          ∅ "/chat" []) = Throws SyntaxError.
Proof. split; vm_compute; reflexivity. Qed.

End Persistence.

(** ** Logging in *)

Module LoginFacts.
Import JsString JSON Blob Chat Login StringFacts JsonFacts BlobFacts ChatFacts.

Ltac by_cases c :=
  destruct c as [[] [] [] [] [] [] [] []]; vm_compute;
  split; intros H; try discriminate H; reflexivity.

Lemma lower_a (c : ascii) : lowerChar c = "a"%char <-> oneOf c "a" "A" = true.
Proof. by_cases c. Qed.

Lemma lower_d (c : ascii) : lowerChar c = "d"%char <-> oneOf c "d" "D" = true.
Proof. by_cases c. Qed.

Lemma lower_m (c : ascii) : lowerChar c = "m"%char <-> oneOf c "m" "M" = true.
Proof. by_cases c. Qed.

Lemma lower_i (c : ascii) : lowerChar c = "i"%char <-> oneOf c "i" "I" = true.
Proof. by_cases c. Qed.

Lemma lower_n (c : ascii) : lowerChar c = "n"%char <-> oneOf c "n" "N" = true.
Proof. by_cases c. Qed.

Lemma toLowerCase_admin (s : string) :
  toLowerCase s = "admin" <-> adminSpelling s = true.
Proof.
  destruct s as [|c1 [|c2 [|c3 [|c4 [|c5 [|c6 s]]]]]];
    try (simpl; split; intros H; discriminate H).
  unfold adminSpelling. simpl toLowerCase.
  rewrite !andb_true_iff, <- lower_a, <- lower_d, <- lower_m, <- lower_i,
    <- lower_n.
  split.
  - intros [= -> -> -> -> ->]. auto.
  - intros ((((-> & ->) & ->) & ->) & ->). reflexivity.
Qed.

Lemma exempt_iff_admin (n r : string) :
  (forall q, canAskQuestion (Some (mkUserData n r q)) = true) <-> r = "admin".
Proof.
  split.
  - intros H. specialize (H 10). unfold canAskQuestion in H. simpl in H.
    destruct (String.eqb_spec r "admin"); [assumption | discriminate].
  - intros -> q. reflexivity.
Qed.

(** C9.  A login with a non-empty username and a non-empty password
    stores the session made of the username, its lower-case form as role,
    and the count 0, and that is the session the chat page reads.  The
    session is therefore exempt from the quota exactly when the username is
    a spelling of "admin" in upper-case and lower-case letters, and the
    password, once it is not empty, has no influence. *)
Theorem login_role (username password : string) (b : Browser) :
  truthy username = true ->
  truthy password = true ->
  localStorage (handleLogin username password b) !! "user" =
    Some (stringify (ofUser (mkUserData username (toLowerCase username) 0)))
  /\ (JSON.parse (stringify (ofUser (mkUserData username (toLowerCase username) 0)))
        ≫= toUser) = Returns (mkUserData username (toLowerCase username) 0)
  /\ ((forall q, canAskQuestion
                   (Some (mkUserData username (toLowerCase username) q)) = true)
      <-> adminSpelling username = true)
  /\ (forall password',
        truthy password' = true ->
        handleLogin username password' b = handleLogin username password b).
Proof.
  intros Hu Hp. unfold handleLogin. rewrite Hu, Hp. simpl andb. cbv match.
  split; [apply lookup_insert_eq|]. split.
  - apply user_blob. unfold validUser, maxSafeInteger. simpl. lia.
  - split.
    + rewrite exempt_iff_admin. apply toLowerCase_admin.
    + intros p' Hp'. now rewrite Hp'.
Qed.

Lemma login_role_witness :
  localStorage (handleLogin "AdMiN" "secret" Samples.emptyBrowser) !! "user" =
    Some (stringify (ofUser (mkUserData "AdMiN" "admin" 0))).
Proof.
  apply (proj1 (login_role "AdMiN" "secret" Samples.emptyBrowser
                  eq_refl eq_refl)).
Defined.

End LoginFacts.

(** ** The transcripts of the running page *)

Module Transcripts.
Import JsString JSON Blob Chat StringFacts ChatFacts.

Lemma botReply_new (p : Pending) (env : ReplyEnv) (w : World) :
  isActive (p_activeChat p) = false ->
  botReply p env w =
    mkWorld
      (mkState (user (state w)) (currentMessage (state w))
               (newChat p env :: p_chatHistory p)
               (Some (ChatHistory.id (newChat p env)))
               (repliedMessages p env) false (sidebarOpen (state w)))
      (setItem (historyKey (p_user p))
               (stringify (ofHistory (newChat p env :: p_chatHistory p)))
               (browser w))
      (timers w).
Proof.
  intros H. unfold botReply. fold (isActive (p_activeChat p)).
  rewrite H. reflexivity.
Qed.

Lemma botReply_update (p : Pending) (env : ReplyEnv) (w : World) :
  isActive (p_activeChat p) = true ->
  botReply p env w =
    mkWorld
      (mkState (user (state w)) (currentMessage (state w))
               (map (rewritten p env) (p_chatHistory p))
               (activeChat (state w))
               (repliedMessages p env) false (sidebarOpen (state w)))
      (setItem (historyKey (p_user p))
               (stringify (ofHistory (map (rewritten p env) (p_chatHistory p))))
               (browser w))
      (timers w).
Proof.
  intros H. unfold botReply. fold (isActive (p_activeChat p)).
  rewrite H. reflexivity.
Qed.

Lemma map_rewritten_ids (p : Pending) (env : ReplyEnv) (h : list ChatHistory.t) :
  map ChatHistory.id (map (rewritten p env) h) = map ChatHistory.id h.
Proof.
  rewrite map_map. apply map_ext. intros c. unfold rewritten.
  destruct (bool_decide _); reflexivity.
Qed.

Lemma rewritten_cases (p : Pending) (env : ReplyEnv) (c : ChatHistory.t) :
  (rewritten p env c = c /\ Some (ChatHistory.id c) <> p_activeChat p)
  \/ (Some (ChatHistory.id c) = p_activeChat p
      /\ ChatHistory.id (rewritten p env c) = ChatHistory.id c
      /\ ChatHistory.createdAt (rewritten p env c) = ChatHistory.createdAt c
      /\ ChatHistory.title (rewritten p env c) =
           chatTitle (Message.content (p_userMessage p))
      /\ ChatHistory.messages (rewritten p env c) = repliedMessages p env).
Proof.
  unfold rewritten. destruct (bool_decide_reflect (Some (ChatHistory.id c) = p_activeChat p));
    [right | left]; auto.
Qed.

(** *** The timers of the page *)

Lemma loadEffect_idle (b : Browser) (w : World) :
  loadEffect b = Returns w -> timers w = [] /\ isLoading (state w) = false.
Proof.
  unfold loadEffect. destruct (negb _).
  - intros [= <-]. auto.
  - cbv [mbind mret outcome_bind outcome_ret obind]. cbv beta.
    destruct (JSON.parse _) as [j| |]; try discriminate.
    destruct (toUser j) as [u| |]; try discriminate. cbv zeta.
    destruct (present _).
    + destruct (JSON.parse _) as [j'| |]; try discriminate.
      destruct (toHistory j') as [h| |]; try discriminate.
      intros [= <-]. auto.
    + intros [= <-]. auto.
Qed.

Lemma step_timerInv (w w' : World) :
  timerInv w -> step w w' -> timerInv w'.
Proof.
  intros Hinv Hstep. destruct Hstep as
    [m w Hc Hl | clk w Hl Hclk | env w p rest Ht Hpick Henv | w | chatId w Hin | b w].
  - exact Hinv.
  - unfold timerInv in Hinv.
    destruct (timers w) as [|p [|q r]] eqn:Ht;
      [| destruct Hinv as (Hl' & _); congruence | contradiction].
    destruct (send_cases clk w) as [Heq | (u & Hu & Hc & Hb)].
    + rewrite Heq. unfold timerInv. now rewrite Ht.
    + rewrite (send_accepted clk w u Hu Hc Hb). unfold timerInv. simpl.
      rewrite Ht. simpl. repeat split. eexists. reflexivity.
  - unfold timerInv in Hinv. rewrite Ht in Hinv.
    destruct rest as [|q r]; [|contradiction].
    unfold fireTimer. rewrite Ht.
    destruct (isActive (p_activeChat p)) eqn:Ha.
    + rewrite botReply_update by assumption. reflexivity.
    + rewrite botReply_new by assumption. reflexivity.
  - exact Hinv.
  - unfold loadChat. destruct (find _ _); exact Hinv.
  - exact Hinv.
Qed.

Lemma reachable_timerInv (b : Browser) (w : World) :
  reachable b w -> timerInv w.
Proof.
  induction 1 as [w Hload Hu | w w' Hr IH Hs].
  - destruct (loadEffect_idle b w Hload) as (Ht & Hl).
    unfold timerInv. now rewrite Ht.
  - now apply (step_timerInv w w').
Qed.

(** *** One turn on an idle page *)

Lemma turn_history body clk env (w : World) (u : UserData) :
  user (state w) = Some u ->
  canAskQuestion (Some u) = true ->
  trim body <> "" ->
  timers w = [] ->
  let p := pendingOf clk (onState (setCurrentMessage body) w) u in
  currentMessages (state (turn body clk env w)) = repliedMessages p env
  /\ chatHistory (state (turn body clk env w)) =
       (if isActive (activeChat (state w))
        then map (rewritten p env) (chatHistory (state w))
        else newChat p env :: chatHistory (state w))
  /\ localStorage (browser (turn body clk env w)) !! historyKey u =
       Some (stringify (ofHistory (chatHistory (state (turn body clk env w))))).
Proof.
  intros Hu Hc Ht Hti. unfold turn.
  rewrite (send_accepted clk _ u); [| exact Hu | exact Hc | exact Ht].
  change (timers (onState (setCurrentMessage body) w)) with (timers w).
  rewrite Hti. unfold fireTimer. cbn [timers app].
  destruct (isActive (activeChat (state w))) eqn:Ha.
  - rewrite botReply_update by exact Ha.
    split; [reflexivity | split; [reflexivity | apply lookup_insert_eq]].
  - rewrite botReply_new by exact Ha.
    split; [reflexivity | split; [reflexivity | apply lookup_insert_eq]].
Qed.


Lemma userContents_replied (p : Pending) (env : ReplyEnv) :
  userContents (repliedMessages p env) = userContents (p_updatedMessages p).
Proof.
  unfold repliedMessages. rewrite userContents_app. simpl.
  apply app_nil_r.
Qed.

(** *** Turns *)

Lemma paired_app_aux (l1 : list Message.t) :
  (forall l2, paired l1 = true -> paired (l1 ++ l2) = paired l2)
  /\ (forall u l2, paired (u :: l1) = true ->
                   paired ((u :: l1) ++ l2) = paired l2).
Proof.
  induction l1 as [|b l IH]; split.
  - reflexivity.
  - intros u l2 H. discriminate H.
  - intros l2 H. now apply (proj2 IH).
  - intros u l2 H. simpl in H. apply andb_true_iff in H as [Hub Hl].
    simpl. rewrite Hub. now apply (proj1 IH).
Qed.

Lemma paired_app (l1 l2 : list Message.t) :
  paired l1 = true -> paired (l1 ++ l2) = paired l2.
Proof. apply paired_app_aux. Qed.

Lemma paired_replied (p : Pending) (env : ReplyEnv) :
  pairedPending p -> paired (repliedMessages p env) = true.
Proof.
  intros (_ & Hu & pre & Hpre & Heq). unfold repliedMessages.
  rewrite Heq, <- app_assoc, paired_app by assumption.
  simpl. now rewrite Hu.
Qed.

Lemma step_paired (w w' : World) : pairedWorld w -> step w w' -> pairedWorld w'.
Proof.
  intros (Hh & Hb & Ht) Hstep. destruct Hstep as
    [m w Hc Hl | clk w Hl Hclk | env w p rest Hp Hpick Henv | w | chatId w Hin | sb w].
  - split; [|split]; assumption.
  - destruct (send_cases clk w) as [Heq | (u & Hu & Hc & Hne)].
    + rewrite Heq. split; [|split]; assumption.
    + rewrite (send_accepted clk w u Hu Hc Hne). unfold pairedWorld. simpl.
      split; [assumption|]. split; [discriminate|].
      apply Forall_app. split; [assumption|].
      constructor; [|constructor].
      split; [assumption|]. split; [reflexivity|].
      exists (currentMessages (state w)). split; [now apply Hb | reflexivity].
  - unfold fireTimer. rewrite Hp. rewrite Hp in Ht.
    inversion Ht as [|? ? Hpp Hrest]; subst.
    pose proof (paired_replied p env Hpp) as Hr.
    destruct Hpp as (Hph & _).
    destruct (isActive (p_activeChat p)) eqn:Ha.
    + rewrite botReply_update by assumption. unfold pairedWorld. simpl.
      split; [|split; [intros _|]; assumption].
      unfold pairedHistory. rewrite Forall_map.
      eapply Forall_impl; [exact Hph|]. intros c Hc. unfold rewritten.
      destruct (bool_decide _); assumption.
    + rewrite botReply_new by assumption. unfold pairedWorld. simpl.
      split; [|split; [intros _|]; assumption].
      constructor; assumption.
  - unfold pairedWorld. simpl. split; [assumption|]. split; [reflexivity | assumption].
  - unfold loadChat.
    destruct (find _ _) as [c|] eqn:Hf; [|split; [|split]; assumption].
    apply find_some in Hf as (Hinc & _).
    unfold pairedWorld. simpl. split; [assumption|]. split; [intros _|assumption].
    unfold pairedHistory in Hh. rewrite Forall_forall in Hh.
    apply list_elem_of_In in Hinc. now apply Hh.
  - split; [|split]; assumption.
Qed.

Lemma reachable_paired (b : Browser) (w : World) :
  (forall w0, loadEffect b = Returns w0 -> pairedHistory (chatHistory (state w0))) ->
  reachable b w -> pairedWorld w.
Proof.
  intros Hb. induction 1 as [w Hload Hu | w w' Hr IH Hs].
  - destruct (loadEffect_idle b w Hload) as (Ht & Hl).
    split; [now apply Hb|]. split.
    + intros _. revert Hload. unfold loadEffect. destruct (negb _).
      * intros [= <-]. reflexivity.
      * cbv [mbind mret outcome_bind outcome_ret obind]. cbv beta.
        destruct (JSON.parse _) as [j| |]; try discriminate.
        destruct (toUser j) as [u| |]; try discriminate. cbv zeta.
        destruct (present _).
        -- destruct (JSON.parse _) as [j'| |]; try discriminate.
           destruct (toHistory j') as [h| |]; try discriminate.
           intros [= <-]. reflexivity.
        -- intros [= <-]. reflexivity.
    + rewrite Ht. constructor.
  - now apply (step_paired w w').
Qed.

(** X21.  The order of the transcripts and of their messages.  Whatever
    the mounted page does, the list of transcripts is either left as it
    is, or changed by the reply to the one pending send, which either puts
    a new transcript in front of all the others, or rewrites the active
    transcript in place; the messages written are the buffer of the send,
    closed by the user message and then its reply.  A whole turn on an
    idle page adds the user message and its reply, in this order, at the
    end of the buffer.  And when the transcripts the page was mounted with
    are made of turns, a user message followed by its reply, so are all the
    transcripts at any later moment, and the buffer whenever the page is
    idle. *)
Theorem transcript_order :
  (forall (b : Browser) (w w' : World),
      reachable b w ->
      step w w' ->
      chatHistory (state w') = chatHistory (state w)
      \/ exists p env pre,
           timers w = [p]
           /\ w' = fireTimer env w
           /\ chatHistory (state w') =
                (if isActive (p_activeChat p)
                 then map (rewritten p env) (chatHistory (state w))
                 else newChat p env :: chatHistory (state w))
           /\ map ChatHistory.id (map (rewritten p env) (chatHistory (state w))) =
                map ChatHistory.id (chatHistory (state w))
           /\ repliedMessages p env =
                pre ++ [p_userMessage p;
                        replyMessage env (Message.content (p_userMessage p))]
           /\ Message.isBot (p_userMessage p) = false
           /\ Message.isBot
                (replyMessage env (Message.content (p_userMessage p))) = true)
  /\ (forall body clk env (w : World) (u : UserData),
        user (state w) = Some u ->
        canAskQuestion (Some u) = true ->
        trim body <> "" ->
        timers w = [] ->
        let p := pendingOf clk (onState (setCurrentMessage body) w) u in
        repliedMessages p env =
          currentMessages (state w)
            ++ [Message.make (numberToString (sendNow clk)) body false
                             (sendDate clk);
                replyMessage env body]
        /\ currentMessages (state (turn body clk env w)) = repliedMessages p env
        /\ chatHistory (state (turn body clk env w)) =
             (if isActive (activeChat (state w))
              then map (rewritten p env) (chatHistory (state w))
              else newChat p env :: chatHistory (state w)))
  /\ (forall (b : Browser) (w : World),
        (forall w0, loadEffect b = Returns w0 ->
                    pairedHistory (chatHistory (state w0))) ->
        reachable b w ->
        pairedHistory (chatHistory (state w))
        /\ (isLoading (state w) = false ->
            paired (currentMessages (state w)) = true)).
Proof.
  split; [|split]; [| |intros b w Hb Hr;
                      destruct (reachable_paired b w Hb Hr) as (H1 & H2 & _);
                      split; assumption].
  - intros b w w' Hreach Hstep.
    pose proof (reachable_timerInv b w Hreach) as Hinv.
    destruct Hstep as
      [m w Hc Hl | clk w Hl Hclk | env w p rest Ht Hpick Henv | w | chatId w Hin | sb w].
    + left. reflexivity.
    + left. destruct (send_cases clk w) as [Heq | (u & Hu & Hc & Hb)].
      * now rewrite Heq.
      * now rewrite (send_accepted clk w u Hu Hc Hb).
    + right. unfold timerInv in Hinv. rewrite Ht in Hinv.
      destruct rest as [|q r]; [|contradiction].
      destruct Hinv as (_ & Hh & Hbot & pre & Hpre).
      exists p, env, pre. split; [assumption|]. split; [reflexivity|].
      split.
      * unfold fireTimer. rewrite Ht, <- Hh.
        destruct (isActive (p_activeChat p)) eqn:Ha.
        -- now rewrite botReply_update.
        -- now rewrite botReply_new.
      * split; [apply map_rewritten_ids|]. split; [|auto].
        unfold repliedMessages. rewrite Hpre, <- app_assoc. reflexivity.
    + left. reflexivity.
    + left. unfold loadChat. destruct (find _ _); reflexivity.
    + left. reflexivity.
  - intros body clk env w u Hu Hc Hb Ht p.
    destruct (turn_history body clk env w u Hu Hc Hb Ht) as (H1 & H2 & _).
    split; [|split; assumption].
    unfold repliedMessages, p, pendingOf, sentMessage. simpl.
    now rewrite <- app_assoc.
Qed.

Lemma transcript_order_witness :
  map ChatHistory.id
      (chatHistory (state (turn "one" (Samples.clock 1) (Samples.reply 1)
                             (Samples.afterLogin "viewer")))) =
    ["chat-1700000003500-k3j9x0q1z"]
  /\ userContents
       (currentMessages (state (turn "one" (Samples.clock 1) (Samples.reply 1)
                                  (Samples.afterLogin "viewer")))) = ["one"].
Proof.
  destruct (proj1 (proj2 transcript_order) "one" (Samples.clock 1) (Samples.reply 1)
              (Samples.afterLogin "viewer") (mkUserData "viewer" "viewer" 0))
    as (_ & H1 & H2);
    [vm_compute; reflexivity | vm_compute; reflexivity | discriminate
    | vm_compute; reflexivity |].
  rewrite H1, H2. vm_compute. split; reflexivity.
Defined.

(** C5, as the code has it.  The title of a transcript is the truncation
    of the user message of the latest turn written to it.  The turn that
    creates a transcript titles it after the message just sent; a later
    turn in the active transcript replaces the title by the truncation of
    its own message, which is then the last user message of the
    transcript and not the first. *)
Theorem title_of_latest_turn body clk env (w : World) (u : UserData) :
  user (state w) = Some u ->
  canAskQuestion (Some u) = true ->
  trim body <> "" ->
  timers w = [] ->
  (isActive (activeChat (state w)) = false ->
   exists c,
     chatHistory (state (turn body clk env w)) = c :: chatHistory (state w)
     /\ ChatHistory.title c = chatTitle body
     /\ userContents (ChatHistory.messages c) =
          userContents (currentMessages (state w)) ++ [body])
  /\ (isActive (activeChat (state w)) = true ->
      forall c,
        In c (chatHistory (state (turn body clk env w))) ->
        Some (ChatHistory.id c) = activeChat (state w) ->
        ChatHistory.title c = chatTitle body
        /\ userContents (ChatHistory.messages c) =
             userContents (currentMessages (state w)) ++ [body]).
Proof.
  intros Hu Hc Hb Ht.
  destruct (turn_history body clk env w u Hu Hc Hb Ht) as (_ & H2 & _).
  set (p := pendingOf clk (onState (setCurrentMessage body) w) u) in *.
  assert (Hmsgs : userContents (repliedMessages p env) =
                    userContents (currentMessages (state w)) ++ [body]).
  { rewrite userContents_replied. unfold p, pendingOf. simpl.
    now rewrite userContents_app. }
  split; intros Ha; rewrite Ha in H2.
  - exists (newChat p env). split; [assumption|]. split; [reflexivity|].
    exact Hmsgs.
  - intros c Hin Hid. rewrite H2 in Hin. apply in_map_iff in Hin.
    destruct Hin as (c0 & <- & _).
    destruct (rewritten_cases p env c0) as [(Heq & Hne) | (_ & _ & _ & Hti & Hms)].
    + rewrite Heq in Hid. contradiction.
    + rewrite Hti, Hms. split; [reflexivity | exact Hmsgs].
Qed.

Lemma title_of_latest_turn_witness :
  exists c,
    chatHistory (state (turn "Hello" (Samples.clock 1) (Samples.reply 1)
                          (Samples.afterLogin "viewer"))) =
      c :: chatHistory (state (Samples.afterLogin "viewer"))
    /\ ChatHistory.title c = chatTitle "Hello"
    /\ userContents (ChatHistory.messages c) =
         userContents (currentMessages (state (Samples.afterLogin "viewer")))
           ++ ["Hello"].
Proof.
  apply (proj1 (title_of_latest_turn "Hello" (Samples.clock 1) (Samples.reply 1)
                  (Samples.afterLogin "viewer") (mkUserData "viewer" "viewer" 0)
                  eq_refl eq_refl ltac:(discriminate) eq_refl)).
  vm_compute. reflexivity.
Defined.

(** Against C5 as it is written: after the turns "Hello" and "World" in one
    conversation the transcript starts with the user message "Hello", and
    its title is "World". *)
Lemma second_turn_retitles :
  map (fun c => (ChatHistory.title c, userContents (ChatHistory.messages c)))
      (chatHistory
         (state (turns [Samples.say 1 "Hello"; Samples.say 2 "World"]
                       (Samples.afterLogin "viewer")))) =
    [("World", ["Hello"; "World"])]
  /\ chatTitle "Hello" = "Hello".
Proof. vm_compute. split; reflexivity. Qed.

(** A whole turn on an idle page is made of events of the page. *)
Lemma reach_turn (b : Browser) (w : World) (body : string) (clk : SendClock)
      (env : ReplyEnv) :
  reachable b w ->
  timers w = [] ->
  canAskQuestion (user (state w)) = true ->
  validClock clk ->
  (replyPick env < 5)%nat ->
  validEnv env ->
  reachable b (turn body clk env w).
Proof.
  intros Hr Ht Hc Hclk Hpick Henv.
  pose proof (reachable_timerInv b w Hr) as Hinv.
  unfold timerInv in Hinv. rewrite Ht in Hinv.
  set (w1 := onState (setCurrentMessage body) w).
  assert (Hr1 : reachable b w1)
    by (apply (reach_step b w); [exact Hr | now apply step_type]).
  assert (Hr2 : reachable b (handleSendMessage clk w1))
    by (apply (reach_step b w1); [exact Hr1 | now apply step_send]).
  unfold turn. fold w1.
  destruct (send_cases clk w1) as [Heq | (u & Hu & Hcu & Hb)].
  - rewrite Heq. unfold fireTimer.
    change (timers w1) with (timers w). now rewrite Ht.
  - apply (reach_step b (handleSendMessage clk w1)); [exact Hr2|].
    apply (step_reply env _ (pendingOf clk w1 u) []); auto.
    rewrite (send_accepted clk w1 u Hu Hcu Hb).
    cbn [timers]. change (timers w1) with (timers w). now rewrite Ht.
Qed.

(** C8.  Against the order of the messages within a transcript: a run of
    the page in which a transcript loses its messages to those of another.
    "viewer" has two transcripts, B with the question "b1" and A with "a1".
    A is selected and "a2" is asked; before its reply comes B is selected
    in the sidebar, which is not disabled while the page is loading.  The
    reply rewrites A and leaves A's conversation in the buffer under the
    selection B; the next question "x" then writes that buffer over B,
    whose own question "b1" is gone.  Every step is an event of the page. *)
Lemma selection_overwrites_transcript :
  reachable Cases.loginBrowser Cases.overwritten
  /\ Cases.summary Cases.twoChats =
       [(Cases.chatB, ["b1"]); (Cases.chatA, ["a1"])]
  /\ activeChat (state Cases.switched) = Some Cases.chatB
  /\ userContents (currentMessages (state Cases.switched)) = ["a1"; "a2"]
  /\ Cases.summary Cases.switched =
       [(Cases.chatB, ["b1"]); (Cases.chatA, ["a1"; "a2"])]
  /\ Cases.summary Cases.overwritten =
       [(Cases.chatB, ["a1"; "a2"; "x"]); (Cases.chatA, ["a1"; "a2"])].
Proof.
  assert (H0 : reachable Cases.loginBrowser (Samples.afterLogin "viewer")).
  { apply reach_mount; [vm_compute; reflexivity|].
    eexists. vm_compute. reflexivity. }
  assert (H1 : reachable Cases.loginBrowser
                 (turn "a1" (Samples.clock 1) (Samples.reply 1)
                       (Samples.afterLogin "viewer"))).
  { apply reach_turn; [exact H0 | vm_compute; reflexivity..
                       | vm_compute; split; discriminate
                       | vm_compute; lia
                       | vm_compute; repeat split; discriminate]. }
  assert (H2 : reachable Cases.loginBrowser Cases.twoChats).
  { apply reach_turn; [| vm_compute; reflexivity..
                       | vm_compute; split; discriminate
                       | vm_compute; lia
                       | vm_compute; repeat split; discriminate].
    eapply reach_step; [exact H1 | apply step_new]. }
  assert (H3 : reachable Cases.loginBrowser Cases.askedInA).
  { eapply reach_step; [eapply reach_step; [eapply reach_step; [exact H2|]|]|].
    - apply (step_load Cases.chatA). vm_compute. auto.
    - apply (step_type "a2"); vm_compute; reflexivity.
    - apply step_send; [vm_compute; reflexivity | vm_compute; split; discriminate]. }
  assert (H4 : reachable Cases.loginBrowser Cases.switched).
  { eapply reach_step; [eapply reach_step; [exact H3|]|].
    - apply (step_load Cases.chatB). vm_compute. auto.
    - apply (step_reply (Samples.reply 3) _
               (pendingOf (Samples.clock 3)
                  (onState (setCurrentMessage "a2")
                           (loadChat Cases.chatA Cases.twoChats))
                  (mkUserData "viewer" "viewer" 2)) []).
      + vm_compute. reflexivity.
      + vm_compute. lia.
      + vm_compute. repeat split; discriminate. }
  split.
  - apply reach_turn; [exact H4 | vm_compute; reflexivity..
                       | vm_compute; split; discriminate
                       | vm_compute; lia
                       | vm_compute; repeat split; discriminate].
  - repeat split; vm_compute; reflexivity.
Qed.

End Transcripts.
(** ** The Dates of the running page *)

Module Validity.
Import JsString JsDate JSON Blob Chat StringFacts ChatFacts BlobFacts Transcripts.
Import NumberFacts SafeFacts.

Lemma TimeClip_Some (x t : Z) : TimeClip x = Some t -> validTime t.
Proof.
  unfold TimeClip, validTime.
  destruct (Z.leb_spec (- maxTime) x); destruct (Z.leb_spec x maxTime);
    simpl; intros [= <-]; lia.
Qed.

(** The Date constructor only builds valid Dates. *)
Lemma parse_valid (s : string) (t : Z) : JsDate.parse s = Some t -> validTime t.
Proof.
  unfold JsDate.parse. cbv [mbind option_bind].
  repeat match goal with
         | |- context [match ?x with _ => _ end] =>
             destruct x; try discriminate
         end.
  apply TimeClip_Some.
Qed.

Lemma traverse_Forall {A B : Type} (f : A -> outcome B) (P : B -> Prop)
      (l : list A) :
  (forall x y, f x = Returns y -> P y) ->
  forall l', traverse f l = Returns l' -> Forall P l'.
Proof.
  intros Hf. induction l as [|x l IH]; simpl; intros l'.
  - intros [= <-]. constructor.
  - binds. destruct (f x) as [y| |] eqn:Hx; try discriminate.
    destruct (traverse f l) as [ys| |]; try discriminate.
    intros [= <-]. constructor; [now apply (Hf x) | now apply IH].
Qed.

Lemma newDate_valid (o : option json) (t : Z) :
  newDate o = Returns t -> validTime t.
Proof.
  unfold newDate. destruct o as [[| | |s| |]|]; try discriminate.
  destruct (JsDate.parse s) eqn:Hp; try discriminate.
  intros [= <-]. now apply (parse_valid s).
Qed.

Lemma toMessage_valid (j : json) (m : Message.t) :
  toMessage j = Returns m -> validMessage m.
Proof.
  unfold toMessage. destruct j as [| | | | |fs]; try discriminate. binds.
  destruct (getField "id" fs) as [[| | |i| |]|]; try discriminate.
  destruct (getField "content" fs) as [[| | |c| |]|]; try discriminate.
  destruct (getField "isBot" fs) as [[|b| | | |]|]; try discriminate.
  destruct (newDate _) as [t| |] eqn:Ht; try discriminate.
  destruct (hasKeys _ fs); try discriminate.
  intros [= <-]. now apply newDate_valid in Ht.
Qed.

Lemma toChat_valid (j : json) (c : ChatHistory.t) :
  toChat j = Returns c -> validChat c.
Proof.
  unfold toChat. destruct j as [| | | | |fs]; try discriminate.
  destruct (getField "messages" fs) as [[| | | |ms|]|]; try discriminate. binds.
  destruct (getField "id" fs) as [[| | |i| |]|]; try discriminate.
  destruct (getField "title" fs) as [[| | |ti| |]|]; try discriminate.
  destruct (newDate _) as [t| |] eqn:Ht; try discriminate.
  destruct (traverse toMessage ms) as [l| |] eqn:Hl; try discriminate.
  destruct (hasKeys _ fs); try discriminate.
  intros [= <-]. split; simpl.
  - now apply newDate_valid in Ht.
  - now apply (traverse_Forall toMessage validMessage ms toMessage_valid).
Qed.

Lemma toHistory_valid (j : json) (h : list ChatHistory.t) :
  toHistory j = Returns h -> validHistory h.
Proof.
  unfold toHistory. destruct j as [| | | |cs|]; try discriminate.
  apply (traverse_Forall toChat validChat cs toChat_valid).
Qed.

Lemma loadEffect_valid (b : Browser) (w : World) :
  loadEffect b = Returns w -> validWorld w.
Proof.
  unfold loadEffect, validWorld. destruct (negb _).
  - intros [= <-]. simpl. repeat constructor.
  - binds. destruct (JSON.parse _) as [j| |]; try discriminate.
    destruct (toUser j) as [u| |]; try discriminate. cbv zeta.
    destruct (present _).
    + destruct (JSON.parse _) as [j'| |]; try discriminate.
      destruct (toHistory j') as [h| |] eqn:Hh; try discriminate.
      intros [= <-]. simpl. apply toHistory_valid in Hh.
      repeat split; [assumption | constructor | constructor].
    + intros [= <-]. simpl. repeat constructor.
Qed.

Lemma rewritten_valid (p : Pending) (env : ReplyEnv) (c : ChatHistory.t) :
  Forall validMessage (repliedMessages p env) ->
  validChat c -> validChat (rewritten p env c).
Proof.
  intros Hm Hc. unfold rewritten. destruct (bool_decide _); [|assumption].
  destruct Hc as (Hd & _). split; assumption.
Qed.

Lemma step_valid (w w' : World) : validWorld w -> step w w' -> validWorld w'.
Proof.
  intros (Hh & Hm & Ht) Hstep. destruct Hstep as
    [m w Hc Hl | clk w Hl Hclk | env w p rest Hp Hpick Henv | w | chatId w Hin | b w].
  - repeat split; assumption.
  - destruct (send_cases clk w) as [Heq | (u & Hu & Hc & Hb)].
    + rewrite Heq. repeat split; assumption.
    + rewrite (send_accepted clk w u Hu Hc Hb).
      assert (Hs : Forall validMessage (currentMessages (state w) ++ [sentMessage clk w])).
      { apply Forall_app. split; [assumption|].
        constructor; [exact Hclk | constructor]. }
      unfold validWorld. simpl. split; [assumption|]. split; [assumption|].
      apply Forall_app. split; [assumption|].
      constructor; [|constructor].
      split; [exact Hclk|]. split; assumption.
  - unfold fireTimer. rewrite Hp. rewrite Hp in Ht.
    inversion Ht as [|? ? (Hpu & Hpm & Hph) Hrest]; subst.
    destruct Henv as (Hrd & Hcd).
    assert (Hr : Forall validMessage (repliedMessages p env)).
    { unfold repliedMessages. apply Forall_app. split; [assumption|].
      constructor; [exact Hrd | constructor]. }
    destruct (isActive (p_activeChat p)) eqn:Ha.
    + rewrite botReply_update by assumption. unfold validWorld. simpl.
      repeat split; try assumption.
      unfold validHistory. rewrite Forall_map.
      eapply Forall_impl; [exact Hph|]. intros c. now apply rewritten_valid.
    + rewrite botReply_new by assumption. unfold validWorld. simpl.
      repeat split; try assumption.
      constructor; [|assumption]. split; assumption.
  - unfold validWorld. simpl. repeat split; [assumption | constructor | assumption].
  - unfold loadChat.
    destruct (find _ _) as [c|] eqn:Hf; [|repeat split; assumption].
    apply find_some in Hf as (Hinc & _).
    unfold validWorld. simpl. repeat split; try assumption.
    unfold validHistory in Hh. rewrite Forall_forall in Hh.
    apply list_elem_of_In in Hinc. now destruct (Hh c Hinc).
  - repeat split; assumption.
Qed.

Lemma reachable_valid (b : Browser) (w : World) : reachable b w -> validWorld w.
Proof.
  induction 1 as [w Hload Hu | w w' Hr IH Hs].
  - now apply (loadEffect_valid b).
  - now apply (step_valid w w').
Qed.

(** The count of a session read from the storage is a safe integer. *)
Lemma toUser_valid (j : json) (u : UserData) :
  safe j = true -> toUser j = Returns u -> validUser u.
Proof.
  unfold toUser. destruct j as [| | | | |fs]; try discriminate.
  intros Hs. simpl in Hs. binds.
  destruct (getField "username" fs) as [[| | |n| |]|]; try discriminate.
  destruct (getField "role" fs) as [[| | |r| |]|]; try discriminate.
  destruct (getField "questionsToday" fs) as [[| |q| | |]|] eqn:Hq;
    try discriminate.
  destruct (hasKeys _ fs); try discriminate.
  intros [= <-]. apply (getField_safe _ _ _ Hs) in Hq. simpl in Hq.
  apply andb_true_iff in Hq. destruct Hq as [H1 H2].
  apply Z.leb_le in H1, H2. unfold validUser. simpl. lia.
Qed.

Lemma loadEffect_user_valid (b : Browser) (w : World) (u : UserData) :
  loadEffect b = Returns w -> user (state w) = Some u -> validUser u.
Proof.
  unfold loadEffect. destruct (negb _).
  - intros [= <-]. discriminate.
  - binds. destruct (JSON.parse _) as [j| |] eqn:Hj; try discriminate.
    destruct (toUser j) as [u'| |] eqn:Hu; try discriminate. cbv zeta.
    apply parse_safe in Hj. apply (toUser_valid j u' Hj) in Hu.
    destruct (present _).
    + destruct (JSON.parse _) as [j'| |]; try discriminate.
      destruct (toHistory j') as [h| |]; try discriminate.
      intros [= <-]. simpl. now intros [= <-].
    + intros [= <-]. simpl. now intros [= <-].
Qed.

(** The count of the mounted page goes from a safe integer up to 2^53 at
    most, where adding one does not change it any more. *)
Lemma reachable_count (b : Browser) (w : World) :
  reachable b w ->
  forall u, user (state w) = Some u ->
            - maxSafeInteger <= questionsToday u <= JsNumber.limit.
Proof.
  intros Hr.
  induction Hr as [w Hload _ | w w' Hr IH Hs]; intros u Hu.
  - pose proof (loadEffect_user_valid b w u Hload Hu) as Hv.
    unfold validUser, maxSafeInteger, JsNumber.limit in *. lia.
  - destruct Hs as
      [m w Hc Hl | clk w Hl Hclk | env w p rest Hp Hpick Henv | w | chatId w Hin | sb w].
    + now apply IH.
    + destruct (send_cases clk w) as [Heq | (u1 & Hu1 & Hc & Hb)].
      * rewrite Heq in Hu. now apply IH.
      * rewrite (send_accepted clk w u1 Hu1 Hc Hb) in Hu.
        injection Hu as <-. specialize (IH u1 Hu1).
        unfold bumped. cbn [questionsToday].
        unfold maxSafeInteger, JsNumber.limit in *.
        destruct (add_one_cases (questionsToday u1)) as [[H1 H2] | [H1 H2]];
          unfold JsNumber.limit in *; try lia.
    + unfold fireTimer in Hu. rewrite Hp in Hu.
      destruct (isActive (p_activeChat p)) eqn:Ha.
      * rewrite botReply_update in Hu by assumption. now apply IH.
      * rewrite botReply_new in Hu by assumption. now apply IH.
    + now apply IH.
    + unfold loadChat in Hu. destruct (find _ _); now apply IH.
    + now apply IH.
Qed.

End Validity.

(** ** The round trip of the transcripts *)

Module RoundTrip.
Import JsString JSON Blob Chat StringFacts ChatFacts JsonFacts BlobFacts.
Import Persistence Validity.

(** C7.  A list of transcripts whose Dates are valid is read back as it
    was written: parsing the blob and re-hydrating its Dates gives the same
    transcripts in the same order, each with the same messages in the same
    order, identifiers, bodies and time values (which count milliseconds)
    included.  Every list of transcripts the mounted page ever holds is such
    a list.  And the load effect of the page finds a list that was persisted
    under the key of the session. *)
Theorem history_round_trip :
  (forall h : list ChatHistory.t,
      validHistory h ->
      (JSON.parse (stringify (ofHistory h)) ≫= toHistory) = Returns h)
  /\ (forall (b : Browser) (w : World),
        reachable b w ->
        (JSON.parse (stringify (ofHistory (chatHistory (state w)))) ≫= toHistory)
        = Returns (chatHistory (state w)))
  /\ (forall (h : list ChatHistory.t) (b : Browser) (u : UserData),
        validHistory h ->
        validUser u ->
        localStorage b !! "user" = Some (stringify (ofUser u)) ->
        loadEffect (setItem (historyKey u) (stringify (ofHistory h)) b) =
          Returns
            (mkWorld (setChatHistory h (setUser (Some u) initialState))
                     (setItem (historyKey u) (stringify (ofHistory h)) b) [])).
Proof.
  split; [exact history_blob|]. split.
  - intros b w Hr. apply history_blob.
    now destruct (reachable_valid b w Hr).
  - intros h b u Hv Hu Hb.
    rewrite (load_saved _ (stringify (ofUser u)) u (stringify (ofHistory h))).
    + rewrite parse_stringify by apply safe_ofHistory.
      binds. rewrite toHistory_ofHistory by assumption. reflexivity.
    + rewrite getItem_setItem_ne by apply historyKey_not_user. assumption.
    + apply truthy_stringify.
    + now apply user_blob.
    + apply getItem_setItem.
    + apply truthy_stringify.
Qed.

Lemma history_round_trip_witness :
  (JSON.parse (stringify (ofHistory Samples.sampleHistory)) ≫= toHistory) =
    Returns Samples.sampleHistory.
Proof.
  apply (proj1 history_round_trip Samples.sampleHistory).
  repeat constructor; vm_compute; discriminate.
Defined.

End RoundTrip.

(** ** The quota *)

Module Quota.
Import JsString JSON Chat ChatFacts.

(** C1.  A session whose role is not "admin" has exactly ten questions:
    while [questionsToday] is below 10 a send with a non-blank text is
    accepted (the message is appended and the count grows by one); once it
    is 10 or more a send is a no-op; and of any run of non-blank sends
    started at count 0 exactly the first ten are accepted, the count
    staying at 10 afterwards. *)
Theorem non_admin_quota (w : World) (u : UserData) :
  user (state w) = Some u ->
  role u <> "admin" ->
  (forall clk,
      questionsToday u < 10 ->
      trim (currentMessage (state w)) <> "" ->
      currentMessages (state (handleSendMessage clk w)) =
        currentMessages (state w) ++ [sentMessage clk w]
      /\ user (state (handleSendMessage clk w)) = Some (bumped u))
  /\ (forall clk, 10 <= questionsToday u -> handleSendMessage clk w = w)
  /\ (forall l,
        questionsToday u = 0 ->
        timers w = [] ->
        Forall (fun x => trim (bodyOf x) <> "") l ->
        userContents (currentMessages (state (turns l w))) =
          userContents (currentMessages (state w)) ++ take 10 (map bodyOf l)
        /\ (questionsToday <$> user (state (turns l w))) =
             Some (Z.of_nat (Nat.min (length l) 10))).
Proof.
  intros Hu Hr. split; [|split].
  - intros clk Hq Hb.
    assert (Hc : canAskQuestion (Some u) = true)
      by (rewrite canAsk_other by assumption; now apply Z.ltb_lt).
    rewrite (send_accepted clk w u Hu Hc Hb). split; reflexivity.
  - intros clk Hq. apply send_rejected.
    rewrite Hu, canAsk_other by assumption. now apply Z.ltb_ge.
  - intros l Hz Ht Hall.
    destruct (turns_quota l w u Hu Hr) as (Hc & Hq & _);
      [rewrite Hz; discriminate | exact Ht | exact Hall |].
    rewrite Hz in Hc, Hq. split; [exact Hc|].
    rewrite Hq. reflexivity.
Qed.

Lemma non_admin_quota_witness :
  userContents (currentMessages (state (turns Samples.elevenTurns (Samples.afterLogin "viewer")))) =
    ["one"; "two"; "three"; "four"; "five"; "six"; "seven"; "eight"; "nine"; "ten"]
  /\ (questionsToday <$> user (state (turns Samples.elevenTurns (Samples.afterLogin "viewer")))) =
       Some 10.
Proof.
  destruct (non_admin_quota (Samples.afterLogin "viewer")
              (mkUserData "viewer" "viewer" 0)) as (_ & _ & H).
  - reflexivity.
  - discriminate.
  - apply (H Samples.elevenTurns).
    + reflexivity.
    + reflexivity.
    + repeat constructor; discriminate.
Defined.

(** C2.  A session whose role is "admin" is never refused for its count:
    whatever [questionsToday] is, a send with a non-blank text is accepted,
    and every send of a run of non-blank sends (15 of them, or any other
    number) is accepted. *)
Theorem admin_unlimited (w : World) (u : UserData) :
  user (state w) = Some u ->
  role u = "admin" ->
  (forall clk,
      trim (currentMessage (state w)) <> "" ->
      handleSendMessage clk w <> w
      /\ currentMessages (state (handleSendMessage clk w)) =
           currentMessages (state w) ++ [sentMessage clk w])
  /\ (forall l,
        timers w = [] ->
        Forall (fun x => trim (bodyOf x) <> "") l ->
        userContents (currentMessages (state (turns l w))) =
          userContents (currentMessages (state w)) ++ map bodyOf l
        /\ length (currentMessages (state (turns l w))) =
             (length (currentMessages (state w)) + 2 * length l)%nat).
Proof.
  intros Hu Hr. pose proof (canAsk_admin u Hr) as Hc. split.
  - intros clk Ht. split.
    + now apply (accepted_changes clk w u).
    + now rewrite (send_accepted clk w u).
  - intros l Hti Hall.
    destruct (turns_admin l w u Hu Hr Hti Hall) as (H1 & H2 & _). auto.
Qed.

Lemma admin_unlimited_witness :
  userContents (currentMessages (state (turns Samples.fifteenTurns (Samples.afterLogin "Admin")))) =
    map bodyOf Samples.fifteenTurns
  /\ length (currentMessages (state (turns Samples.fifteenTurns (Samples.afterLogin "Admin")))) =
       30%nat.
Proof.
  destruct (admin_unlimited (Samples.afterLogin "Admin")
              (mkUserData "Admin" "admin" 0)) as (_ & H).
  - reflexivity.
  - reflexivity.
  - apply (H Samples.fifteenTurns).
    + reflexivity.
    + repeat constructor; discriminate.
Defined.



(** The count of an admin stored as 2^53 - 1: the first send makes it 2^53,
    the second is accepted as well and leaves it at 2^53. *)
Lemma admin_count_saturates :
  let b := mkBrowser
             {[ "user" := stringify (Blob.ofUser
                                       (mkUserData "admin" "admin" maxSafeInteger)) ]}
             ∅ "/chat" [] in
  match loadEffect b with
  | Returns w =>
      map (fun w' => (questionsToday <$> user (state w'),
                      length (currentMessages (state w'))))
          [w;
           turns [Samples.say 1 "one"] w;
           turns [Samples.say 1 "one"; Samples.say 2 "two"] w]
  | _ => []
  end =
    [(Some 9007199254740991, 0%nat);
     (Some 9007199254740992, 2%nat);
     (Some 9007199254740992, 4%nat)].
Proof. vm_compute. reflexivity. Qed.


End Quota.

(** ** Titles *)

Module Title.
Import JsString Chat StringFacts.

(** C6.  The title derived from a body is the body itself when the body
    has at most 30 characters, and its first 30 characters followed by
    three dots when it has 31 or more. *)
Theorem chatTitle_boundary (body : string) :
  ((String.length body <= 30)%nat -> chatTitle body = body)
  /\ ((31 <= String.length body)%nat ->
      exists p r, body = p +:+ r
                  /\ String.length p = 30%nat
                  /\ chatTitle body = p +:+ "...").
Proof.
  unfold chatTitle, slice. split; intros H.
  - rewrite substring_whole by (simpl; lia).
    destruct (Nat.ltb_spec 30 (String.length body)); [lia|].
    apply append_nil_r.
  - destruct (substring_prefix 30 body) as (r & Hr & Hl); [lia|].
    exists (substring 0 30 body), r. repeat split; auto.
    destruct (Nat.ltb_spec 30 (String.length body)); [reflexivity | lia].
Qed.

Lemma chatTitle_boundary_witness :
  chatTitle Samples.thirty = Samples.thirty
  /\ exists p r, Samples.thirtyOne = p +:+ r
                 /\ String.length p = 30%nat
                 /\ chatTitle Samples.thirtyOne = p +:+ "...".
Proof.
  split.
  - apply (proj1 (chatTitle_boundary Samples.thirty)). simpl. lia.
  - apply (proj2 (chatTitle_boundary Samples.thirtyOne)). simpl. lia.
Defined.

End Title.

(** ** Logging out *)

Module Logout.
Import JsString Chat ChatFacts.

(** C10.  [handleLogout] deletes the "user" item of the local storage and
    nothing else: the transcript blob of every user and the cookie jar are
    what they were, so [isAuthenticated] answers as before, and the state
    variables of the page are untouched. *)
Theorem logout_frame (w : World) :
  localStorage (browser (handleLogout w)) =
    delete "user" (localStorage (browser w))
  /\ (forall u : UserData,
        localStorage (browser (handleLogout w)) !! historyKey u =
          localStorage (browser w) !! historyKey u)
  /\ cookies (browser (handleLogout w)) = cookies (browser w)
  /\ authService.isAuthenticated (cookies (browser (handleLogout w))) =
       authService.isAuthenticated (cookies (browser w))
  /\ state (handleLogout w) = state w
  /\ timers (handleLogout w) = timers w.
Proof.
  unfold handleLogout. simpl. repeat split.
  intros u. apply lookup_delete_ne. intros H. symmetry in H.
  now apply historyKey_not_user in H.
Qed.

End Logout.

(** ** The token and the routes *)

Module RouteFacts.
Import JsString JSON Chat App ChatFacts.

Lemma routes_root (rootAuth : bool) (jar : gmap string string) :
  routes rootAuth jar "/" = Some (Navigate (if rootAuth then "/chat" else "/login")).
Proof. reflexivity. Qed.

Lemma routes_login (rootAuth : bool) (jar : gmap string string) :
  routes rootAuth jar "/login" = Some (Renders LoginPage).
Proof. reflexivity. Qed.

Lemma routes_chat (rootAuth : bool) (jar : gmap string string) :
  routes rootAuth jar "/chat" = Some (ProtectedRoute ChatPage jar).
Proof. reflexivity. Qed.

(** The chat page is an element of the routes only behind the cookie. *)
Lemma routes_chat_page (rootAuth : bool) (jar : gmap string string) (path : string) :
  routes rootAuth jar path = Some (Renders ChatPage) ->
  authService.isAuthenticated jar = true.
Proof.
  unfold routes, ProtectedRoute.
  repeat (destruct (String.eqb _ _); try discriminate).
  destruct (authService.isAuthenticated jar); [reflexivity | discriminate].
Qed.

Lemma settle_login (f : nat) (rootAuth : bool) (b : Browser) :
  location b = "/login" -> settle (S f) rootAuth b = Some LoginView.
Proof. intros H. simpl. rewrite H. reflexivity. Qed.

Lemma settle_root (f : nat) (rootAuth : bool) (b : Browser) :
  location b = "/" ->
  settle (S f) rootAuth b =
    settle f rootAuth (navigate (if rootAuth then "/chat" else "/login") b).
Proof. intros H. simpl. rewrite H. reflexivity. Qed.

Lemma settle_chat_denied (f : nat) (rootAuth : bool) (b : Browser) :
  location b = "/chat" ->
  authService.isAuthenticated (cookies b) = false ->
  settle (S f) rootAuth b = settle f rootAuth (navigate "/login" b).
Proof.
  intros H Ha. simpl. rewrite H, routes_chat. unfold ProtectedRoute.
  rewrite Ha. reflexivity.
Qed.

Lemma settle_chat_mount (f : nat) (rootAuth : bool) (b : Browser) :
  location b = "/chat" ->
  authService.isAuthenticated (cookies b) = true ->
  settle (S f) rootAuth b =
    match loadEffect b with
    | Returns w =>
        match user (state w) with
        | Some _ => Some (ChatView w)
        | None => settle f rootAuth (browser w)
        end
    | Throws e => Some (Crashed e)
    | Unmodelled => Some Undescribed
    end.
Proof.
  intros H Ha. simpl. rewrite H, routes_chat. unfold ProtectedRoute.
  rewrite Ha. reflexivity.
Qed.

(** X2.  Without a token cookie the chat page is never shown, whatever the
    path and whatever the root route was built with; from "/" and from
    "/chat" the navigation comes to rest on the login page. *)
Theorem no_cookie_no_chat (rootAuth : bool) (b : Browser) :
  authService.isAuthenticated (cookies b) = false ->
  (forall (fuel : nat) (w : World), settle fuel rootAuth b <> Some (ChatView w))
  /\ (location b = "/" \/ location b = "/chat" ->
      forall k, settle (3 + k) rootAuth b = Some LoginView).
Proof.
  intros Ha. split.
  - intros fuel. revert b Ha. induction fuel as [|f IH]; intros b Ha w.
    + discriminate.
    + simpl. destruct (routes rootAuth (cookies b) (location b)) as [[[| |]|to]|] eqn:Hr;
        try discriminate.
      * apply routes_chat_page in Hr. congruence.
      * apply IH. exact Ha.
  - intros [Hl|Hl] k.
    + change (3 + k)%nat with (S (S (S k))). rewrite settle_root by assumption.
      destruct rootAuth.
      * rewrite settle_chat_denied by (auto). now rewrite settle_login.
      * now rewrite settle_login.
    + change (3 + k)%nat with (S (S (S k))).
      rewrite settle_chat_denied by assumption. now rewrite settle_login.
Qed.

Lemma no_cookie_no_chat_witness :
  settle 3 true Cases.visitor = Some LoginView.
Proof.
  apply (proj2 (no_cookie_no_chat true Cases.visitor
                  ltac:(vm_compute; reflexivity))
           (or_intror eq_refl) 0%nat).
Defined.

Lemma loadEffect_session (b : Browser) (w : World) :
  present (getItem "user" b) = true ->
  loadEffect b = Returns w ->
  is_Some (user (state w)) /\ browser w = b.
Proof.
  intros Hp. unfold loadEffect. rewrite Hp. simpl negb. cbv match.
  cbv [mbind mret outcome_bind outcome_ret obind]. cbv beta.
  destruct (JSON.parse _) as [j| |]; try discriminate.
  destruct (Blob.toUser j) as [u| |]; try discriminate. cbv zeta.
  destruct (present (getItem (historyKey u) b)).
  - destruct (JSON.parse _) as [j'| |]; try discriminate.
    destruct (Blob.toHistory j') as [h| |]; try discriminate.
    intros [= <-]. simpl. eauto.
  - intros [= <-]. simpl. eauto.
Qed.

Lemma login_stores (username password : string) (b : Browser) :
  truthy username = true ->
  truthy password = true ->
  getItem "user" (Login.handleLogin username password b) =
    Some (stringify (Blob.ofUser (mkUserData username (toLowerCase username) 0))).
Proof.
  intros Hu Hp. unfold Login.handleLogin. rewrite Hu, Hp.
  apply lookup_insert_eq.
Qed.

(** X3.  A login does not touch the cookie jar, so it does not open the
    chat page by itself: without a token cookie the navigation to "/chat"
    that follows a successful login comes to rest on the login page again;
    with one, the chat page is mounted on the session just stored. *)
Theorem login_needs_cookie (username password : string) (rootAuth : bool)
        (b : Browser) :
  truthy username = true ->
  truthy password = true ->
  cookies (Login.handleLogin username password b) = cookies b
  /\ (authService.isAuthenticated (cookies b) = false ->
      forall k, settle (2 + k) rootAuth (Login.handleLogin username password b) =
                  Some LoginView)
  /\ (authService.isAuthenticated (cookies b) = true ->
      forall k w,
        loadEffect (Login.handleLogin username password b) = Returns w ->
        settle (1 + k) rootAuth (Login.handleLogin username password b) =
          Some (ChatView w)).
Proof.
  intros Hu Hp.
  assert (Hc : cookies (Login.handleLogin username password b) = cookies b).
  { unfold Login.handleLogin. rewrite Hu, Hp. reflexivity. }
  assert (Hl : location (Login.handleLogin username password b) = "/chat").
  { unfold Login.handleLogin. rewrite Hu, Hp. reflexivity. }
  split; [exact Hc|]. split.
  - intros Ha k. change (2 + k)%nat with (S (S k)).
    rewrite settle_chat_denied by (rewrite ?Hc; assumption).
    now rewrite settle_login.
  - intros Ha k w Hw. change (1 + k)%nat with (S k).
    rewrite settle_chat_mount by (rewrite ?Hc; assumption).
    rewrite Hw.
    destruct (loadEffect_session (Login.handleLogin username password b) w)
      as ([u Hsome] & _); [|exact Hw|].
    + rewrite (login_stores username password b Hu Hp).
      apply BlobFacts.truthy_stringify.
    + now rewrite Hsome.
Qed.

Lemma login_needs_cookie_witness :
  settle 2 false (Login.handleLogin "viewer" "secret" Samples.emptyBrowser) =
    Some LoginView.
Proof.
  apply (proj1 (proj2 (login_needs_cookie "viewer" "secret" false
                         Samples.emptyBrowser eq_refl eq_refl))
           ltac:(vm_compute; reflexivity) 0%nat).
Defined.

(** With the cookie and without a session, "/chat" and "/" send to each
    other. *)
Lemma no_session_loop (fuel : nat) :
  forall b : Browser,
    authService.isAuthenticated (cookies b) = true ->
    present (getItem "user" b) = false ->
    location b = "/" \/ location b = "/chat" ->
    settle fuel true b = None.
Proof.
  induction fuel as [|f IH]; intros b Ha Hp Hl; [reflexivity|].
  destruct Hl as [Hl|Hl].
  - rewrite settle_root by assumption. apply IH; auto.
  - rewrite settle_chat_mount by assumption.
    unfold loadEffect. rewrite Hp. simpl. apply IH; auto.
Qed.

Lemma no_session_login (k : nat) (b : Browser) :
  authService.isAuthenticated (cookies b) = true ->
  present (getItem "user" b) = false ->
  (location b = "/" -> settle (2 + k) false b = Some LoginView)
  /\ (location b = "/chat" -> settle (3 + k) false b = Some LoginView).
Proof.
  intros Ha Hp. split; intros Hl.
  - change (2 + k)%nat with (S (S k)). rewrite settle_root by assumption.
    now rewrite settle_login.
  - change (3 + k)%nat with (S (S (S k))).
    rewrite settle_chat_mount by assumption.
    unfold loadEffect. rewrite Hp. simpl negb. cbv match.
    change (browser (mkWorld initialState (navigate "/" b) [])) with (navigate "/" b).
    change (user (state (mkWorld initialState (navigate "/" b) []))) with (@None UserData).
    cbv match. rewrite settle_root by reflexivity. now rewrite settle_login.
Qed.

(** X4.  A token cookie without a session item does not open the chat
    page: the chat page is mounted, finds no session and navigates to "/".
    When the root route was built without the cookie, the navigation comes
    to rest on the login page; when it was built with the cookie, "/"
    navigates to "/chat" again and the navigation never comes to rest. *)
Theorem cookie_without_session (b : Browser) :
  authService.isAuthenticated (cookies b) = true ->
  present (getItem "user" b) = false ->
  location b = "/chat" ->
  (forall k, settle (3 + k) false b = Some LoginView)
  /\ (forall fuel, settle fuel true b = None).
Proof.
  intros Ha Hp Hl. split.
  - intros k. now apply (proj2 (no_session_login k b Ha Hp)).
  - intros fuel. apply no_session_loop; auto.
Qed.

Lemma cookie_without_session_witness :
  settle 3 false Cases.tokenOnly = Some LoginView
  /\ settle 50 true Cases.tokenOnly = None.
Proof.
  destruct (cookie_without_session Cases.tokenOnly
              ltac:(vm_compute; reflexivity) ltac:(vm_compute; reflexivity)
              eq_refl) as (H1 & H2).
  split; [apply (H1 0%nat) | apply H2].
Defined.

(** X5.  After a logout the session item is gone and the cookie is not:
    when the page was opened with the token cookie, the navigation to "/"
    that ends [handleLogout] never comes to rest, "/" and "/chat" sending
    to each other; when the cookie was set later, it ends on the login
    page. *)
Theorem logout_navigation (w : World) :
  authService.isAuthenticated (cookies (browser w)) = true ->
  (forall fuel, settle fuel true (browser (handleLogout w)) = None)
  /\ (forall k, settle (2 + k) false (browser (handleLogout w)) = Some LoginView).
Proof.
  intros Ha.
  assert (Hp : present (getItem "user" (browser (handleLogout w))) = false).
  { unfold handleLogout, getItem. simpl. now rewrite lookup_delete_eq. }
  split.
  - intros fuel. apply no_session_loop; [exact Ha | exact Hp | now left].
  - intros k.
    now apply (proj1 (no_session_login k (browser (handleLogout w)) Ha Hp)).
Qed.

Lemma logout_navigation_witness :
  settle 50 true (browser (handleLogout Cases.memberPage)) = None.
Proof.
  apply (proj1 (logout_navigation Cases.memberPage
                  ltac:(vm_compute; reflexivity))).
Defined.

End RouteFacts.

(** ** Signing up *)

Module SignupFacts.
Import JsString JSON Chat App Signup ChatFacts RouteFacts.

(** The text of a truthy token is not empty. *)
Lemma tokenText_truthy (v : json) (token : string) :
  truthyJson v = true -> tokenText v = Some token -> truthy token = true.
Proof.
  destruct v as [|[]|n|s| |]; simpl; try discriminate.
  - now intros _ [= <-].
  - intros _ [= <-].
    destruct (JsonFacts.numberToString_head n "") as (c & r & Hc & _).
    rewrite StringFacts.append_nil_r in Hc. now rewrite Hc.
  - now intros H [= <-].
Qed.

(** The two ways [handleSignup] ends: a toast only, or the token is set
    and the page navigates. *)
Lemma signup_cases (role : string) (r : fetched) (b b' : Browser) :
  handleSignup role r b = Returns b' ->
  (exists t, b' = toast t b /\ t <> "Signup successful!")
  \/ (exists body fs v token,
        r = Response true body
        /\ truthy role = true
        /\ JSON.parse body = Returns (JObject fs)
        /\ getField "token" fs = Some v
        /\ truthyJson v = true
        /\ tokenText v = Some token
        /\ b' = navigate "/chat" (toast "Signup successful!" (setToken token b))).
Proof.
  unfold handleSignup. destruct (truthy role) eqn:Hr; simpl negb; cbv match.
  2:{ intros [= <-]. left. eexists. split; [reflexivity | discriminate]. }
  destruct r as [|ok body].
  { intros [= <-]. left. eexists. split; [reflexivity | discriminate]. }
  destruct (JSON.parse body) as [[|bo|n|s|l|fs]|e|] eqn:Hp; try discriminate;
    try (intros [= <-]; left; eexists; split; [reflexivity | discriminate]).
  destruct ok; simpl andb.
  2:{ intros [= <-]. left. eexists. split; [reflexivity | discriminate]. }
  destruct (getField "token" fs) as [v|] eqn:Hg; simpl.
  2:{ intros [= <-]. left. eexists. split; [reflexivity | discriminate]. }
  destruct (truthyJson v) eqn:Hv.
  2:{ intros [= <-]. left. eexists. split; [reflexivity | discriminate]. }
  destruct (tokenText v) as [token|] eqn:Ht; [|discriminate].
  intros [= <-]. right. exists body, fs, v, token. auto 10.
Qed.

Lemma signup_authenticated (token : string) (b : Browser) :
  truthy token = true ->
  authService.isAuthenticated
    (cookies (navigate "/chat"
                (toast "Signup successful!" (setToken token b)))) = true.
Proof.
  intros Ht. unfold navigate, toast, setToken. simpl cookies.
  unfold authService.isAuthenticated, authService.getToken,
    authService.setToken.
  now rewrite lookup_insert_eq.
Qed.



(** X7.  A signup alone does not open the chat page.  After a successful
    signup in a browser without a session item the chat page is mounted,
    finds no session and navigates to "/": the navigation comes to rest on
    the login page when the page was opened without the token cookie, and
    never comes to rest when it was opened with one. *)
Theorem signup_without_session (role : string) (r : fetched) (b b' : Browser) :
  handleSignup role r b = Returns b' ->
  toasts b' = toasts b ++ ["Signup successful!"] ->
  present (getItem "user" b) = false ->
  (forall k, settle (3 + k) false b' = Some LoginView)
  /\ (forall fuel, settle fuel true b' = None).
Proof.
  intros H Hl Hp. destruct (signup_cases role r b b' H)
    as [(t & -> & Hne) | (body & fs & v & token & Hr & Hro & _ & _ & Hv & Ht & ->)].
  - unfold toast in Hl. simpl in Hl. apply app_inv_head in Hl.
    congruence.
  - pose proof (signup_authenticated token b (tokenText_truthy v token Hv Ht)) as Ha.
    split.
    + intros k. now apply (proj2 (no_session_login k _ Ha Hp)).
    + intros fuel. apply no_session_loop; [exact Ha | exact Hp | now right].
Qed.

Lemma signup_without_session_witness :
  settle 3 false
    (navigate "/chat"
       (toast "Signup successful!" (setToken "t0k3n" Samples.emptyBrowser))) =
    Some LoginView.
Proof.
  apply (proj1 (signup_without_session "viewer" (Response true Cases.tokenBody)
                  Samples.emptyBrowser
                  (navigate "/chat"
                     (toast "Signup successful!"
                        (setToken "t0k3n" Samples.emptyBrowser)))
                  ltac:(vm_compute; reflexivity)
                  ltac:(vm_compute; reflexivity)
                  ltac:(vm_compute; reflexivity)) 0%nat).
Defined.

End SignupFacts.

(** ** The page and what it has stored *)

Module SyncFacts.
Import JsString JSON Blob Chat Sync ChatView Site.
Import StringFacts ChatFacts JsonFacts BlobFacts Persistence Transcripts Validity.
Import RouteFacts.

Lemma load_absent (b : Browser) (blob : string) (u : UserData) :
  getItem "user" b = Some blob ->
  truthy blob = true ->
  (JSON.parse blob ≫= toUser) = Returns u ->
  present (getItem (historyKey u) b) = false ->
  loadEffect b = Returns (mkWorld (setUser (Some u) initialState) b []).
Proof.
  intros Hg Ht Hp Hs. rewrite (load_user b blob Hg Ht).
  revert Hp. binds. destruct (JSON.parse blob) as [j| |]; try discriminate.
  destruct (toUser j) as [u'| |]; try discriminate.
  intros [= ->]. cbv zeta. now rewrite Hs.
Qed.

(** What the load effect has read when it mounts the page. *)
Lemma loadEffect_mounted (b : Browser) (w : World) (u : UserData) :
  loadEffect b = Returns w ->
  user (state w) = Some u ->
  browser w = b
  /\ timers w = []
  /\ readsUser b u
  /\ readsHistory b u (chatHistory (state w)).
Proof.
  unfold loadEffect. destruct (present (getItem "user" b)) eqn:Hp; simpl negb;
    cbv match.
  2:{ intros [= <-]. discriminate. }
  destruct (getItem "user" b) as [blob|] eqn:Hg; [|discriminate Hp].
  simpl in Hp. simpl default. binds.
  destruct (JSON.parse blob) as [j| |] eqn:Hj; try discriminate.
  destruct (toUser j) as [u'| |] eqn:Hu'; try discriminate. cbv zeta.
  assert (Hread : (JSON.parse blob ≫= toUser) = Returns u').
  { rewrite Hj. binds. exact Hu'. }
  destruct (present (getItem (historyKey u') b)) eqn:Hs.
  - destruct (getItem (historyKey u') b) as [saved|] eqn:Hgs; [|discriminate Hs].
    simpl in Hs. simpl default.
    destruct (JSON.parse saved) as [j'| |] eqn:Hj'; try discriminate.
    destruct (toHistory j') as [h| |] eqn:Hh; try discriminate.
    intros [= <-]. simpl. intros [= <-].
    repeat split.
    + exists blob. auto.
    + right. exists saved. repeat split; auto.
      rewrite Hj'. binds. exact Hh.
  - intros [= <-]. simpl. intros [= <-].
    repeat split.
    + exists blob. auto.
    + left. auto.
Qed.

Lemma historyKey_username (u u' : UserData) :
  username u = username u' -> historyKey u = historyKey u'.
Proof. unfold historyKey. now intros ->. Qed.

Lemma readsHistory_other_item (b : Browser) (u : UserData)
      (h : list ChatHistory.t) (v : string) :
  readsHistory b u h -> readsHistory (setItem "user" v b) u h.
Proof.
  unfold readsHistory.
  rewrite (getItem_setItem_ne "user" (historyKey u) v b)
    by (intros H; symmetry in H; now apply historyKey_not_user in H).
  auto.
Qed.

Lemma readsUser_other_item (b : Browser) (u u' : UserData) (v : string) :
  readsUser b u -> readsUser (setItem (historyKey u') v b) u.
Proof.
  unfold readsUser.
  rewrite (getItem_setItem_ne (historyKey u') "user" v b)
    by apply historyKey_not_user.
  auto.
Qed.

Lemma readsHistory_written (b : Browser) (u : UserData) (h : list ChatHistory.t) :
  validHistory h ->
  readsHistory (setItem (historyKey u) (stringify (ofHistory h)) b) u h.
Proof.
  intros Hv. right. exists (stringify (ofHistory h)).
  split; [apply getItem_setItem|]. split; [apply truthy_stringify|].
  now apply history_blob.
Qed.

Lemma step_synced (w w' : World) :
  synced w -> validWorld w' -> step w w' -> synced w'.
Proof.
  intros (u & Hu & Hru & Hrh & Hti) (Hvh & _ & _) Hstep.
  destruct Hstep as
    [m w Hc Hl | clk w Hl Hclk | env w p rest Hp Hpick Henv | w | chatId w Hin | sb w].
  - exists u. auto.
  - destruct (send_cases clk w) as [Heq | (u1 & Hu1 & Hc & Hb)].
    + rewrite Heq. exists u. auto.
    + assert (u1 = u) by congruence. subst u1.
      rewrite (send_accepted clk w u Hu Hc Hb) in *.
      exists (bumped u). split; [reflexivity|]. split; [|split].
      * intros Hv. exists (stringify (ofUser (bumped u))).
        split; [apply getItem_setItem|]. split; [apply truthy_stringify|].
        now apply user_blob.
      * apply (readsHistory_other_item (browser w) u). exact Hrh.
      * apply Forall_app. split; [exact Hti|].
        constructor; [reflexivity | constructor].
  - unfold fireTimer in *. rewrite Hp in *.
    inversion Hti as [|? ? Hpu Hrest]; subst.
    simpl in Hpu.
    destruct (isActive (p_activeChat p)) eqn:Ha.
    + rewrite botReply_update in * by assumption. simpl in Hvh.
      exists u. split; [exact Hu|]. split; [|split].
      * intros Hv. apply readsUser_other_item. now apply Hru.
      * rewrite (historyKey_username (p_user p) u Hpu).
        now apply readsHistory_written.
      * exact Hrest.
    + rewrite botReply_new in * by assumption. simpl in Hvh.
      exists u. split; [exact Hu|]. split; [|split].
      * intros Hv. apply readsUser_other_item. now apply Hru.
      * rewrite (historyKey_username (p_user p) u Hpu).
        now apply readsHistory_written.
      * exact Hrest.
  - exists u. auto.
  - unfold loadChat. destruct (find _ _); exists u; auto.
  - exists u. auto.
Qed.

Lemma reachable_synced (b : Browser) (w : World) : reachable b w -> synced w.
Proof.
  intros Hr. pose proof (reachable_valid b w Hr) as Hv. revert Hv.
  induction Hr as [w Hload [u Hu] | w w' Hr IH Hs]; intros Hv.
  - destruct (loadEffect_mounted b w u Hload Hu) as (Hb & Ht & Hru & Hrh).
    exists u. rewrite Hb, Ht. repeat split; auto.
  - apply (step_synced w w'); [|exact Hv|exact Hs].
    apply IH. now apply (reachable_valid b).
Qed.

(** What a reload reads, given what the storage holds. *)
Lemma load_reads (b : Browser) (u : UserData) (h : list ChatHistory.t) :
  readsUser b u ->
  readsHistory b u h ->
  loadEffect b =
    Returns (mkWorld (setChatHistory h (setUser (Some u) initialState)) b []).
Proof.
  intros (blob & Hg & Ht & Hp) [(Hs & ->) | (saved & Hs & Hts & Hps)].
  - now rewrite (load_absent b blob u).
  - rewrite (load_saved b blob u saved) by assumption.
    revert Hps. binds. destruct (JSON.parse saved) as [j| |]; try discriminate.
    destruct (toHistory j) as [h'| |]; try discriminate.
    now intros [= ->].
Qed.

(** As long as none of the replies of earlier mounts has come in, the page
    is one of [reachable]. *)
Lemma visits_quiet (b : Browser) (strays0 : list Pending) (s : Site.t) :
  visits b strays0 s ->
  (length (strays s) <= length strays0)%nat
  /\ (strays s = strays0 -> reachable b (page s)).
Proof.
  induction 1 as [w Hload Hu | s w' Hv [IHl IHr] Hstep
                  | s p rest env Hv [IHl IHr] Hs Hpick Henv]; simpl.
  - split; [lia|]. intros _. now apply reach_mount.
  - split; [exact IHl|]. intros Heq.
    apply (reach_step b (page s)); auto.
  - rewrite Hs in IHl. simpl in IHl. split; [lia|].
    intros Heq. rewrite Heq in IHl. lia.
Qed.

(** X8.  A reload loses nothing but the buffer.  At any moment of the
    mounted page at which no reply of an earlier mount has come in since
    the page was mounted, the load effect run on its storage gives the
    session and the list of transcripts the page shows, with an empty
    buffer and no active transcript; the count of the session is a safe
    integer. *)
Theorem reload_shows_the_same (b : Browser) (strays0 : list Pending)
        (s : Site.t) (u : UserData) :
  visits b strays0 s ->
  strays s = strays0 ->
  user (state (page s)) = Some u ->
  validUser u ->
  loadEffect (browser (page s)) = Returns (reloaded (page s)).
Proof.
  intros Hv Hq Hu Hval.
  destruct (visits_quiet b strays0 s Hv) as [_ Hr]. specialize (Hr Hq).
  destruct (reachable_synced b (page s) Hr) as (u' & Hu' & Hru & Hrh & _).
  assert (u' = u) by congruence. subst u'.
  unfold reloaded. rewrite Hu. apply load_reads; auto.
Qed.

(** The sample pages are pages the browser can be in. *)
Lemma sent_reachable : reachable Cases.loginBrowser Cases.sent.
Proof.
  eapply reach_step.
  - eapply reach_step.
    + apply (reach_mount Cases.loginBrowser (Samples.afterLogin "viewer")).
      * vm_compute. reflexivity.
      * eexists. vm_compute. reflexivity.
    + apply (step_type "hello"); vm_compute; reflexivity.
  - apply (step_send (Samples.clock 1) Cases.typed).
    + vm_compute. reflexivity.
    + vm_compute. split; discriminate.
Defined.

Lemma replied_reachable : reachable Cases.loginBrowser Cases.replied.
Proof.
  apply (reach_step _ Cases.sent); [exact sent_reachable|].
  apply (step_reply (Samples.reply 1) Cases.sent Cases.pendingReply []).
  - vm_compute. reflexivity.
  - vm_compute. lia.
  - vm_compute. repeat split; discriminate.
Defined.

(** The pages of [reachable] are those visited with no reply of an earlier
    mount to come. *)
Lemma reachable_visits (b : Browser) (w : World) :
  reachable b w -> visits b [] (Site.make w []).
Proof.
  induction 1 as [w Hload Hu | w w' Hr IH Hs].
  - now apply visit_mount.
  - apply (visit_page b [] (Site.make w [])); assumption.
Qed.

Lemma visits_nil (b : Browser) (s : Site.t) :
  visits b [] s -> strays s = [] /\ reachable b (page s).
Proof.
  intros Hv. destruct (visits_quiet b [] s Hv) as [Hl Hr].
  assert (Hs : strays s = []) by (destruct (strays s); [reflexivity | simpl in Hl; lia]).
  split; [exact Hs | now apply Hr].
Qed.

Lemma reload_shows_the_same_witness :
  loadEffect (browser Cases.replied) = Returns (reloaded Cases.replied).
Proof.
  apply (reload_shows_the_same Cases.loginBrowser [] (Site.make Cases.replied [])
           (mkUserData "viewer" "viewer" 1)
           (reachable_visits _ _ replied_reachable)).
  - reflexivity.
  - vm_compute. reflexivity.
  - vm_compute. split; discriminate.
Defined.

Lemma login_keeps (username password k : string) (b : Browser) :
  truthy username = true ->
  truthy password = true ->
  k <> "user" ->
  getItem k (Login.handleLogin username password b) = getItem k b.
Proof.
  intros Hu Hp Hk. unfold Login.handleLogin. rewrite Hu, Hp.
  apply lookup_insert_ne. congruence.
Qed.

Lemma readsHistory_login (b : Browser) (u : UserData) (h : list ChatHistory.t)
      (username password : string) :
  truthy username = true ->
  truthy password = true ->
  readsHistory b u h ->
  readsHistory (Login.handleLogin username password b) u h.
Proof.
  intros Hn Hp. unfold readsHistory.
  rewrite (login_keeps username password (historyKey u) b Hn Hp)
    by apply historyKey_not_user.
  auto.
Qed.

Lemma readsUser_login (b : Browser) (username password : string) :
  truthy username = true ->
  truthy password = true ->
  readsUser (Login.handleLogin username password b)
            (mkUserData username (toLowerCase username) 0).
Proof.
  intros Hn Hp.
  exists (stringify (ofUser (mkUserData username (toLowerCase username) 0))).
  split; [now apply login_stores|]. split; [apply truthy_stringify|].
  apply user_blob. unfold validUser, maxSafeInteger. simpl. lia.
Qed.

(** The list of transcripts a reply writes has valid Dates. *)
Lemma updatedHistory_valid (p : Pending) (env : ReplyEnv) :
  validPending p -> validEnv env -> validHistory (updatedHistory p env).
Proof.
  intros (Hpu & Hpm & Hph) (Hrd & Hcd).
  assert (Hr : Forall validMessage (repliedMessages p env)).
  { unfold repliedMessages. apply Forall_app. split; [assumption|].
    constructor; [exact Hrd | constructor]. }
  unfold updatedHistory. destruct (isActive (p_activeChat p)).
  - unfold validHistory. rewrite Forall_map.
    eapply Forall_impl; [exact Hph|]. intros c. now apply rewritten_valid.
  - constructor; [|assumption]. split; assumption.
Qed.

(** X9.  Logging out and in again resets the count and keeps the
    transcripts.  The page was mounted with no reply of an earlier mount
    to come.  After [handleLogout] and a login under the same username,
    the load effect mounts the page with the count 0 and the lower-cased
    username as role.  Its list of transcripts is the one the page had,
    when no reply has come in between; when the page was left with a reply
    pending and that reply came in before the new page was mounted, it is
    the list that reply wrote, whether it came in before or after the
    login stored the session. *)
Theorem relogin_resets_quota (b : Browser) (s : Site.t) (u : UserData)
        (password : string) :
  visits b [] s ->
  user (state (page s)) = Some u ->
  truthy (username u) = true ->
  truthy password = true ->
  let gone := browser (handleLogout (page s)) in
  let again := Login.handleLogin (username u) password in
  let session := Some (mkUserData (username u) (toLowerCase (username u)) 0) in
  loadEffect (again gone) =
    Returns (mkWorld (setChatHistory (chatHistory (state (page s)))
                        (setUser session initialState))
                     (again gone) [])
  /\ (forall p env,
        timers (page s) = [p] ->
        (replyPick env < 5)%nat ->
        validEnv env ->
        loadEffect (again (strayReply p env gone)) =
          Returns (mkWorld (setChatHistory (updatedHistory p env)
                              (setUser session initialState))
                           (again (strayReply p env gone)) []))
  /\ (forall p env,
        again (strayReply p env gone) = strayReply p env (again gone)).
Proof.
  intros Hv Hu Hn Hp gone again session.
  assert (Hcomm : forall p env,
             again (strayReply p env gone) = strayReply p env (again gone)).
  { intros p env. unfold again, Login.handleLogin, strayReply.
    rewrite Hn, Hp. unfold navigate, toast, setItem. simpl. f_equal.
    apply insert_insert_ne. intros H. symmetry in H.
    now apply historyKey_not_user in H. }
  destruct (visits_nil b s Hv) as [_ Hr].
  destruct (reachable_synced b (page s) Hr) as (u' & Hu' & _ & Hrh & Hti).
  assert (u' = u) by congruence. subst u'.
  set (u0 := mkUserData (username u) (toLowerCase (username u)) 0).
  assert (Hgone : forall h, readsHistory (browser (page s)) u h ->
                            readsHistory gone u0 h).
  { unfold readsHistory, gone, handleLogout, getItem. simpl.
    change (historyKey u0) with (historyKey u).
    rewrite lookup_delete_ne; [auto|].
    intros H. symmetry in H. now apply historyKey_not_user in H. }
  split; [|split; [|exact Hcomm]].
  - apply load_reads.
    + now apply readsUser_login.
    + apply readsHistory_login; auto.
  - intros p env Ht Hpick Henv.
    rewrite Ht in Hti. inversion Hti as [|? ? Hpu _]; subst.
    pose proof (reachable_valid b (page s) Hr) as (_ & _ & Hvt).
    rewrite Ht in Hvt. inversion Hvt as [|? ? Hvp _]; subst.
    apply load_reads.
    + now apply readsUser_login.
    + apply readsHistory_login; auto.
      unfold strayReply.
      rewrite (historyKey_username (p_user p) u0 Hpu).
      apply readsHistory_written. now apply updatedHistory_valid.
Qed.

Lemma relogin_resets_quota_witness :
  loadEffect (Login.handleLogin "viewer" "again"
                (strayReply Cases.pendingReply (Samples.reply 1)
                   (browser (handleLogout Cases.sent)))) =
    Returns
      (mkWorld
         (setChatHistory (updatedHistory Cases.pendingReply (Samples.reply 1))
            (setUser (Some (mkUserData "viewer" "viewer" 0)) initialState))
         (Login.handleLogin "viewer" "again"
            (strayReply Cases.pendingReply (Samples.reply 1)
               (browser (handleLogout Cases.sent))))
         []).
Proof.
  apply (proj1 (proj2 (relogin_resets_quota Cases.loginBrowser
                         (Site.make Cases.sent [])
                         (mkUserData "viewer" "viewer" 1) "again"
                         (reachable_visits _ _ sent_reachable)
                         ltac:(vm_compute; reflexivity) eq_refl eq_refl))
           Cases.pendingReply (Samples.reply 1)).
  - vm_compute. reflexivity.
  - vm_compute. lia.
  - vm_compute. repeat split; discriminate.
Defined.

(** A reply that comes in after the new page was mounted is written to the
    storage and not shown: the page has no transcript and a reload would
    show one. *)
Lemma stray_after_mount :
  visits (Login.handleLogin "viewer" "again" (browser (handleLogout Cases.sent)))
         [Cases.pendingReply]
         (Site.make (onBrowser (strayReply Cases.pendingReply (Samples.reply 1))
                               (page Cases.remountedSite)) [])
  /\ chatHistory (state Cases.remounted) = []
  /\ match loadEffect (strayReply Cases.pendingReply (Samples.reply 1)
                         (browser Cases.remounted)) with
     | Returns w => map ChatHistory.title (chatHistory (state w))
     | _ => []
     end = ["hello"].
Proof.
  split; [|split].
  - apply (visit_stray _ [Cases.pendingReply] Cases.remountedSite
             Cases.pendingReply [] (Samples.reply 1)).
    + apply (visit_mount _ [Cases.pendingReply] Cases.remounted);
        [vm_compute; reflexivity|].
      eexists. vm_compute. reflexivity.
    + reflexivity.
    + vm_compute. lia.
    + vm_compute. repeat split; discriminate.
  - vm_compute. reflexivity.
  - vm_compute. reflexivity.
Qed.

(** X10.  The session of the mounted page.  Its username and its role
    never change and its count never goes down; when the role is not
    "admin" the count never goes past 10, or past the count the page was
    mounted with when that was more. *)
Theorem session_invariant (b : Browser) (w0 w : World) (u0 : UserData) :
  loadEffect b = Returns w0 ->
  user (state w0) = Some u0 ->
  reachable b w ->
  exists u,
    user (state w) = Some u
    /\ username u = username u0
    /\ role u = role u0
    /\ questionsToday u0 <= questionsToday u
    /\ (role u0 <> "admin" ->
        questionsToday u <= Z.max (questionsToday u0) 10).
Proof.
  intros Hload Hu0 Hr.
  induction Hr as [w Hload' _ | w w' Hr IH Hs].
  - assert (w = w0) by congruence. subst w.
    exists u0. repeat split; auto; lia.
  - destruct IH as (u & Hu & Hn & Hro & Hle & Hmax).
    destruct Hs as
      [m w Hc Hl | clk w Hl Hclk | env w p rest Hp Hpick Henv | w | chatId w Hin | sb w].
    + exists u. auto.
    + destruct (send_cases clk w) as [Heq | (u1 & Hu1 & Hc & Hb)].
      * rewrite Heq. exists u. auto.
      * assert (u1 = u) by congruence. subst u1.
        rewrite (send_accepted clk w u Hu Hc Hb).
        pose proof (reachable_count b w Hr u Hu) as Hq.
        assert (Hadd : JsNumber.add (questionsToday u) 1 = questionsToday u + 1
                       \/ JsNumber.add (questionsToday u) 1 = questionsToday u).
        { unfold maxSafeInteger in Hq.
          destruct (NumberFacts.add_one_cases (questionsToday u))
            as [[_ H] | [_ H]]; unfold JsNumber.limit in *; auto; lia. }
        exists (bumped u). cbn [state user username role questionsToday bumped].
        repeat split; auto; [lia|].
        intros Hna. specialize (Hmax Hna).
        rewrite canAsk_other in Hc by congruence.
        apply Z.ltb_lt in Hc. lia.
    + unfold fireTimer. rewrite Hp.
      destruct (isActive (p_activeChat p)) eqn:Ha.
      * rewrite botReply_update by assumption. exists u. auto.
      * rewrite botReply_new by assumption. exists u. auto.
    + exists u. auto.
    + unfold loadChat. destruct (find _ _); exists u; auto.
    + exists u. auto.
Qed.

Lemma session_invariant_witness :
  exists u,
    user (state Cases.replied) = Some u
    /\ username u = "viewer"
    /\ role u = "viewer"
    /\ 0 <= questionsToday u
    /\ (("viewer" : string) <> "admin" -> questionsToday u <= Z.max 0 10).
Proof.
  apply (session_invariant Cases.loginBrowser (Samples.afterLogin "viewer")
           Cases.replied (mkUserData "viewer" "viewer" 0)).
  - vm_compute. reflexivity.
  - vm_compute. reflexivity.
  - exact replied_reachable.
Defined.

Lemma visits_timerInv (b : Browser) (strays0 : list Pending) (s : Site.t) :
  visits b strays0 s -> timerInv (page s).
Proof.
  induction 1 as [w Hload Hu | s w' Hv IH Hstep | s p rest env Hv IH Hs Hpick Henv];
    simpl.
  - destruct (loadEffect_idle b w Hload) as [Ht Hl].
    unfold timerInv. now rewrite Ht.
  - now apply (step_timerInv (page s)).
  - exact IH.
Qed.

(** X11.  At most one reply of the mounted page is pending.  Whatever
    replies of earlier mounts are still to come or have come in, at any
    moment of the mounted page either none of the timers it has set is
    pending and [isLoading] is false, or exactly one is, [isLoading] is
    true, its input and its send button are disabled, and the timer has
    captured the list of transcripts the page shows. *)
Theorem one_reply_pending (b : Browser) (strays0 : list Pending) (s : Site.t) :
  visits b strays0 s ->
  (timers (page s) = [] /\ isLoading (state (page s)) = false)
  \/ (exists p,
        timers (page s) = [p]
        /\ isLoading (state (page s)) = true
        /\ inputDisabled (state (page s)) = true
        /\ sendDisabled (state (page s)) = true
        /\ p_chatHistory p = chatHistory (state (page s))).
Proof.
  intros Hv. pose proof (visits_timerInv b strays0 s Hv) as H.
  unfold timerInv in H. destruct (timers (page s)) as [|p [|q l]].
  - left. auto.
  - right. destruct H as (Hl & Hh & _). exists p.
    unfold inputDisabled, sendDisabled. rewrite Hl, !orb_true_r. auto.
  - contradiction.
Qed.

Lemma remounted_visits :
  visits (Login.handleLogin "viewer" "again" (browser (handleLogout Cases.sent)))
         [Cases.pendingReply] Cases.remountedSite.
Proof.
  apply (visit_mount _ [Cases.pendingReply] Cases.remounted);
    [vm_compute; reflexivity|].
  eexists. vm_compute. reflexivity.
Defined.

Lemma one_reply_pending_witness :
  timers (page Cases.remountedSite) = []
  /\ isLoading (state (page Cases.remountedSite)) = false.
Proof.
  destruct (one_reply_pending _ _ _ remounted_visits) as [H | (p & Hp & _)].
  - exact H.
  - vm_compute in Hp. discriminate Hp.
Defined.

End SyncFacts.

(** ** The page, event by event *)

Module PageFacts.
Import JsString JSON Blob Chat Sync ChatView.
Import StringFacts ChatFacts JsonFacts BlobFacts Persistence Transcripts Validity.
Import SyncFacts.

(** The username of the session, and of the session every pending reply
    has captured, is the one the page was mounted with. *)
Lemma reachable_username (b : Browser) (w0 w : World) (u0 : UserData) :
  loadEffect b = Returns w0 ->
  user (state w0) = Some u0 ->
  reachable b w ->
  exists u,
    user (state w) = Some u
    /\ username u = username u0
    /\ Forall (fun p => username (p_user p) = username u0) (timers w).
Proof.
  intros Hload Hu0 Hr.
  induction Hr as [w Hload' _ | w w' Hr IH Hs].
  - assert (w = w0) by congruence. subst w.
    destruct (loadEffect_idle b w0 Hload) as [Ht _].
    exists u0. rewrite Ht. auto.
  - destruct IH as (u & Hu & Hn & Hf).
    destruct Hs as
      [m w Hc Hl | clk w Hl Hclk | env w p rest Hp Hpick Henv | w | chatId w Hin | sb w].
    + exists u. auto.
    + destruct (send_cases clk w) as [Heq | (u1 & Hu1 & Hc & Hb)].
      * rewrite Heq. exists u. auto.
      * assert (u1 = u) by congruence. subst u1.
        rewrite (send_accepted clk w u Hu Hc Hb).
        exists (bumped u). cbn [state user timers]. repeat split; auto.
        apply Forall_app. split; [exact Hf|].
        constructor; [exact Hn | constructor].
    + unfold fireTimer. rewrite Hp in *.
      inversion Hf as [|? ? _ Hrest]; subst.
      destruct (isActive (p_activeChat p)) eqn:Ha.
      * rewrite botReply_update by assumption. exists u. auto.
      * rewrite botReply_new by assumption. exists u. auto.
    + exists u. auto.
    + unfold loadChat. destruct (find _ _); exists u; auto.
    + exists u. auto.
Qed.

(** X12.  What the mounted page leaves alone.  Whatever is typed, sent,
    answered or selected, the page shows no toast, does not navigate, does
    not touch the cookies, and writes no item of the storage but "user"
    and the transcript item of the username it was mounted with. *)
Theorem page_frame (b : Browser) (w0 w : World) (u0 : UserData) :
  loadEffect b = Returns w0 ->
  user (state w0) = Some u0 ->
  reachable b w ->
  cookies (browser w) = cookies b
  /\ location (browser w) = location b
  /\ toasts (browser w) = toasts b
  /\ forall k, k <> "user" -> k <> historyKey u0 ->
               getItem k (browser w) = getItem k b.
Proof.
  intros Hload Hu0 Hr.
  induction Hr as [w Hload' _ | w w' Hr IH Hs].
  - assert (w = w0) by congruence. subst w.
    destruct (loadEffect_mounted b w0 u0 Hload Hu0) as (Hb & _).
    rewrite Hb. auto.
  - destruct (reachable_username b w0 w u0 Hload Hu0 Hr) as (u & Hu & Hn & Hf).
    destruct IH as (Hc & Hl & Ht & Hk).
    destruct Hs as
      [m w Hca Hlo | clk w Hlo Hclk | env w p rest Hp Hpick Henv | w | chatId w Hin | sb w].
    + auto.
    + destruct (send_cases clk w) as [Heq | (u1 & Hu1 & Hca & Hb)].
      * rewrite Heq. auto.
      * assert (u1 = u) by congruence. subst u1.
        rewrite (send_accepted clk w u Hu Hca Hb).
        cbn [browser]. repeat split; auto.
        intros k Hk1 Hk2. rewrite getItem_setItem_ne by congruence. auto.
    + unfold fireTimer. rewrite Hp in *.
      inversion Hf as [|? ? Hpu Hrest]; subst.
      apply historyKey_username in Hpu.
      destruct (isActive (p_activeChat p)) eqn:Ha.
      * rewrite botReply_update by assumption.
        cbn [browser]. repeat split; auto.
        intros k Hk1 Hk2. rewrite getItem_setItem_ne by congruence. auto.
      * rewrite botReply_new by assumption.
        cbn [browser]. repeat split; auto.
        intros k Hk1 Hk2. rewrite getItem_setItem_ne by congruence. auto.
    + auto.
    + unfold loadChat. destruct (find _ _); auto.
    + auto.
Qed.

Lemma page_frame_witness :
  cookies (browser Cases.replied) = cookies Cases.loginBrowser
  /\ location (browser Cases.replied) = location Cases.loginBrowser
  /\ toasts (browser Cases.replied) = toasts Cases.loginBrowser
  /\ forall k, k <> "user" -> k <> historyKey (mkUserData "viewer" "viewer" 0) ->
               getItem k (browser Cases.replied) = getItem k Cases.loginBrowser.
Proof.
  apply (page_frame Cases.loginBrowser (Samples.afterLogin "viewer")
           Cases.replied (mkUserData "viewer" "viewer" 0)).
  - vm_compute. reflexivity.
  - vm_compute. reflexivity.
  - exact replied_reachable.
Defined.

(** X13.  The send button and the Enter key agree with the handler.
    While no reply is pending, the button is enabled exactly when
    [handleSendMessage] would change the page; a key press changes the
    page exactly when the key is Enter, Shift is not held, and the button
    is enabled. *)
Theorem send_button_agrees (clk : SendClock) (w : World)
        (key : string) (shiftKey : bool) :
  isLoading (state w) = false ->
  (sendDisabled (state w) = false <-> handleSendMessage clk w <> w)
  /\ (handleKeyPress key shiftKey clk w <> w <->
      key = "Enter" /\ shiftKey = false /\ sendDisabled (state w) = false).
Proof.
  intros Hl.
  assert (Hs : sendDisabled (state w) = false <-> handleSendMessage clk w <> w).
  { unfold sendDisabled. rewrite Hl, orb_false_r. split.
    - intros H. apply orb_false_elim in H. destruct H as [Ht Hc].
      apply negb_false_iff in Ht, Hc.
      destruct (user (state w)) as [u|] eqn:Hu; [|discriminate Hc].
      apply (accepted_changes clk w u Hu Hc). now apply truthy_true.
    - intros H.
      destruct (truthy (trim (currentMessage (state w)))) eqn:Ht.
      + destruct (canAskQuestion (user (state w))) eqn:Hc; [reflexivity|].
        exfalso. apply H. now apply send_rejected.
      + exfalso. apply H. apply send_blank.
        destruct (trim (currentMessage (state w))); [reflexivity|discriminate]. }
  split; [exact Hs|].
  unfold handleKeyPress.
  destruct (String.eqb_spec key "Enter") as [-> | Hk]; destruct shiftKey;
    cbn [andb negb]; rewrite ?Hs; intuition congruence.
Qed.

Lemma send_button_agrees_witness :
  (sendDisabled (state Cases.typed) = false <->
   handleSendMessage (Samples.clock 1) Cases.typed <> Cases.typed)
  /\ (handleKeyPress "Enter" false (Samples.clock 1) Cases.typed <> Cases.typed <->
      ("Enter" : string) = "Enter" /\ false = false
      /\ sendDisabled (state Cases.typed) = false).
Proof.
  apply (send_button_agrees (Samples.clock 1) Cases.typed "Enter" false).
  vm_compute. reflexivity.
Defined.

(** X14.  The notice of the daily limit.  On a mounted page the notice is
    shown exactly when the quota refuses the next question, which is when
    the role is not "admin" and the count is 10 or more; the test of the
    role in the render adds nothing.  When it is shown the input and the
    button are disabled and the placeholder tells of the limit. *)
Theorem limit_notice (s : State) (u : UserData) :
  user s = Some u ->
  limitNotice s = negb (canAskQuestion (user s))
  /\ (limitNotice s = true <-> role u <> "admin" /\ 10 <= questionsToday u)
  /\ (limitNotice s = true ->
      inputDisabled s = true /\ sendDisabled s = true
      /\ placeholder s = "Daily question limit reached").
Proof.
  intros Hu.
  unfold limitNotice, inputDisabled, sendDisabled, placeholder.
  rewrite Hu. unfold canAskQuestion.
  destruct (String.eqb_spec (role u) "admin") as [Hr | Hr]; cbn [negb andb orb].
  - repeat split; try discriminate. intros [H _]. contradiction.
  - rewrite andb_true_r.
    destruct (Z.ltb_spec (questionsToday u) 10) as [Hq | Hq]; cbn [negb orb].
    + repeat split; try discriminate. intros [_ H]. lia.
    + rewrite !orb_true_r. repeat split; auto.
Qed.

Lemma limit_notice_witness :
  limitNotice (setUser (Some (mkUserData "viewer" "viewer" 10)) initialState) = true.
Proof.
  destruct (limit_notice
              (setUser (Some (mkUserData "viewer" "viewer" 10)) initialState)
              (mkUserData "viewer" "viewer" 10) eq_refl) as (_ & H & _).
  apply H. split; [discriminate | reflexivity].
Defined.


Lemma loadEffect_no_active (b : Browser) (w : World) :
  loadEffect b = Returns w -> activeChat (state w) = None.
Proof.
  unfold loadEffect.
  destruct (negb (present (getItem "user" b))); [now intros [= <-]|].
  binds. destruct (JSON.parse _) as [j| |]; try discriminate.
  destruct (toUser j) as [u| |]; try discriminate.
  destruct (present (getItem (historyKey u) b)); [|now intros [= <-]].
  destruct (JSON.parse _) as [j'| |]; try discriminate.
  destruct (toHistory j') as [h| |]; try discriminate.
  now intros [= <-].
Qed.

(** The active transcript is one of the list. *)
Lemma reachable_active_listed (b : Browser) (w : World) :
  reachable b w ->
  forall a, activeChat (state w) = Some a ->
            In a (map ChatHistory.id (chatHistory (state w))).
Proof.
  intros Hr.
  induction Hr as [w Hload _ | w w' Hr IH Hs]; intros a Ha.
  - rewrite (loadEffect_no_active b w Hload) in Ha. discriminate.
  - pose proof (reachable_timerInv b w Hr) as Hinv.
    destruct Hs as
      [m w Hc Hl | clk w Hl Hclk | env w p rest Hp Hpick Henv | w | chatId w Hin | sb w].
    + now apply IH.
    + destruct (send_cases clk w) as [Heq | (u & Hu & Hc & Hb)].
      * rewrite Heq in *. now apply IH.
      * rewrite (send_accepted clk w u Hu Hc Hb) in *. now apply IH.
    + unfold timerInv in Hinv. unfold fireTimer in *. rewrite Hp in *.
      destruct rest; [|contradiction].
      destruct Hinv as (_ & Hh & _).
      destruct (isActive (p_activeChat p)) eqn:Hact.
      * rewrite botReply_update in * by assumption.
        cbn [state activeChat chatHistory] in *.
        rewrite map_rewritten_ids, Hh. now apply IH.
      * rewrite botReply_new in * by assumption.
        cbn [state activeChat chatHistory] in *.
        injection Ha as <-. now left.
    + discriminate.
    + unfold loadChat in *.
      destruct (find _ _); [|now apply IH].
      cbn [state onState setCurrentMessages setActiveChat activeChat chatHistory] in *.
      injection Ha as <-. exact Hin.
    + now apply IH.
Qed.

Lemma find_listed (a : string) (h : list ChatHistory.t) :
  In a (map ChatHistory.id h) ->
  exists c,
    find (fun c => bool_decide (Some (ChatHistory.id c) = Some a)) h = Some c
    /\ In c h /\ ChatHistory.id c = a.
Proof.
  induction h as [|c0 h IH]; [intros []|].
  intros Hin. cbn [find].
  destruct (decide (Some (ChatHistory.id c0) = Some a)) as [He | Hne].
  - rewrite bool_decide_eq_true_2 by exact He.
    exists c0. repeat split; [now left | congruence].
  - rewrite bool_decide_eq_false_2 by exact Hne.
    destruct Hin as [Hh | Ht]; [congruence|].
    destruct (IH Ht) as (c & Hf & Hc & Hi).
    exists c. repeat split; auto. now right.
Qed.

Lemma find_rewritten (p : Pending) (env : ReplyEnv) (a : string)
      (h : list ChatHistory.t) :
  p_activeChat p = Some a ->
  In a (map ChatHistory.id h) ->
  exists c,
    find (fun c => bool_decide (Some (ChatHistory.id c) = Some a))
         (map (rewritten p env) h) = Some c
    /\ ChatHistory.title c = chatTitle (Message.content (p_userMessage p)).
Proof.
  intros Hp. induction h as [|c0 h IH]; [intros []|].
  intros Hin. cbn [map find].
  destruct (rewritten_cases p env c0)
    as [(Heq & Hne) | (He & Hid & _ & Hti & _)].
  - rewrite Heq. rewrite Hp in Hne.
    rewrite bool_decide_eq_false_2 by exact Hne.
    destruct Hin as [Hh | Ht]; [congruence|]. now apply IH.
  - rewrite bool_decide_eq_true_2 by congruence.
    eexists. split; [reflexivity | exact Hti].
Qed.

Lemma chatTitle_truthy (body : string) :
  trim body <> "" -> truthy (chatTitle body) = true.
Proof.
  destruct body as [|c r]; [intros H; now contradiction H|].
  intros _. reflexivity.
Qed.

(** X15.  The header after a turn.  From any idle moment of the mounted
    page, once a non-blank text within the quota is sent and answered, the
    header shows the title made from that text: the first 30 code units,
    with three dots when there are more. *)
Theorem header_shows_latest (b : Browser) (w : World) (u : UserData)
        (body : string) (clk : SendClock) (env : ReplyEnv) :
  reachable b w ->
  timers w = [] ->
  user (state w) = Some u ->
  canAskQuestion (Some u) = true ->
  trim body <> "" ->
  headerTitle (state (turn body clk env w)) = chatTitle body.
Proof.
  intros Hr Ht Hu Hc Hb.
  pose proof (reachable_active_listed b w Hr) as Hlisted.
  unfold turn.
  rewrite (send_accepted clk (onState (setCurrentMessage body) w) u Hu Hc Hb).
  unfold fireTimer.
  cbn [timers onState state browser chatHistory activeChat currentMessages
       setCurrentMessage sidebarOpen].
  rewrite Ht. cbn [app].
  match goal with |- context [botReply ?p0 _ _] => set (p := p0) end.
  destruct (isActive (p_activeChat p)) eqn:Hact.
  - rewrite botReply_update by exact Hact.
    unfold headerTitle. cbn [state activeChat chatHistory].
    change (p_activeChat p) with (activeChat (state w)) in Hact.
    rewrite Hact.
    destruct (activeChat (state w)) as [a|] eqn:Ha; [|discriminate Hact].
    destruct (find_rewritten p env a (chatHistory (state w)) eq_refl
                (Hlisted a eq_refl))
      as (c & Hf & Hti).
    change (p_chatHistory p) with (chatHistory (state w)).
    rewrite Hf, Hti.
    change (Message.content (p_userMessage p)) with body.
    now rewrite chatTitle_truthy.
  - rewrite botReply_new by exact Hact.
    unfold headerTitle. cbn [state activeChat chatHistory find].
    rewrite bool_decide_eq_true_2 by reflexivity.
    change (ChatHistory.title (newChat p env)) with (chatTitle body).
    rewrite chatTitle_truthy by exact Hb.
    reflexivity.
Qed.

Lemma header_shows_latest_witness :
  headerTitle (state (turn Samples.thirtyOne (Samples.clock 2) (Samples.reply 2)
                           Cases.replied)) =
    chatTitle Samples.thirtyOne.
Proof.
  apply (header_shows_latest Cases.loginBrowser Cases.replied
           (mkUserData "viewer" "viewer" 1) Samples.thirtyOne
           (Samples.clock 2) (Samples.reply 2) replied_reachable).
  - vm_compute. reflexivity.
  - vm_compute. reflexivity.
  - vm_compute. reflexivity.
  - vm_compute. discriminate.
Defined.

(** X16.  The header names a listed transcript.  At any moment of the
    mounted page with an active transcript, the lookup of the header finds
    it in the list, and the header shows its title, or "Chat" when the
    title is empty. *)
Theorem header_of_listed (b : Browser) (w : World) :
  reachable b w ->
  isActive (activeChat (state w)) = true ->
  exists c,
    In c (chatHistory (state w))
    /\ Some (ChatHistory.id c) = activeChat (state w)
    /\ headerTitle (state w) =
         (if truthy (ChatHistory.title c) then ChatHistory.title c else "Chat").
Proof.
  intros Hr Hact. unfold headerTitle. rewrite Hact.
  destruct (activeChat (state w)) as [a|] eqn:Ha; [|discriminate Hact].
  destruct (find_listed a (chatHistory (state w))
              (reachable_active_listed b w Hr a Ha)) as (c & Hf & Hc & Hi).
  exists c. rewrite Hf. repeat split; auto. congruence.
Qed.

Lemma header_of_listed_witness :
  exists c,
    In c (chatHistory (state Cases.replied))
    /\ Some (ChatHistory.id c) = activeChat (state Cases.replied)
    /\ headerTitle (state Cases.replied) =
         (if truthy (ChatHistory.title c) then ChatHistory.title c else "Chat").
Proof.
  apply (header_of_listed Cases.loginBrowser Cases.replied replied_reachable).
  vm_compute. reflexivity.
Defined.


(** X17.  A selection made while a reply is pending.  When a transcript is
    selected, or a new chat started, before the reply has come, the reply
    still puts the answered conversation in the buffer and writes the same
    list of transcripts to the state and to the storage as it would have
    without the selection; when the message was sent from a new chat the
    selection is undone altogether, and otherwise it only stays as the
    active transcript. *)
Theorem reply_overrides_selection (env : ReplyEnv) (w : World) (p : Pending)
        (rest : list Pending) (chatId : string) (sel : World -> World) :
  timers w = p :: rest ->
  sel = loadChat chatId \/ sel = startNewChat ->
  currentMessages (state (fireTimer env (sel w))) = repliedMessages p env
  /\ chatHistory (state (fireTimer env (sel w))) =
       chatHistory (state (fireTimer env w))
  /\ browser (fireTimer env (sel w)) = browser (fireTimer env w)
  /\ (isActive (p_activeChat p) = false ->
      fireTimer env (sel w) = fireTimer env w)
  /\ (isActive (p_activeChat p) = true ->
      activeChat (state (fireTimer env (sel w))) = activeChat (state (sel w))).
Proof.
  intros Hp Hsel.
  assert (Hsame : timers (sel w) = p :: rest
                  /\ browser (sel w) = browser w
                  /\ user (state (sel w)) = user (state w)
                  /\ currentMessage (state (sel w)) = currentMessage (state w)
                  /\ sidebarOpen (state (sel w)) = sidebarOpen (state w)).
  { destruct Hsel as [-> | ->].
    - unfold loadChat. destruct (find _ _); auto.
    - auto. }
  destruct Hsame as (Ht & Hb & Hu & Hm & Hs).
  unfold fireTimer. rewrite Ht, Hp.
  destruct (isActive (p_activeChat p)) eqn:Hact.
  - rewrite !botReply_update by exact Hact.
    cbn [state browser currentMessages chatHistory activeChat].
    rewrite Hb. repeat split; auto. discriminate.
  - rewrite !botReply_new by exact Hact.
    cbn [state browser currentMessages chatHistory activeChat timers].
    rewrite Hb, Hu, Hm, Hs. repeat split; auto. discriminate.
Qed.

Lemma reply_overrides_selection_witness :
  currentMessages (state (fireTimer (Samples.reply 1) (startNewChat Cases.sent))) =
    repliedMessages
      (pendingOf (Samples.clock 1) Cases.typed (mkUserData "viewer" "viewer" 0))
      (Samples.reply 1)
  /\ fireTimer (Samples.reply 1) (startNewChat Cases.sent) = Cases.replied.
Proof.
  destruct (reply_overrides_selection (Samples.reply 1) Cases.sent
              (pendingOf (Samples.clock 1) Cases.typed
                         (mkUserData "viewer" "viewer" 0))
              [] "" startNewChat)
    as (H1 & _ & _ & H4 & _).
  - vm_compute. reflexivity.
  - now right.
  - split; [exact H1|]. apply H4. vm_compute. reflexivity.
Defined.

Lemma append_inv_head (a x y : string) : a +:+ x = a +:+ y -> x = y.
Proof.
  induction a as [|c a IH]; [now rewrite !append_nil_l|].
  rewrite !append_cons. intros [= H]. now apply IH.
Qed.

Lemma numberToString_inj (n1 n2 : Z) (r1 r2 : string) :
  0 <= n1 -> 0 <= n2 ->
  stops r1 = true -> stops r2 = true ->
  numberToString n1 +:+ r1 = numberToString n2 +:+ r2 ->
  n1 = n2 /\ r1 = r2.
Proof.
  intros H1 H2 Hs1 Hs2 He. unfold numberToString in He.
  destruct (Z.ltb_spec n1 0); [lia|]. destruct (Z.ltb_spec n2 0); [lia|].
  apply (f_equal (readNat 0)) in He.
  rewrite !readNat_pad in He by assumption.
  destruct (numDigits_spec n1 H1) as (Hb1 & _).
  destruct (numDigits_spec n2 H2) as (Hb2 & _).
  rewrite !Z.mod_small in He by lia.
  injection He as Hn Hr. split; [lia | exact Hr].
Qed.

(** X18.  The ids of new transcripts.  [generateChatId] gives different
    ids for different readings of the clock, and for the same reading and
    different random suffixes; the readings are not negative. *)
Theorem generateChatId_injective (n1 n2 : Z) (r1 r2 : string) :
  0 <= n1 -> 0 <= n2 ->
  generateChatId n1 r1 = generateChatId n2 r2 ->
  n1 = n2 /\ r1 = r2.
Proof.
  intros H1 H2 He. unfold generateChatId in He.
  apply append_inv_head in He.
  destruct (numberToString_inj n1 n2 ("-" +:+ r1) ("-" +:+ r2)
              H1 H2 eq_refl eq_refl He) as [Hn Hr].
  split; [exact Hn|]. now apply append_inv_head in Hr.
Qed.

Lemma generateChatId_injective_witness :
  (1700000003500 : Z) = 1700000003500 /\ ("k3j9x0q1z" : string) = "k3j9x0q1z".
Proof.
  apply (generateChatId_injective 1700000003500 1700000003500
           "k3j9x0q1z" "k3j9x0q1z"); [lia | lia | reflexivity].
Defined.

Lemma substring_substring (s : string) :
  forall n m : nat,
    (n <= m)%nat -> substring 0 n (substring 0 m s) = substring 0 n s.
Proof.
  induction s as [|c s IH]; intros [|n] [|m] H; simpl; try reflexivity; try lia.
  f_equal. apply IH. lia.
Qed.

(** X19.  The canned replies.  The reply to a message depends on the first
    30 code units of the message only, and it is never empty; the index
    drawn is below 5. *)
Theorem generateBotResponse_prefix (i : nat) (msg : string) :
  (i < 5)%nat ->
  generateBotResponse i msg = generateBotResponse i (slice 0 30 msg)
  /\ generateBotResponse i msg <> "".
Proof.
  intros Hi. unfold generateBotResponse, slice.
  rewrite !substring_substring by lia.
  split; [reflexivity|].
  do 5 (destruct i as [|i]; [apply truthy_true; reflexivity|]). lia.
Qed.

Lemma generateBotResponse_prefix_witness :
  generateBotResponse 1 Samples.thirtyOne =
    generateBotResponse 1 (slice 0 30 Samples.thirtyOne)
  /\ generateBotResponse 1 Samples.thirtyOne <> "".
Proof.
  apply (generateBotResponse_prefix 1 Samples.thirtyOne). lia.
Defined.


(** The digits of a number that is not negative do not start with a minus
    sign. *)
Lemma numberToString_not_minus (n : Z) (r r' : string) :
  0 <= n -> numberToString n +:+ r <> String "-" r'.
Proof.
  intros Hn He. unfold numberToString in He.
  destruct (Z.ltb_spec n 0); [lia|].
  destruct (numDigits_spec n Hn) as (_ & _ & Hpos).
  destruct (numDigits n) as [|w]; [lia|].
  rewrite pad_head, append_cons in He. injection He as Hc _.
  pose proof (digitChar_not_minus ((n / 10 ^ Z.of_nat w) mod 10)) as Hd.
  rewrite Hc in Hd. discriminate Hd. apply Z.mod_pos_bound. lia.
Qed.

Lemma numberToString_negative (n : Z) :
  n < 0 -> numberToString n = String "-" (numberToString (- n)).
Proof.
  intros Hn. unfold numberToString.
  destruct (Z.ltb_spec n 0); [|lia]. destruct (Z.ltb_spec (- n) 0); [lia|].
  reflexivity.
Qed.

(** The digits of an integer tell the integer, whatever its sign. *)
Lemma numberToString_inj_all (n1 n2 : Z) (r1 r2 : string) :
  stops r1 = true -> stops r2 = true ->
  numberToString n1 +:+ r1 = numberToString n2 +:+ r2 ->
  n1 = n2.
Proof.
  intros Hs1 Hs2 He.
  destruct (Z.lt_ge_cases n1 0) as [H1 | H1];
    destruct (Z.lt_ge_cases n2 0) as [H2 | H2].
  - rewrite (numberToString_negative n1 H1), (numberToString_negative n2 H2),
      !append_cons in He.
    injection He as He.
    destruct (numberToString_inj (- n1) (- n2) r1 r2) as [Hn _]; auto; lia.
  - rewrite (numberToString_negative n1 H1), append_cons in He.
    symmetry in He. now apply numberToString_not_minus in He.
  - rewrite (numberToString_negative n2 H2), append_cons in He.
    now apply numberToString_not_minus in He.
  - destruct (numberToString_inj n1 n2 r1 r2) as [Hn _]; auto.
Qed.

(** X20.  The label of the quota, for the counts the page can hold, from
    -2^53 to 2^53, which are written with all their digits.
    [getQuestionLimit] reads "Unlimited" exactly for the role "admin", for
    which the quota never refuses; for two sessions of other roles the
    labels are equal only when the counts are. *)
Theorem question_limit_label (u v : UserData) :
  - JsNumber.limit <= questionsToday u <= JsNumber.limit ->
  - JsNumber.limit <= questionsToday v <= JsNumber.limit ->
  (getQuestionLimit (Some u) = "Unlimited" <-> role u = "admin")
  /\ (getQuestionLimit (Some u) = "Unlimited" -> canAskQuestion (Some u) = true)
  /\ (role u <> "admin" -> role v <> "admin" ->
      getQuestionLimit (Some u) = getQuestionLimit (Some v) ->
      questionsToday u = questionsToday v).
Proof.
  intros _ _.
  assert (Hl : getQuestionLimit (Some u) = "Unlimited" <-> role u = "admin").
  { unfold getQuestionLimit.
    destruct (String.eqb_spec (role u) "admin") as [Hr | Hr]; [tauto|].
    split; [|tauto]. intros He.
    destruct (numberToString_head (questionsToday u) "/10 today")
      as (c & r & Hc & Hd).
    rewrite Hc in He. injection He as -> _. discriminate Hd. }
  split; [exact Hl|]. split.
  - intros He. apply canAsk_admin. now apply Hl.
  - intros Hu Hv He. unfold getQuestionLimit in He.
    destruct (String.eqb_spec (role u) "admin"); [contradiction|].
    destruct (String.eqb_spec (role v) "admin"); [contradiction|].
    now apply (numberToString_inj_all _ _ "/10 today" "/10 today").
Qed.

Lemma question_limit_label_witness :
  questionsToday (mkUserData "viewer" "viewer" (-3)) =
    questionsToday (mkUserData "editor" "editor" (-3)).
Proof.
  destruct (question_limit_label (mkUserData "viewer" "viewer" (-3))
              (mkUserData "editor" "editor" (-3))) as (_ & _ & H).
  - vm_compute. split; discriminate.
  - vm_compute. split; discriminate.
  - apply H; [discriminate | discriminate | vm_compute; reflexivity].
Defined.

End PageFacts.
